(** * Chunk / transcribe / reassemble pipeline of groover-podcast-automation

    A shallow embedding of [src/audio_processing.py] ([AudioProcessor.chunk_audio],
    [AudioProcessor.chunk_audio_by_size]) and of [src/transcription.py]
    ([TranscriptionService.transcribe_audio], [transcribe_chunks_sequential],
    [reassemble_transcription], [transcribe_file]), followed by the properties
    of the pipeline.  The rest of [AudioProcessor] ([validate_audio_file],
    [load_audio], [get_audio_info], [save_chunks], [process_file]) and
    [process_batch_files] are embedded in [Upload].

    Python values are modelled as follows.
    - [int] used for milliseconds is [Z]; [len(...)] is [Z.of_nat (length ...)].
    - Python numbers used for seconds (ints or floats) are an abstract type
      with the operations the code applies to them, see [PyNumber].
    - A [dict] with a fixed vocabulary of keys is a record of optional fields:
      [None] means that the key is absent.
    - Progress fractions are exact rationals ([Q]).
    - The speech-to-text backend, the file system and the network are one
      abstract world threaded through the calls. *)

From stdpp Require Import base option list strings gmap.
From Stdlib Require Import ZArith QArith Lia DecimalString Sorted.
From Stdlib Require DecimalNat DecimalFacts.

Local Open Scope Z_scope.

(** ** Python building blocks *)

Module Py.

(** [range(start, stop, step)]: iterate from [start] while the bound is not
    reached.  [fuel] bounds the number of iterations; [range] picks a fuel
    that is never exhausted. *)
Fixpoint range_up (fuel : nat) (cur stop step : Z) : list Z :=
  match fuel with
  | O => []
  | S fuel' =>
      if cur <? stop then cur :: range_up fuel' (cur + step) stop step else []
  end.

Fixpoint range_down (fuel : nat) (cur stop step : Z) : list Z :=
  match fuel with
  | O => []
  | S fuel' =>
      if stop <? cur then cur :: range_down fuel' (cur + step) stop step else []
  end.

(** [None] stands for the [ValueError] raised on a zero step. *)
Definition range (start stop step : Z) : option (list Z) :=
  if step =? 0 then None
  else if 0 <? step then Some (range_up (Z.to_nat (stop - start)) start stop step)
  else Some (range_down (Z.to_nat (start - stop)) start stop step).

(** [sep.join(parts)] *)
Fixpoint join (sep : string) (parts : list string) : string :=
  match parts with
  | [] => ""
  | [p] => p
  | p :: rest => p +:+ sep +:+ join sep rest
  end.

(** [str(n)] for a natural number. *)
Definition str_of_nat (n : nat) : string :=
  NilZero.string_of_uint (Nat.to_uint n).

(** Truthiness of a string: the empty string is falsy. *)
Definition truthy_str (s : string) : bool :=
  match s with EmptyString => false | _ => true end.

(** Truthiness of a list: the empty list is falsy. *)
Definition truthy_list {A} (l : list A) : bool :=
  match l with [] => false | _ => true end.

End Py.

(** ** Audio partitioning ([audio_processing.py]) *)

Module Audio.
Section Partition.

(** A decoded [AudioSegment] at the resolution the partitioning works at:
    one element per millisecond, so that [len(audio)] is the duration in
    milliseconds and slicing is by millisecond.  The sample frames inside a
    millisecond, and the rounding the audio library applies between frames
    and milliseconds, are below this model: what is proved about spans,
    counts and which slice [audio[a:b]] a chunk is carries over to the code,
    while an equality between audio data is an equality at millisecond
    resolution. *)
Context {Frame : Type}.
Definition AudioSegment := list Frame.

Definition len (audio : AudioSegment) : Z := Z.of_nat (length audio).

(** [audio[start_ms:end_ms]] for bounds inside [0, len(audio)], the only
    ones the partitioning loops produce. *)
Definition slice (audio : AudioSegment) (start_ms end_ms : Z) : AudioSegment :=
  take (Z.to_nat (end_ms - start_ms)) (drop (Z.to_nat start_ms) audio).

(** [AudioProcessor.chunk_audio] *)
Definition chunk_audio (audio : AudioSegment) (chunk_duration_ms : Z)
  : option (list AudioSegment) :=
  let audio_length := len audio in
  starts ← Py.range 0 audio_length chunk_duration_ms;
  Some (fold_left
          (fun chunks start_ms =>
             let end_ms := Z.min (start_ms + chunk_duration_ms) audio_length in
             let chunk := slice audio start_ms end_ms in
             chunks ++ [chunk])
          starts []).

(** [AudioProcessor.MAX_CHUNK_SIZE] *)
Definition MAX_CHUNK_SIZE : Z := 25 * 1024 * 1024.

(** [AudioProcessor.chunk_audio_by_size] *)
Definition chunk_audio_by_size (audio : AudioSegment) (max_size_bytes : Z)
  : option (list AudioSegment) :=
  let audio_length := len audio in
  let chunk_duration_ms := 600000 in
  starts ← Py.range 0 audio_length chunk_duration_ms;
  Some (fold_left
          (fun chunks start_ms =>
             let end_ms := Z.min (start_ms + chunk_duration_ms) audio_length in
             let chunk := slice audio start_ms end_ms in
             chunks ++ [chunk])
          starts []).

(** The [(start_ms, end_ms)] pairs visited by the loop of [chunk_audio]. *)
Definition chunk_spans (audio_length chunk_duration_ms : Z) : option (list (Z * Z)) :=
  starts ← Py.range 0 audio_length chunk_duration_ms;
  Some (map (fun start_ms =>
               (start_ms, Z.min (start_ms + chunk_duration_ms) audio_length))
            starts).

End Partition.

(** A list of spans that starts at [a], ends at [b], in which every span is
    non-empty and starts where the previous one ended: the spans are
    contiguous, disjoint, increasing and cover exactly [[a, b)]. *)
Inductive span_chain : Z -> list (Z * Z) -> Z -> Prop :=
| chain_nil a : span_chain a [] a
| chain_cons a e rest b :
    a < e -> span_chain e rest b -> span_chain a ((a, e) :: rest) b.

(** The span the loop body computes for a start position. *)
Definition span_at (B D : Z) (start_ms : Z) : Z * Z :=
  (start_ms, Z.min (start_ms + B) D).

(** Number of spans of width at most [B] needed for [D] milliseconds. *)
Definition ceil_div (D B : Z) : Z := (D + B - 1) / B.

End Audio.

(** ** Python numbers *)

(** The operations [transcription.py] applies to durations and timestamps
    (Python ints or floats): the literal [0], [+], truthiness and [> 0].
    A falsy number is a zero, and adding a zero changes nothing. *)
Class PyNumber (num : Type) := {
  num_zero : num;
  num_add : num -> num -> num;
  num_truthy : num -> bool;
  num_pos : num -> bool;
  num_add_falsy : forall x d, num_truthy d = false -> num_add x d = x;
}.

#[global, refine] Instance Z_PyNumber : PyNumber Z := {|
  num_zero := 0;
  num_add := Z.add;
  num_truthy := fun x => negb (x =? 0);
  num_pos := fun x => 0 <? x;
|}.
Proof.
  intros x d Hd. apply negb_false_iff, Z.eqb_eq in Hd. subst d. apply Z.add_0_r.
Defined.

(** ** Transcription ([transcription.py]) *)

Module Transcription.
Section Service.

Context {num : Type} `{PyNumber num}.

(** *** Dictionaries *)

(** One timestamped segment of a transcription. *)
Record Segment := mkSegment {
  seg_start : num;
  seg_end : num;
  seg_text : string;
}.

(** The value stored under ['index'] in a chunk error: the chunk index, or
    the string default of [r.get('chunk_index', 'unknown')]. *)
Inductive IndexValue :=
| IndexInt (i : nat)
| IndexStr (s : string).

(** An element of ['chunk_errors']. *)
Record ChunkError := mkChunkError {
  ce_index : IndexValue;
  ce_error : string;
}.

(** The result dictionaries that flow through the service.  Every field is
    a key; [None] is an absent key.  For ['language'], ['duration'] and
    ['total_duration'] the inner option is the Python value [None].  The
    parameter [S] is the representation of a segment: a [Segment] value, or
    an address in a store of segment objects. *)
Record PyDict (S : Type) := mkDict {
  success : option bool;
  text : option string;
  language : option (option string);
  duration : option (option num);
  segments : option (list S);
  file_path : option string;
  chunk_index : option nat;
  error : option string;
  total_chunks : option nat;
  successful_chunks : option nat;
  failed_chunks : option nat;
  total_duration : option (option num);
  chunk_errors : option (list ChunkError);
}.
#[global] Arguments mkDict {S}.
#[global] Arguments success {S}.
#[global] Arguments text {S}.
#[global] Arguments language {S}.
#[global] Arguments duration {S}.
#[global] Arguments segments {S}.
#[global] Arguments file_path {S}.
#[global] Arguments chunk_index {S}.
#[global] Arguments error {S}.
#[global] Arguments total_chunks {S}.
#[global] Arguments successful_chunks {S}.
#[global] Arguments failed_chunks {S}.
#[global] Arguments total_duration {S}.
#[global] Arguments chunk_errors {S}.

(** [r.get('success', False)] *)
Definition get_success {S} (r : PyDict S) : bool := default false (success r).

(** Truthiness of [r.get('text')]. *)
Definition has_text {S} (r : PyDict S) : bool :=
  match text r with Some s => Py.truthy_str s | None => false end.

(** [r.get('text', '')] *)
Definition get_text {S} (r : PyDict S) : string := default "" (text r).

(** [r.get('segments', [])] *)
Definition get_segments {S} (r : PyDict S) : list S := default [] (segments r).

(** [r.get('duration')] *)
Definition get_duration {S} (r : PyDict S) : option num := mjoin (duration r).

(** [r.get('language')] *)
Definition get_language {S} (r : PyDict S) : option string := mjoin (language r).

(** [result['chunk_index'] = i] *)
Definition set_chunk_index {S} (r : PyDict S) (i : nat) : PyDict S :=
  {| success := success r; text := text r; language := language r;
     duration := duration r; segments := segments r; file_path := file_path r;
     chunk_index := Some i; error := error r; total_chunks := total_chunks r;
     successful_chunks := successful_chunks r; failed_chunks := failed_chunks r;
     total_duration := total_duration r; chunk_errors := chunk_errors r |}.

(** *** The outside world *)

(** The response object of the speech-to-text client.  An optional field
    is an attribute that may be missing ([hasattr]); [resp_str] is
    [str(response)].  The language that is there may be the value [None],
    which is the inner option; a duration that is missing and a duration
    that is [None] both give the value [None].  The text that is there is a
    string and the segments that are there are a list of segment
    dictionaries, as the speech-to-text interface documents them. *)
Record Response := mkResponse {
  resp_text : option string;
  resp_str : string;
  resp_language : option (option string);
  resp_duration : option num;
  resp_segments : option (list Segment);
}.

(** The keyword arguments of [client.audio.transcriptions.create]. *)
Record Params := mkParams {
  p_model : string;
  p_file : string;
  p_language : option string;
  p_prompt : option string;
}.

(** The outcome of a fallible step: a value, or an [Exception] whose
    [str(e)] is [msg]. *)
Inductive Result (A : Type) :=
| Ok (a : A)
| Raise (msg : string).
#[global] Arguments Ok {A}.
#[global] Arguments Raise {A}.

(** [World] is the state of everything outside the process: files, the
    network and the backend.  [open_rb] is [open(path, 'rb')] and [create]
    is the call of [client.audio.transcriptions.create] with the given
    keyword arguments; both may raise and both may change the world. *)
Context {World : Type}.
Variable open_rb : string -> World -> Result unit * World.
Variable create : Params -> World -> Result Response * World.

(** The state threaded through the service: the world, and the list of
    calls made so far to the progress callback. *)
Record State := mkState {
  world : World;
  observed : list (Q * string);
}.

(** Computations that read and write the state and may raise. *)
Definition M (A : Type) : Type := State -> Result A * State.

Definition ret {A} (a : A) : M A := fun st => (Ok a, st).

Definition bind {A B} (m : M A) (k : A -> M B) : M B :=
  fun st =>
    match m st with
    | (Ok a, st') => k a st'
    | (Raise msg, st') => (Raise msg, st')
    end.

(** [try: body  except Exception as e: handler(str(e))] *)
Definition try_except {A} (body : M A) (handler : string -> M A) : M A :=
  fun st =>
    match body st with
    | (Ok a, st') => (Ok a, st')
    | (Raise msg, st') => handler msg st'
    end.

(** A step that acts on the world only. *)
Definition lift {A} (f : World -> Result A * World) : M A :=
  fun st =>
    let '(r, w) := f (world st) in
    (r, {| world := w; observed := observed st |}).

Notation "x <- m ;; k" := (bind m (fun x => k))
  (at level 100, m at next level, right associativity).
Notation "m ;;; k" := (bind m (fun _ => k))
  (at level 100, right associativity).

(** A progress callback: any function of the fraction and the message that
    acts on the world and may raise. *)
Definition Callback := Q -> string -> World -> Result unit * World.

(** [if progress_callback: progress_callback(fraction, message)] *)
Definition notify (progress_callback : option Callback)
    (fraction : Q) (message : string) : M unit :=
  match progress_callback with
  | None => ret tt
  | Some f =>
      fun st =>
        lift (f fraction message)
             {| world := world st;
                observed := observed st ++ [(fraction, message)] |}
  end.

(** *** The service *)

(** The attributes of a [TranscriptionService] besides the client. *)
Record Service := mkService {
  model : string;
  prompt_context : option string;
}.

(** [x or y] on optional strings: [x] when it is a non-empty string. *)
Definition str_or (x y : option string) : option string :=
  match x with
  | Some s => if Py.truthy_str s then Some s else y
  | None => y
  end.

(** Truthiness of an optional string. *)
Definition truthy_opt_str (x : option string) : bool :=
  match x with Some s => Py.truthy_str s | None => false end.

(** The [params] dictionary built by [transcribe_audio]: the language and
    the prompt are added only when they are truthy. *)
Definition request_params (self : Service) (audio_file_path : string)
    (lang prompt : option string) : Params :=
  let effective_prompt := str_or prompt (prompt_context self) in
  {| p_model := model self;
     p_file := audio_file_path;
     p_language := if truthy_opt_str lang then lang else None;
     p_prompt := if truthy_opt_str effective_prompt then effective_prompt else None |}.

(** The body of the [try] block of [transcribe_audio].  The two [print]
    calls of the function write to the console and are left out. *)
Definition transcribe_audio_try (self : Service) (audio_file_path : string)
    (lang prompt : option string) : M (PyDict Segment) :=
  lift (open_rb audio_file_path) ;;;
  let params := request_params self audio_file_path lang prompt in
  response <- lift (create params) ;;
  let text := default (resp_str response) (resp_text response) in
  ret {| success := Some true;
         text := Some text;
         language :=
           Some (match resp_language response with
                 | Some l => l
                 | None => str_or lang (Some "unknown")
                 end);
         duration := Some (resp_duration response);
         segments := Some (default [] (resp_segments response));
         file_path := Some audio_file_path;
         chunk_index := None; error := None; total_chunks := None;
         successful_chunks := None; failed_chunks := None;
         total_duration := None; chunk_errors := None |}.

(** [TranscriptionService.transcribe_audio] *)
Definition transcribe_audio (self : Service) (audio_file_path : string)
    (lang prompt : option string) : M (PyDict Segment) :=
  try_except
    (transcribe_audio_try self audio_file_path lang prompt)
    (fun error_msg =>
       ret {| success := Some false;
              error := Some ("Error: " +:+ error_msg);
              file_path := Some audio_file_path;
              text := None; language := None; duration := None;
              segments := None; chunk_index := None; total_chunks := None;
              successful_chunks := None; failed_chunks := None;
              total_duration := None; chunk_errors := None |}).

(** [i / total_chunks] for [total_chunks > 0] *)
Definition fraction_of (i total_chunks : nat) : Q :=
  Z.of_nat i # Pos.of_nat total_chunks.

(** The loop of [transcribe_chunks_sequential], from position [i] on:
    [results] is the list built so far. *)
Fixpoint transcribe_chunks_loop (self : Service) (lang : option string)
    (progress_callback : option Callback) (total_chunks : nat)
    (i : nat) (chunk_paths : list string) (results : list (PyDict Segment))
  : M (list (PyDict Segment)) :=
  match chunk_paths with
  | [] => ret results
  | chunk_path :: rest =>
      notify progress_callback (fraction_of i total_chunks)
        ("Transcribing chunk " +:+ Py.str_of_nat (i + 1) +:+ "/"
           +:+ Py.str_of_nat total_chunks +:+ "...") ;;;
      result <- transcribe_audio self chunk_path lang None ;;
      let result := set_chunk_index result i in
      let results := results ++ [result] in
      notify progress_callback (fraction_of (i + 1) total_chunks)
        ("Transcribed chunk " +:+ Py.str_of_nat (i + 1) +:+ "/"
           +:+ Py.str_of_nat total_chunks) ;;;
      transcribe_chunks_loop self lang progress_callback total_chunks
        (S i) rest results
  end.

(** [TranscriptionService.transcribe_chunks_sequential] *)
Definition transcribe_chunks_sequential (self : Service)
    (chunk_paths : list string) (lang : option string)
    (progress_callback : option Callback) : M (list (PyDict Segment)) :=
  let results := [] in
  let total_chunks := length chunk_paths in
  transcribe_chunks_loop self lang progress_callback total_chunks
    0 chunk_paths results.

(** *** Reassembly *)

(** [adjusted_segment = segment.copy()], followed by the two [+=] on
    ['start'] and ['end']. *)
Definition adjust_segment (time_offset : num) (segment : Segment) : Segment :=
  let adjusted_segment := segment in
  let adjusted_segment :=
    {| seg_start := num_add (seg_start adjusted_segment) time_offset;
       seg_end := seg_end adjusted_segment;
       seg_text := seg_text adjusted_segment |} in
  let adjusted_segment :=
    {| seg_start := seg_start adjusted_segment;
       seg_end := num_add (seg_end adjusted_segment) time_offset;
       seg_text := seg_text adjusted_segment |} in
  adjusted_segment.

(** One iteration of [for chunk in successful_chunks]; the state of the
    loop is the pair [(all_segments, time_offset)]. *)
Definition merge_chunk (acc : list Segment * num) (chunk : PyDict Segment)
  : list Segment * num :=
  let '(all_segments, time_offset) := acc in
  let segs := get_segments chunk in
  if Py.truthy_list segs then
    let all_segments :=
      fold_left
        (fun all_segments segment =>
           all_segments ++ [adjust_segment time_offset segment])
        segs all_segments in
    let time_offset :=
      match get_duration chunk with
      | Some d => if num_truthy d then num_add time_offset d else time_offset
      | None => time_offset
      end in
    (all_segments, time_offset)
  else (all_segments, time_offset).

(** An element of the ['chunk_errors'] comprehension. *)
Definition chunk_error_of {S} (r : PyDict S) : ChunkError :=
  {| ce_index :=
       match chunk_index r with
       | Some i => IndexInt i
       | None => IndexStr "unknown"
       end;
     ce_error := default "unknown error" (error r) |}.

(** [TranscriptionService.reassemble_transcription] *)
Definition reassemble_transcription (chunk_results : list (PyDict Segment))
  : PyDict Segment :=
  let successful := List.filter get_success chunk_results in
  let failed := List.filter (fun r => negb (get_success r)) chunk_results in
  if negb (Py.truthy_list successful) then
    {| success := Some false;
       error := Some "All chunks failed to transcribe";
       failed_chunks := Some (length failed);
       chunk_errors := Some (map chunk_error_of failed);
       text := None; language := None; duration := None; segments := None;
       file_path := None; chunk_index := None; total_chunks := None;
       successful_chunks := None; total_duration := None |}
  else
    let full_text :=
      Py.join " " (map get_text (List.filter has_text successful)) in
    let '(all_segments, time_offset) :=
      fold_left merge_chunk successful ([], num_zero) in
    {| success := Some true;
       text := Some full_text;
       segments := Some all_segments;
       total_chunks := Some (length chunk_results);
       successful_chunks := Some (length successful);
       failed_chunks := Some (length failed);
       language :=
         Some (match successful with
               | first :: _ => get_language first
               | [] => Some "unknown"
               end);
       total_duration :=
         Some (if num_pos time_offset then Some time_offset else None);
       duration := None; file_path := None; chunk_index := None;
       error := None; chunk_errors := None |}.

(** [TranscriptionService.transcribe_file] *)
Definition transcribe_file (self : Service) (chunk_paths : list string)
    (lang : option string) (progress_callback : option Callback)
  : M (PyDict Segment) :=
  match chunk_paths with
  | [] =>
      ret {| success := Some false;
             error := Some "No audio chunks provided";
             text := None; language := None; duration := None;
             segments := None; file_path := None; chunk_index := None;
             total_chunks := None; successful_chunks := None;
             failed_chunks := None; total_duration := None;
             chunk_errors := None |}
  | [chunk_path] =>
      notify progress_callback (1 # 2) "Transcribing audio..." ;;;
      result <- transcribe_audio self chunk_path lang None ;;
      notify progress_callback (1 # 1) "Transcription complete!" ;;;
      ret result
  | _ =>
      notify progress_callback (1 # 10) "Starting transcription..." ;;;
      chunk_results <-
        transcribe_chunks_sequential self chunk_paths lang progress_callback ;;
      notify progress_callback (9 # 10) "Reassembling transcription..." ;;;
      let final_result := reassemble_transcription chunk_results in
      notify progress_callback (1 # 1) "Transcription complete!" ;;;
      ret final_result
  end.

(** *** Reassembly over a store of segment objects

    In Python the segments are mutable dictionaries reached through
    references, and [reassemble_transcription] writes to segment
    dictionaries.  Here a segment is an address in a [Store]; the chunk
    results hold addresses.  The lists and the result dictionaries of the
    input are only read by the function, so they stay values.  [None] is a
    dangling address, which Python cannot produce. *)

Definition Store := list Segment.

(** [segment.copy()]: a new object with the same items. *)
Definition copy_segment (segment : nat) (h : Store) : option (nat * Store) :=
  s ← h !! segment;
  Some (length h, h ++ [s]).

(** [obj['start'] += x] *)
Definition iadd_start (obj : nat) (x : num) (h : Store) : option Store :=
  s ← h !! obj;
  Some (<[obj := {| seg_start := num_add (seg_start s) x;
                    seg_end := seg_end s;
                    seg_text := seg_text s |}]> h).

(** [obj['end'] += x] *)
Definition iadd_end (obj : nat) (x : num) (h : Store) : option Store :=
  s ← h !! obj;
  Some (<[obj := {| seg_start := seg_start s;
                    seg_end := num_add (seg_end s) x;
                    seg_text := seg_text s |}]> h).

(** [for segment in segments] *)
Fixpoint merge_segments_st (time_offset : num) (segs : list nat)
    (all_segments : list nat) (h : Store) : option (list nat * Store) :=
  match segs with
  | [] => Some (all_segments, h)
  | segment :: rest =>
      '(adjusted_segment, h) ← copy_segment segment h;
      h ← iadd_start adjusted_segment time_offset h;
      h ← iadd_end adjusted_segment time_offset h;
      merge_segments_st time_offset rest (all_segments ++ [adjusted_segment]) h
  end.

(** [for chunk in successful_chunks] *)
Fixpoint merge_chunks_st (chunks : list (PyDict nat))
    (all_segments : list nat) (time_offset : num) (h : Store)
  : option (list nat * num * Store) :=
  match chunks with
  | [] => Some (all_segments, time_offset, h)
  | chunk :: rest =>
      let segs := get_segments chunk in
      if Py.truthy_list segs then
        '(all_segments, h) ← merge_segments_st time_offset segs all_segments h;
        let time_offset :=
          match get_duration chunk with
          | Some d => if num_truthy d then num_add time_offset d else time_offset
          | None => time_offset
          end in
        merge_chunks_st rest all_segments time_offset h
      else merge_chunks_st rest all_segments time_offset h
  end.

(** [TranscriptionService.reassemble_transcription], on the store. *)
Definition reassemble_transcription_st (chunk_results : list (PyDict nat))
    (h : Store) : option (PyDict nat * Store) :=
  let successful := List.filter get_success chunk_results in
  let failed := List.filter (fun r => negb (get_success r)) chunk_results in
  if negb (Py.truthy_list successful) then
    Some ({| success := Some false;
             error := Some "All chunks failed to transcribe";
             failed_chunks := Some (length failed);
             chunk_errors := Some (map chunk_error_of failed);
             text := None; language := None; duration := None;
             segments := None; file_path := None; chunk_index := None;
             total_chunks := None; successful_chunks := None;
             total_duration := None |}, h)
  else
    let full_text :=
      Py.join " " (map get_text (List.filter has_text successful)) in
    '(all_segments, time_offset, h) ←
      merge_chunks_st successful [] num_zero h;
    Some ({| success := Some true;
             text := Some full_text;
             segments := Some all_segments;
             total_chunks := Some (length chunk_results);
             successful_chunks := Some (length successful);
             failed_chunks := Some (length failed);
             language :=
               Some (match successful with
                     | first :: _ => get_language first
                     | [] => Some "unknown"
                     end);
             total_duration :=
               Some (if num_pos time_offset then Some time_offset else None);
             duration := None; file_path := None; chunk_index := None;
             error := None; chunk_errors := None |}, h).

(** Reading a dictionary out of the store: every segment address is
    replaced by the segment stored there. *)
Definition load_segments (h : Store) (segs : list nat) : option (list Segment) :=
  mapM (fun l => h !! l) segs.

Definition load_dict (h : Store) (d : PyDict nat) : option (PyDict Segment) :=
  segs ← match segments d with
         | Some ls => Some <$> load_segments h ls
         | None => Some None
         end;
  Some {| success := success d; text := text d; language := language d;
          duration := duration d; segments := segs; file_path := file_path d;
          chunk_index := chunk_index d; error := error d;
          total_chunks := total_chunks d;
          successful_chunks := successful_chunks d;
          failed_chunks := failed_chunks d;
          total_duration := total_duration d;
          chunk_errors := chunk_errors d |}.

Definition load_dicts (h : Store) (ds : list (PyDict nat))
  : option (list (PyDict Segment)) :=
  mapM (load_dict h) ds.

(** *** Vocabulary of the statements *)

(** A segment moved by [time_offset]: both bounds shifted, text kept. *)
Definition shift (time_offset : num) (segment : Segment) : Segment :=
  {| seg_start := num_add (seg_start segment) time_offset;
     seg_end := num_add (seg_end segment) time_offset;
     seg_text := seg_text segment |}.

(** The merged segment list described chunk by chunk: the segments of the
    first chunk shifted by the running offset, then the remaining chunks
    with the offset moved on by [advance]. *)
Fixpoint shifted_segments (advance : num -> PyDict Segment -> num)
    (time_offset : num) (chunks : list (PyDict Segment)) : list Segment :=
  match chunks with
  | [] => []
  | chunk :: rest =>
      map (shift time_offset) (get_segments chunk)
        ++ shifted_segments advance (advance time_offset chunk) rest
  end.

(** The offset after a chunk: moved on by the duration whenever the chunk
    reports one, whatever its segments. *)
Definition advance_always (time_offset : num) (chunk : PyDict Segment) : num :=
  match get_duration chunk with
  | Some d => num_add time_offset d
  | None => time_offset
  end.

(** The offset after a chunk: moved on by the duration when the chunk
    reports one and has at least one segment. *)
Definition advance_with_segments (time_offset : num) (chunk : PyDict Segment) : num :=
  if Py.truthy_list (get_segments chunk) then advance_always time_offset chunk
  else time_offset.

(** Sorting by ascending chunk index (stable; a result without an index
    sorts as index 0). *)
Definition index_key {S} (r : PyDict S) : nat := default 0%nat (chunk_index r).

Fixpoint insert_by_index {S} (r : PyDict S) (sorted : list (PyDict S))
  : list (PyDict S) :=
  match sorted with
  | [] => [r]
  | r' :: rest =>
      if (index_key r <=? index_key r')%nat then r :: sorted
      else r' :: insert_by_index r rest
  end.

Fixpoint sort_by_index {S} (rs : list (PyDict S)) : list (PyDict S) :=
  match rs with
  | [] => []
  | r :: rest => insert_by_index r (sort_by_index rest)
  end.

(** The indices of the results are ascending in list order. *)
Fixpoint ascending_index {S} (rs : list (PyDict S)) : bool :=
  match rs with
  | [] => true
  | r :: rest =>
      forallb (fun r' => (index_key r <=? index_key r')%nat) rest
        && ascending_index rest
  end.

(** Merged segments, successes taken in index order, offset moved on by
    every reported duration. *)
Definition segments_in_index_order (chunk_results : list (PyDict Segment))
  : list Segment :=
  shifted_segments advance_always num_zero
    (sort_by_index (List.filter get_success chunk_results)).

(** Merged segments, successes taken in list order, offset moved on by the
    durations of the chunks that have segments. *)
Definition segments_in_list_order (chunk_results : list (PyDict Segment))
  : list Segment :=
  shifted_segments advance_with_segments num_zero
    (List.filter get_success chunk_results).

(** Merged text, successes taken in index order. *)
Definition text_in_index_order (chunk_results : list (PyDict Segment)) : string :=
  Py.join " " (map get_text (sort_by_index (List.filter get_success chunk_results))).

(** Merged text, successes with a non-empty text taken in list order. *)
Definition text_in_list_order (chunk_results : list (PyDict Segment)) : string :=
  Py.join " "
    (map get_text
       (List.filter has_text (List.filter get_success chunk_results))).

(** [key in d] *)
Definition present {A} (field : option A) : bool :=
  match field with Some _ => true | None => false end.

(** The keys of the merged transcript shape. *)
Definition has_transcript_keys {S} (d : PyDict S) : bool :=
  present (success d) && present (text d) && present (language d)
  && present (segments d) && present (total_chunks d)
  && present (successful_chunks d) && present (failed_chunks d)
  && present (total_duration d).

(** A callback that returns normally on every call. *)
Definition callback_returns (progress_callback : option Callback) : Prop :=
  match progress_callback with
  | None => True
  | Some f => forall fraction message w, exists w', f fraction message w = (Ok tt, w')
  end.

(** A callback that returns normally on every call and leaves the world as
    it found it. *)
Definition callback_inert (progress_callback : option Callback) : Prop :=
  match progress_callback with
  | None => True
  | Some f => forall fraction message w, f fraction message w = (Ok tt, w)
  end.

(** The runner handles the chunks one after the other: starting from
    position [i] in state [st], every path is handed to [transcribe_audio]
    in turn, whatever the earlier calls returned, and the result is
    stamped with the position. *)
Inductive handled (self : Service) (lang : option string)
    (progress_callback : option Callback) (total_chunks : nat)
  : nat -> list string -> State -> list (PyDict Segment) -> State -> Prop :=
| handled_nil i st : handled self lang progress_callback total_chunks i [] st [] st
| handled_cons i chunk_path rest st st1 st2 st3 st' result results m1 m2 :
    notify progress_callback (fraction_of i total_chunks) m1 st = (Ok tt, st1) ->
    transcribe_audio self chunk_path lang None st1 = (Ok result, st2) ->
    notify progress_callback (fraction_of (i + 1) total_chunks) m2 st2 = (Ok tt, st3) ->
    handled self lang progress_callback total_chunks (S i) rest st3 results st' ->
    handled self lang progress_callback total_chunks i (chunk_path :: rest) st
      (set_chunk_index result i :: results) st'.

(** A failure-tagged result carrying an error message. *)
Definition is_failure {S} (r : PyDict S) : Prop :=
  success r = Some false /\ exists msg, error r = Some ("Error: " +:+ msg).

(** The fractions passed to the callback so far. *)
Definition fractions (st : State) : list Q := map fst (observed st).

(** Adjacent elements never decrease. *)
Fixpoint nondecreasing (qs : list Q) : bool :=
  match qs with
  | q :: ((q' :: _) as rest) => Qle_bool q q' && nondecreasing rest
  | _ => true
  end.

Definition in_unit_interval (q : Q) : Prop := (0 <= q /\ q <= 1)%Q.

(** The fractions the runner passes to a callback while it handles [n]
    chunks from position [i] on: one before and one after each chunk. *)
Fixpoint loop_fractions (total_chunks i n : nat) : list Q :=
  match n with
  | O => []
  | S n' =>
      fraction_of i total_chunks :: fraction_of (i + 1) total_chunks
        :: loop_fractions total_chunks (S i) n'
  end.

(** The result of [transcribe_audio] when the transcription raised. *)
Definition failure_result (audio_file_path error_msg : string) : PyDict Segment :=
  {| success := Some false;
     error := Some ("Error: " +:+ error_msg);
     file_path := Some audio_file_path;
     text := None; language := None; duration := None;
     segments := None; chunk_index := None; total_chunks := None;
     successful_chunks := None; failed_chunks := None;
     total_duration := None; chunk_errors := None |}.

(** Every address held by the chunk results is allocated in the store. *)
Definition store_wf (h : Store) (chunk_results : list (PyDict nat)) : Prop :=
  Forall (fun d => Forall (fun l => (l < length h)%nat) (get_segments d))
         chunk_results.

(** Every object of [h] is still there, unchanged, in [h']. *)
Definition preserved (h h' : Store) : Prop :=
  forall l s, h !! l = Some s -> h' !! l = Some s.

(** A success-tagged result: the key ['success'] is there and holds
    [True]. *)
Definition success_tagged {S} (r : PyDict S) : bool :=
  match success r with
  | Some true => true
  | Some false => false
  | None => false
  end.

(** What the transcriber does with one chunk in the world [w]: the file is
    opened, and when it opens the backend is called on it.  The outcome is
    the response of the backend, or the exception of whichever of the two
    steps raised. *)
Definition transcriber (self : Service) (chunk_path : string)
    (lang : option string) (w : World) : Result Response * World :=
  match open_rb chunk_path w with
  | (Ok _, w1) => create (request_params self chunk_path lang None) w1
  | (Raise msg, w1) => (Raise msg, w1)
  end.

(** The dictionary [r] reports the outcome of the transcriber on
    [chunk_path]: a response gives a success-tagged dictionary with the
    text, language, duration and segments of the response (the language
    asked for, or ["unknown"], when the response has none); an exception
    gives a failure-tagged dictionary with the message of the exception and
    none of the transcript keys.  Either way the dictionary names the path
    and has none of the keys of a merged transcript. *)
Definition reports (chunk_path : string) (lang : option string)
    (outcome : Result Response) (r : PyDict Segment) : Prop :=
  file_path r = Some chunk_path
  /\ total_chunks r = None /\ successful_chunks r = None
  /\ failed_chunks r = None /\ total_duration r = None
  /\ chunk_errors r = None
  /\ match outcome with
     | Ok response =>
         success r = Some true
         /\ text r = Some (match resp_text response with
                           | Some t => t
                           | None => resp_str response
                           end)
         /\ language r = Some (match resp_language response with
                               | Some l => l
                               | None =>
                                   match lang with
                                   | Some "" | None => Some "unknown"
                                   | Some l => Some l
                                   end
                               end)
         /\ duration r = Some (resp_duration response)
         /\ segments r = Some (match resp_segments response with
                               | Some segs => segs
                               | None => []
                               end)
         /\ error r = None
     | Raise msg =>
         success r = Some false
         /\ error r = Some ("Error: " +:+ msg)
         /\ text r = None /\ language r = None /\ duration r = None
         /\ segments r = None
     end.

(** The runner serves the chunks one after the other: starting from
    position [i] in state [st], the callback is told, the transcriber works
    on the path in the world reached, the result at this position reports
    its outcome and carries the position as its index, the callback is told
    again, and the remaining paths are served from the state reached,
    whatever the outcome was. *)
Inductive served (self : Service) (lang : option string)
    (progress_callback : option Callback) (total_chunks : nat)
  : nat -> list string -> State -> list (PyDict Segment) -> State -> Prop :=
| served_nil i st : served self lang progress_callback total_chunks i [] st [] st
| served_cons i chunk_path rest st st1 outcome w2 st3 st' r results m1 m2 :
    notify progress_callback (fraction_of i total_chunks) m1 st = (Ok tt, st1) ->
    transcriber self chunk_path lang (world st1) = (outcome, w2) ->
    reports chunk_path lang outcome r ->
    chunk_index r = Some i ->
    notify progress_callback (fraction_of (i + 1) total_chunks) m2
      {| world := w2; observed := observed st1 |} = (Ok tt, st3) ->
    served self lang progress_callback total_chunks (S i) rest st3 results st' ->
    served self lang progress_callback total_chunks i (chunk_path :: rest) st
      (r :: results) st'.

End Service.
End Transcription.

(** ** More Python building blocks *)

Module PyStr.

Import Stdlib.Strings.Ascii.
Local Open Scope char_scope.

(** [c.lower()] on one character: [A]..[Z] go to [a]..[z].  No character
    outside [A]..[Z] lowers to a character of [".mp3"], the only suffix
    tested here. *)
Definition lower_ascii (c : ascii) : ascii :=
  let n := nat_of_ascii c in
  if ((65 <=? n) && (n <=? 90))%nat then ascii_of_nat (n + 32) else c.

(** [s.lower()] *)
Fixpoint lower (s : string) : string :=
  match s with
  | EmptyString => EmptyString
  | String c rest => String (lower_ascii c) (lower rest)
  end.

(** [c.upper()] on one character: [a]..[z] go to [A]..[Z]. *)
Definition upper_ascii (c : ascii) : ascii :=
  let n := nat_of_ascii c in
  if ((97 <=? n) && (n <=? 122))%nat then ascii_of_nat (n - 32) else c.

(** [s.upper()] *)
Fixpoint upper (s : string) : string :=
  match s with
  | EmptyString => EmptyString
  | String c rest => String (upper_ascii c) (upper rest)
  end.

(** [s.endswith(suffix)] *)
Definition endswith (s suffix : string) : bool :=
  let n := String.length s in
  let k := String.length suffix in
  (k <=? n)%nat && String.eqb (String.substring (n - k) k s) suffix.

(** [s.startswith('/')] *)
Definition startswith_sep (s : string) : bool :=
  match s with
  | String "/" _ => true
  | _ => false
  end.

(** [s.endswith('/')] *)
Fixpoint endswith_sep (s : string) : bool :=
  match s with
  | EmptyString => false
  | String c EmptyString => Ascii.eqb c "/"
  | String _ rest => endswith_sep rest
  end.

(** [os.path.join(a, b)] on POSIX. *)
Definition path_join (a b : string) : string :=
  if startswith_sep b then b
  else if negb (Py.truthy_str a) || endswith_sep a then a +:+ b
  else a +:+ "/" +:+ b.

(** [s.rfind(c)]: the last position of [c], or -1. *)
Fixpoint rfind_from (c : ascii) (s : string) (i found : Z) : Z :=
  match s with
  | EmptyString => found
  | String c' rest =>
      rfind_from c rest (i + 1) (if Ascii.eqb c' c then i else found)
  end.

Definition rfind (c : ascii) (s : string) : Z := rfind_from c s 0 (-1).

(** The [while] loop of [os.path.splitext] over the characters between the
    last separator and the last dot: true when one of them is not a dot. *)
Fixpoint has_non_dot (s : string) : bool :=
  match s with
  | EmptyString => false
  | String c rest => if negb (Ascii.eqb c ".") then true else has_non_dot rest
  end.

(** [os.path.splitext(p)] on POSIX. *)
Definition splitext (p : string) : string * string :=
  let sepIndex := rfind "/" p in
  let dotIndex := rfind "." p in
  if (sepIndex <? dotIndex)%Z then
    if has_non_dot
         (String.substring (Z.to_nat (sepIndex + 1))
                    (Z.to_nat (dotIndex - (sepIndex + 1))) p)
    then (String.substring 0 (Z.to_nat dotIndex) p,
          String.substring (Z.to_nat dotIndex)
                    (String.length p - Z.to_nat dotIndex) p)
    else (p, EmptyString)
  else (p, EmptyString).

End PyStr.

(** ** Ordered Python numbers *)

(** Numbers with [<=], for statements about the order of timestamps: a
    preorder for which [+] is commutative, keeps the order, and has the
    literal [0] as a neutral element. *)
Class PyOrdered (num : Type) `{PyNumber num} := {
  num_le : num -> num -> Prop;
  num_le_refl : forall x, num_le x x;
  num_le_trans : forall x y z, num_le x y -> num_le y z -> num_le x z;
  num_add_comm : forall x y, num_add x y = num_add y x;
  num_add_zero : forall x, num_add x num_zero = x;
  num_add_le : forall x y z, num_le x y -> num_le (num_add x z) (num_add y z);
}.

#[global, refine] Instance Z_PyOrdered : PyOrdered Z := {|
  num_le := Z.le;
|}.
Proof.
  - intros x. apply Z.le_refl.
  - intros x y z. apply Z.le_trans.
  - intros x y. apply Z.add_comm.
  - intros x. apply Z.add_0_r.
  - intros x y z Hxy. simpl. lia.
Defined.

(** ** Upload processing ([audio_processing.py]) *)

Module Upload.
Section Processor.

Import Transcription.

(** The audio is a list of millisecond frames as in [Audio]; the attributes
    of an [AudioSegment] that [get_audio_info] reads are functions of it
    ([raw_size] is [len(audio.raw_data)]). *)
Context {Frame : Type}.
Variable channels sample_width frame_rate raw_size : list Frame -> Z.

(** The outside world of the processor: [mkdtemp] is [tempfile.mkdtemp()],
    [write_bytes] opens a path for writing and writes the bytes, [from_mp3]
    is [AudioSegment.from_mp3(path)], and [export] is
    [chunk.export(path, format=..., bitrate=...)].  All of them may raise
    and may change the world. *)
Context {World : Type}.
Variable mkdtemp : World -> Result string * World.
Variable write_bytes : string -> list Byte.byte -> World -> Result unit * World.
Variable from_mp3 : string -> World -> Result (list Frame) * World.
Variable export :
  list Frame -> string -> string -> string -> World -> Result unit * World.

Notation "x <- m ;; k" := (bind m (fun x => k))
  (at level 100, m at next level, right associativity).
Notation "m ;;; k" := (bind m (fun _ => k))
  (at level 100, right associativity).

(** [raise Exception(msg)] *)
Definition raise {A} (msg : string) : @M World A := fun st => (Raise msg, st).

(** An uploaded file object: its name, its content and the position of its
    read cursor. *)
Record UploadedFile := mkUploadedFile {
  name : string;
  getvalue : list Byte.byte;
  position : Z;
}.

(** [file.seek(0, os.SEEK_END)] *)
Definition seek_end (file : UploadedFile) : UploadedFile :=
  {| name := name file; getvalue := getvalue file;
     position := Z.of_nat (length (getvalue file)) |}.

(** [file.seek(0)] *)
Definition seek_start (file : UploadedFile) : UploadedFile :=
  {| name := name file; getvalue := getvalue file; position := 0 |}.

(** [AudioProcessor.validate_audio_file]: the verdict, the message, and the
    file object as the method leaves it. *)
Definition validate_audio_file (file : option UploadedFile)
  : (bool * string) * option UploadedFile :=
  match file with
  | None => ((false, "No file uploaded"), None)
  | Some file =>
      if negb (PyStr.endswith (PyStr.lower (name file)) ".mp3") then
        ((false, "Only MP3 files are accepted"), Some file)
      else
        let file := seek_end file in
        let file_size := position file in
        let file := seek_start file in
        if file_size =? 0 then ((false, "File is empty"), Some file)
        else ((true, "File is valid"), Some file)
  end.

(** The attribute of an [AudioProcessor]. *)
Record Processor := mkProcessor {
  temp_dir : string;
}.

(** [AudioProcessor.load_audio] *)
Definition load_audio (self : Processor) (file : UploadedFile)
  : @M World (list Frame) :=
  let temp_path := PyStr.path_join (temp_dir self) (name file) in
  lift (write_bytes temp_path (getvalue file)) ;;;
  audio <- lift (from_mp3 temp_path) ;;
  ret audio.

(** The dictionary returned by [get_audio_info]. *)
Record AudioInfo := mkAudioInfo {
  duration_seconds : Q;
  duration_minutes : Q;
  info_channels : Z;
  info_sample_width : Z;
  info_frame_rate : Z;
  size_bytes : Z;
}.

(** [AudioProcessor.get_audio_info] *)
Definition get_audio_info (audio : list Frame) : AudioInfo :=
  {| duration_seconds := (inject_Z (Audio.len audio) / 1000)%Q;
     duration_minutes := (inject_Z (Audio.len audio) / 1000 / 60)%Q;
     info_channels := channels audio;
     info_sample_width := sample_width audio;
     info_frame_rate := frame_rate audio;
     size_bytes := raw_size audio |}.

(** The file name of chunk number [i] (from 0) of [base_name]. *)
Definition chunk_filename (base_name : string) (i : nat) : string :=
  base_name +:+ "_chunk_" +:+ Py.str_of_nat (i + 1) +:+ ".mp3".

(** The loop of [save_chunks], from position [i] on. *)
Fixpoint save_chunks_loop (self : Processor) (base_name : string) (i : nat)
    (chunks : list (list Frame)) (chunk_paths : list string)
  : @M World (list string) :=
  match chunks with
  | [] => ret chunk_paths
  | chunk :: rest =>
      let chunk_path :=
        PyStr.path_join (temp_dir self) (chunk_filename base_name i) in
      lift (export chunk chunk_path "mp3" "128k") ;;;
      save_chunks_loop self base_name (S i) rest (chunk_paths ++ [chunk_path])
  end.

(** [AudioProcessor.save_chunks] *)
Definition save_chunks (self : Processor) (chunks : list (list Frame))
    (base_filename : string) : @M World (list string) :=
  let chunk_paths := [] in
  let base_name := fst (PyStr.splitext base_filename) in
  save_chunks_loop self base_name 0 chunks chunk_paths.

(** [AudioProcessor.process_file] *)
Definition process_file (self : Processor) (file : option UploadedFile)
    (progress_callback : option (@Callback World))
  : @M World (list Frame * list string * AudioInfo) :=
  notify progress_callback (1 # 10) "Validating file..." ;;;
  let '((is_valid, message), file) := validate_audio_file file in
  if negb is_valid then raise message
  else
    notify progress_callback (3 # 10) "Loading audio file..." ;;;
    match file with
    | None => raise "'NoneType' object has no attribute 'name'"
    | Some file =>
        audio <- load_audio self file ;;
        let audio_info := get_audio_info audio in
        notify progress_callback (5 # 10) "Analyzing audio..." ;;;
        chunk_paths <-
          (if Audio.MAX_CHUNK_SIZE <? size_bytes audio_info then
             notify progress_callback (6 # 10) "Chunking large file..." ;;;
             match Audio.chunk_audio_by_size audio Audio.MAX_CHUNK_SIZE with
             | Some chunks => save_chunks self chunks (name file)
             | None => raise "range() arg 3 must not be zero"
             end
           else
             notify progress_callback (6 # 10) "Saving audio..." ;;;
             save_chunks self [audio] (name file)) ;;
        notify progress_callback (1 # 1) "Processing complete!" ;;;
        ret (audio, chunk_paths, audio_info)
    end.

(** An element of [results['processed']]. *)
Record Processed := mkProcessed {
  entry_filename : string;
  entry_audio : list Frame;
  entry_chunk_paths : list string;
  entry_info : AudioInfo;
}.

(** An element of [results['failed']]. *)
Record Failed := mkFailed {
  failed_filename : string;
  failed_error : string;
}.

(** The dictionary returned by [process_batch_files]. *)
Record BatchResults := mkBatchResults {
  processed : list Processed;
  failed : list Failed;
  batch_total_duration : Q;
}.

(** [file.name] on an entry of the list of files: an entry that is [None]
    has no attribute [name]. *)
Definition get_name (file : option UploadedFile) : @M World string :=
  match file with
  | Some file => ret (name file)
  | None => raise "'NoneType' object has no attribute 'name'"
  end.

(** The [try] block of the loop of [process_batch_files] at position [i].
    The arguments of the call of the placeholder are evaluated before the
    call, and only when there is a placeholder. *)
Definition process_batch_try (processor : Processor)
    (progress_placeholder : option (@Callback World)) (total : nat) (i : nat)
    (file : option UploadedFile) (results : BatchResults)
  : @M World BatchResults :=
  match progress_placeholder with
  | Some _ =>
      filename <- get_name file ;;
      notify progress_placeholder (fraction_of (i + 1) total)
        ("Processing " +:+ filename +:+ " (" +:+ Py.str_of_nat (i + 1)
           +:+ "/" +:+ Py.str_of_nat total +:+ ")")
  | None => ret tt
  end ;;;
  r <- process_file processor file None ;;
  let '(audio, chunk_paths, audio_info) := r in
  filename <- get_name file ;;
  ret {| processed :=
           processed results
             ++ [{| entry_filename := filename;
                    entry_audio := audio;
                    entry_chunk_paths := chunk_paths;
                    entry_info := audio_info |}];
         failed := failed results;
         batch_total_duration :=
           (batch_total_duration results + duration_minutes audio_info)%Q |}.

(** The [except] block of the loop: it reads [file.name] as well. *)
Definition process_batch_except (file : option UploadedFile)
    (results : BatchResults) (e : string) : @M World BatchResults :=
  filename <- get_name file ;;
  ret {| processed := processed results;
         failed :=
           failed results
             ++ [{| failed_filename := filename; failed_error := e |}];
         batch_total_duration := batch_total_duration results |}.

(** The loop of [process_batch_files], from position [i] on.  An entry of
    [files] is an uploaded file or [None]. *)
Fixpoint process_batch_loop (processor : Processor)
    (progress_placeholder : option (@Callback World)) (total : nat) (i : nat)
    (files : list (option UploadedFile)) (results : BatchResults)
  : @M World BatchResults :=
  match files with
  | [] => ret results
  | file :: rest =>
      results <-
        try_except
          (process_batch_try processor progress_placeholder total i file results)
          (process_batch_except file results) ;;
      process_batch_loop processor progress_placeholder total (S i) rest results
  end.

(** [process_batch_files]; the first step is the constructor of
    [AudioProcessor]. *)
Definition process_batch_files (files : list (option UploadedFile))
    (progress_placeholder : option (@Callback World)) : @M World BatchResults :=
  temp_dir <- lift mkdtemp ;;
  let processor := {| temp_dir := temp_dir |} in
  let results := {| processed := []; failed := []; batch_total_duration := 0 |} in
  process_batch_loop processor progress_placeholder (length files) 0 files
    results.

End Processor.
End Upload.

(** ** Timestamps in order *)

Module Timing.
Section Ordered.

Import Transcription.
Context {num : Type} `{PyOrdered num}.

(** The segments start in nondecreasing order. *)
Definition starts_sorted (segs : list (@Segment num)) : Prop :=
  StronglySorted (fun a b => num_le (seg_start a) (seg_start b)) segs.

(** A chunk whose segments, if it has any, start in nondecreasing order
    between 0 and the duration that the chunk reports. *)
Definition well_timed (chunk : @PyDict num (@Segment num)) : Prop :=
  get_segments chunk = []
  \/ exists d,
       get_duration chunk = Some d
       /\ starts_sorted (get_segments chunk)
       /\ Forall (fun s => num_le num_zero (seg_start s) /\ num_le (seg_start s) d)
                 (get_segments chunk).

End Ordered.
End Timing.

(** ** A backend that records its calls *)

Module CallLog.
Section Logged.

Import Transcription.
Context {num : Type} {World : Type}.
Variable open_rb : string -> World -> Result unit * World.
Variable create : Params -> World -> Result (@Response num) * World.

(** The world paired with the list of the keyword arguments of every call
    of the backend so far. *)
Definition logged_open (path : string) (w : World * list Params)
  : Result unit * (World * list Params) :=
  let '(r, w') := open_rb path (fst w) in (r, (w', snd w)).

Definition logged_create (p : Params) (w : World * list Params)
  : Result (@Response num) * (World * list Params) :=
  let '(r, w') := create p (fst w) in (r, (w', snd w ++ [p])).

(** A callback of the plain world, run in the world with the record. *)
Definition logged_callback (f : @Callback World)
  : @Callback (World * list Params) :=
  fun fraction message w =>
    let '(r, w') := f fraction message (fst w) in (r, (w', snd w)).

(** The calls recorded in a state. *)
Definition calls (st : @State (World * list Params)) : list Params :=
  snd (world st).

End Logged.
End CallLog.

(** ** A file system in memory *)

Module MemFS.
Section Mem.

Import Transcription.
Context {Frame : Type}.

(** What a path holds: the bytes of an upload, or the audio written by an
    export with its format and bitrate. *)
Inductive Stored :=
| Uploaded (data : list Byte.byte)
| Encoded (audio : list Frame) (format bitrate : string).

(** The decoder of uploads. *)
Variable decode : list Byte.byte -> Result (list Frame).

Definition mem_mkdtemp (dir : string) (fs : gmap string Stored)
  : Result string * gmap string Stored :=
  (Ok dir, fs).

Definition mem_write (path : string) (data : list Byte.byte)
    (fs : gmap string Stored) : Result unit * gmap string Stored :=
  (Ok tt, <[path := Uploaded data]> fs).

Definition mem_from_mp3 (path : string) (fs : gmap string Stored)
  : Result (list Frame) * gmap string Stored :=
  match fs !! path with
  | Some (Uploaded data) => (decode data, fs)
  | Some (Encoded audio _ _) => (Ok audio, fs)
  | None => (Raise ("No such file or directory: " +:+ path), fs)
  end.

Definition mem_export (audio : list Frame) (path format bitrate : string)
    (fs : gmap string Stored) : Result unit * gmap string Stored :=
  (Ok tt, <[path := Encoded audio format bitrate]> fs).

(** The audio of the export stored at a path. *)
Definition stored_audio (fs : gmap string Stored) (path : string)
  : option (list Frame) :=
  match fs !! path with
  | Some (Encoded audio _ _) => Some audio
  | _ => None
  end.

End Mem.
End MemFS.

(** ** Concrete inputs *)

Module Examples.
Import Transcription.

(** A successful chunk result as the runner stamps it. *)
Definition chunk_success (i : nat) (txt : string) (dur : option Z)
    (segs : list (@Segment Z)) : PyDict (@Segment Z) :=
  {| success := Some true; text := Some txt; language := Some (Some "en");
     duration := Some dur; segments := Some segs;
     file_path := Some ("chunk_" +:+ Py.str_of_nat (i + 1) +:+ ".mp3");
     chunk_index := Some i; error := None; total_chunks := None;
     successful_chunks := None; failed_chunks := None;
     total_duration := None; chunk_errors := None |}.

(** A failed chunk result as the runner stamps it. *)
Definition chunk_failure {S} (i : nat) (msg : string) : @PyDict Z S :=
  {| success := Some false; error := Some ("Error: " +:+ msg);
     file_path := Some ("chunk_" +:+ Py.str_of_nat (i + 1) +:+ ".mp3");
     chunk_index := Some i; text := None; language := None;
     duration := None; segments := None; total_chunks := None;
     successful_chunks := None; failed_chunks := None;
     total_duration := None; chunk_errors := None |}.

Definition seg (a b : Z) (txt : string) : @Segment Z :=
  {| seg_start := a; seg_end := b; seg_text := txt |}.


(** The second of three chunks failed. *)
Definition middle_failed : list (PyDict (@Segment Z)) :=
  [ chunk_success 0 "one" (Some 300) [seg 0 10 "one"];
    chunk_failure 1 "timeout";
    chunk_success 2 "three" (Some 120) [seg 0 10 "three"] ].


(** Two successes listed against their indices. *)
Definition swapped : list (PyDict (@Segment Z)) :=
  [ chunk_success 1 "b" (Some 7) [seg 0 3 "b"];
    chunk_success 0 "a" (Some 5) [seg 0 2 "a"] ].

Definition all_failed : list (PyDict (@Segment Z)) :=
  [ chunk_failure 0 "timeout"; chunk_failure 1 "bad audio" ].

(** A world that plays a script: each call of the backend consumes the
    next outcome; files always open; the callback always returns. *)
Definition Script := list (Result (@Response Z)).

Definition open_ok (path : string) (w : Script) : Result unit * Script :=
  (Ok tt, w).

Definition scripted_create (p : Params) (w : Script)
  : Result (@Response Z) * Script :=
  match w with
  | outcome :: rest => (outcome, rest)
  | [] => (Raise "no response", [])
  end.

Definition quiet : @Callback Script := fun _ _ w => (Ok tt, w).

(** A callback that raises on every call. *)
Definition raising : @Callback Script :=
  fun _ _ w => (Raise "observer failed", w).

Definition service : Service :=
  {| model := "whisper-1"; prompt_context := None |}.

Definition verbose_response (txt : string) (dur : Z) (segs : list (@Segment Z))
  : @Response Z :=
  {| resp_text := Some txt; resp_str := txt; resp_language := Some (Some "en");
     resp_duration := Some dur; resp_segments := Some segs |}.

Definition start (w : Script) : State := {| world := w; observed := [] |}.

(** A store holding the segments of two chunks, and chunk results that
    point into it. *)
Definition two_chunk_store : @Store Z :=
  [ seg 0 4 "a"; seg 4 9 "b"; seg 0 3 "c" ].

Definition two_chunk_refs : list (@PyDict Z nat) :=
  [ {| success := Some true; text := Some "a b"; language := Some (Some "en");
       duration := Some (Some 10); segments := Some [0; 1]%nat;
       file_path := None; chunk_index := Some 0%nat; error := None;
       total_chunks := None; successful_chunks := None; failed_chunks := None;
       total_duration := None; chunk_errors := None |};
    {| success := Some true; text := Some "c"; language := Some (Some "en");
       duration := Some (Some 5); segments := Some [2]%nat;
       file_path := None; chunk_index := Some 1%nat; error := None;
       total_chunks := None; successful_chunks := None; failed_chunks := None;
       total_duration := None; chunk_errors := None |} ].

End Examples.

(** ** Concrete uploads *)

Module UploadExamples.
Import Transcription Upload MemFS.

(** One frame per byte; an empty upload does not decode. *)
Definition decode_bytes (data : list Byte.byte) : Result (list nat) :=
  match data with
  | [] => Raise "Decoding failed"
  | _ => Ok (map Byte.to_nat data)
  end.

(** Stereo, 16 bit, one frame per millisecond. *)
Definition two (audio : list nat) : Z := 2.
Definition rate (audio : list nat) : Z := 1000.
Definition four_bytes_per_frame (audio : list nat) : Z := 4 * Audio.len audio.

Definition song : UploadedFile :=
  {| name := "Song.MP3"; getvalue := [Byte.x01; Byte.x02; Byte.x03];
     position := 2 |}.

Definition notes : UploadedFile :=
  {| name := "notes.txt"; getvalue := [Byte.x01]; position := 0 |}.

Definition blank : UploadedFile :=
  {| name := "blank.mp3"; getvalue := []; position := 0 |}.

Definition processor : Processor := {| temp_dir := "/tmp/tmpab12" |}.

(** A callback of the in-memory world that returns. *)
Definition silent : @Callback (gmap string (@Stored nat)) :=
  fun _ _ w => (Ok tt, w).

Definition no_files : State := {| world := (∅ : gmap string (@Stored nat)); observed := [] |}.

End UploadExamples.

(** * Properties *)

(** ** Loops that append *)

Lemma fold_left_snoc {A B} (f : A -> B) (l : list A) (init : list B) :
  fold_left (fun acc x => acc ++ [f x]) l init = init ++ map f l.
Proof.
  revert init. induction l as [|x l IH]; intros init; simpl.
  - by rewrite app_nil_r.
  - rewrite IH. by rewrite <- app_assoc.
Qed.

(** ** Partitioning *)

Example range_0_5_2 : Py.range 0 5 2 = Some [0; 2; 4].
Proof. reflexivity. Qed.

Example range_zero_step : Py.range 0 5 0 = None.
Proof. reflexivity. Qed.

Section AudioProperties.

Import Audio.
Context {Frame : Type}.
Implicit Types (audio : @AudioSegment Frame) (B D : Z).

Lemma range_up_done fuel cur stop step :
  stop <= cur -> Py.range_up fuel cur stop step = [].
Proof.
  intros Hle. destruct fuel as [|fuel]; simpl; [done|].
  destruct (Z.ltb_spec cur stop); [lia | done].
Qed.

Lemma range_up_chain B D fuel : 0 < B ->
  forall cur, cur <= D -> D - cur <= Z.of_nat fuel ->
    span_chain cur (map (span_at B D) (Py.range_up fuel cur D B)) D.
Proof.
  intros HB. induction fuel as [|fuel IH]; intros cur Hcur Hfuel.
  - assert (cur = D) as -> by lia. simpl. constructor.
  - simpl. destruct (Z.ltb_spec cur D) as [Hlt|Hge].
    + simpl. unfold span_at at 1. constructor; [lia|].
      destruct (Z_lt_le_dec (cur + B) D) as [Hin|Hout].
      * rewrite Z.min_l by lia. apply IH; lia.
      * rewrite Z.min_r by lia. rewrite range_up_done by lia. constructor.
    + assert (cur = D) as -> by lia. constructor.
Qed.

Lemma ceil_div_small B x : 0 < x <= B -> ceil_div x B = 1.
Proof.
  intros Hx. unfold ceil_div. symmetry.
  apply Z.div_unique with (r := x - 1); lia.
Qed.

Lemma ceil_div_step B x : 0 < B -> ceil_div (x + B) B = ceil_div x B + 1.
Proof.
  intros HB. unfold ceil_div.
  replace (x + B + B - 1) with ((x + B - 1) + 1 * B) by lia.
  rewrite Z.div_add by lia. lia.
Qed.

Lemma ceil_div_zero B : 0 < B -> ceil_div 0 B = 0.
Proof. intros HB. unfold ceil_div. apply Z.div_small. lia. Qed.

(** [ceil_div] is the ceiling of the quotient. *)
Lemma ceil_div_ceiling D B : 0 < B ->
  B * (ceil_div D B - 1) < D <= B * ceil_div D B.
Proof.
  intros HB. unfold ceil_div.
  pose proof (Z.div_mod (D + B - 1) B ltac:(lia)) as Hdm.
  pose proof (Z.mod_pos_bound (D + B - 1) B HB) as Hmod.
  lia.
Qed.

Lemma range_up_length B D fuel : 0 < B ->
  forall cur, cur <= D -> D - cur <= Z.of_nat fuel ->
    Z.of_nat (length (Py.range_up fuel cur D B)) = ceil_div (D - cur) B.
Proof.
  intros HB. induction fuel as [|fuel IH]; intros cur Hcur Hfuel.
  - assert (cur = D) as -> by lia. simpl.
    rewrite Z.sub_diag. by rewrite ceil_div_zero.
  - simpl. destruct (Z.ltb_spec cur D) as [Hlt|Hge].
    + cbn [length]. rewrite Nat2Z.inj_succ.
      destruct (Z_lt_le_dec (cur + B) D) as [Hin|Hout].
      * rewrite IH by lia.
        replace (D - cur) with ((D - (cur + B)) + B) by lia.
        rewrite ceil_div_step by lia. lia.
      * rewrite range_up_done by lia. simpl.
        rewrite ceil_div_small by lia. lia.
    + assert (cur = D) as -> by lia. simpl.
      rewrite Z.sub_diag. by rewrite ceil_div_zero.
Qed.

Lemma range_up_width B D fuel cur : 0 < B ->
  Forall (fun '(s, e) => e - s <= B) (map (span_at B D) (Py.range_up fuel cur D B)).
Proof.
  intros HB. revert cur. induction fuel as [|fuel IH]; intros cur; simpl.
  - constructor.
  - destruct (cur <? D); [|constructor]. simpl. constructor; [|apply IH].
    unfold span_at. lia.
Qed.

(** The slices along a chain of spans, put end to end, are the part of the
    audio between the two ends of the chain. *)
Lemma chain_concat audio a spans b :
  span_chain a spans b -> 0 <= a ->
  concat (map (fun '(s, e) => slice audio s e) spans)
  = take (Z.to_nat (b - a)) (drop (Z.to_nat a) audio).
Proof.
  induction 1 as [a|a e rest b Hlt Hchain IH]; intros Ha; simpl.
  - by rewrite Z.sub_diag.
  - rewrite IH by lia. unfold slice.
    assert (span_chain_le : e <= b).
    { clear -Hchain. induction Hchain; lia. }
    replace (Z.to_nat e) with (Z.to_nat a + Z.to_nat (e - a))%nat by lia.
    rewrite <- drop_drop, take_take_drop. f_equal. lia.
Qed.

Lemma chunk_audio_spans audio B spans :
  chunk_spans (len audio) B = Some spans ->
  chunk_audio audio B = Some (map (fun '(s, e) => slice audio s e) spans).
Proof.
  unfold chunk_spans, chunk_audio. cbv zeta.
  destruct (Py.range 0 (len audio) B) as [starts|]; simpl; [|done].
  intros [= <-]. f_equal.
  rewrite (fold_left_snoc
             (fun start_ms => slice audio start_ms (Z.min (start_ms + B) (len audio)))).
  simpl. by rewrite map_map.
Qed.

End AudioProperties.

(** C2. For an audio buffer of [D] milliseconds and a bound [B > 0],
    [chunk_audio] returns the slices along a list of spans that are
    contiguous, disjoint and in increasing time order and cover exactly
    [[0, D)] (so that the chunks put end to end are the audio); every span is
    at most [B] long; the number of chunks is the ceiling of [D / B]; a
    zero-length buffer gives no chunk. *)
Theorem chunk_audio_partition {Frame : Type} (audio : @Audio.AudioSegment Frame) (B : Z) :
  0 < B ->
  let D := Audio.len audio in
  exists spans chunks,
    Audio.chunk_spans D B = Some spans
    /\ Audio.chunk_audio audio B = Some chunks
    /\ chunks = map (fun '(s, e) => Audio.slice audio s e) spans
    /\ Audio.span_chain 0 spans D
    /\ Forall (fun '(s, e) => e - s <= B) spans
    /\ concat chunks = audio
    /\ Z.of_nat (length chunks) = Audio.ceil_div D B
    /\ B * (Z.of_nat (length chunks) - 1) < D <= B * Z.of_nat (length chunks)
    /\ (D = 0 -> chunks = []).
Proof.
  intros HB D.
  assert (HD : 0 <= D) by (unfold D, Audio.len; lia).
  set (starts := Py.range_up (Z.to_nat (D - 0)) 0 D B).
  assert (Hspans : Audio.chunk_spans D B = Some (map (Audio.span_at B D) starts)).
  { unfold Audio.chunk_spans, Py.range.
    destruct (Z.eqb_spec B 0); [lia|].
    destruct (Z.ltb_spec 0 B); [|lia]. done. }
  assert (Hchain : Audio.span_chain 0 (map (Audio.span_at B D) starts) D).
  { apply range_up_chain; lia. }
  assert (Hlen : Z.of_nat (length starts) = Audio.ceil_div D B).
  { unfold starts. rewrite range_up_length by lia. f_equal. lia. }
  exists (map (Audio.span_at B D) starts),
         (map (fun '(s, e) => Audio.slice audio s e) (map (Audio.span_at B D) starts)).
  split; [done|].
  split; [by apply chunk_audio_spans|].
  split; [done|].
  split; [done|].
  split; [by apply range_up_width|].
  split.
  { rewrite (chain_concat audio 0 _ D Hchain) by lia.
    simpl. rewrite drop_0. apply take_ge. unfold D, Audio.len. lia. }
  rewrite !length_map.
  split; [done|].
  split; [rewrite Hlen; by apply ceil_div_ceiling|].
  intros HD0. unfold starts. rewrite HD0. done.
Qed.

Lemma chunk_audio_partition_witness :
  exists spans chunks,
    Audio.chunk_spans 5 2 = Some spans
    /\ Audio.chunk_audio [10; 11; 12; 13; 14]%nat 2 = Some chunks
    /\ chunks = [[10; 11]; [12; 13]; [14]]%nat
    /\ spans = [(0, 2); (2, 4); (4, 5)].
Proof.
  destruct (chunk_audio_partition [10; 11; 12; 13; 14]%nat 2 ltac:(lia))
    as (spans & chunks & Hs & Hc & -> & _).
  exists spans, (map (fun '(s, e) => Audio.slice [10; 11; 12; 13; 14]%nat s e) spans).
  vm_compute in Hs. injection Hs as <-.
  repeat split; done.
Defined.

(** C10. [chunk_audio_by_size] ignores [max_size_bytes]: whatever its value,
    the result is that of [chunk_audio] with 600000 ms spans. *)
Theorem chunk_audio_by_size_fixed {Frame : Type}
    (audio : @Audio.AudioSegment Frame) (max_size_bytes : Z) :
  Audio.chunk_audio_by_size audio max_size_bytes = Audio.chunk_audio audio 600000.
Proof. reflexivity. Qed.

(** ** Reassembly *)

Section ReassemblyProperties.

Import Transcription.
Context {num : Type} `{PyNumber num}.
Implicit Types (chunk r : @PyDict num (@Segment num)) (time_offset : num).
Implicit Types (chunk_results chunks : list (@PyDict num (@Segment num))).

Lemma adjust_segment_shift time_offset segment :
  adjust_segment time_offset segment = shift time_offset segment.
Proof. reflexivity. Qed.

Lemma truthy_list_false {A} (l : list A) : Py.truthy_list l = false -> l = [].
Proof. by destruct l. Qed.

(** The guarded update of the offset is an addition of the duration. *)
Lemma guarded_add time_offset chunk :
  match get_duration chunk with
  | Some d => if num_truthy d then num_add time_offset d else time_offset
  | None => time_offset
  end = advance_always time_offset chunk.
Proof.
  unfold advance_always. destruct (get_duration chunk) as [d|]; [|done].
  destruct (num_truthy d) eqn:Hd; [done|]. by rewrite num_add_falsy.
Qed.

Lemma merge_chunk_step all_segments time_offset chunk :
  merge_chunk (all_segments, time_offset) chunk
  = (all_segments ++ map (shift time_offset) (get_segments chunk),
     advance_with_segments time_offset chunk).
Proof.
  unfold merge_chunk, advance_with_segments. cbv zeta.
  destruct (Py.truthy_list (get_segments chunk)) eqn:Hsegs.
  - rewrite (fold_left_snoc (adjust_segment time_offset)), guarded_add. done.
  - apply truthy_list_false in Hsegs. rewrite Hsegs. simpl.
    by rewrite app_nil_r.
Qed.

Lemma merge_chunks_fold chunks all_segments time_offset :
  fold_left merge_chunk chunks (all_segments, time_offset)
  = (all_segments ++ shifted_segments advance_with_segments time_offset chunks,
     fold_left advance_with_segments chunks time_offset).
Proof.
  revert all_segments time_offset.
  induction chunks as [|chunk chunks IH]; intros all_segments time_offset;
    cbn [fold_left shifted_segments].
  - by rewrite app_nil_r.
  - rewrite merge_chunk_step, IH. by rewrite <- app_assoc.
Qed.

Lemma existsb_filter_truthy {A} (p : A -> bool) (l : list A) :
  Py.truthy_list (List.filter p l) = existsb p l.
Proof.
  induction l as [|x l IH]; simpl; [done|]. by destruct (p x).
Qed.

Lemma filter_partition_length {A} (p : A -> bool) (l : list A) :
  (length (List.filter p l) + length (List.filter (fun x => negb (p x)) l)
   = length l)%nat.
Proof.
  induction l as [|x l IH]; simpl; [done|]. destruct (p x); simpl; lia.
Qed.

Lemma filter_none {A} (p : A -> bool) (l : list A) :
  existsb p l = false -> List.filter (fun x => negb (p x)) l = l.
Proof.
  induction l as [|x l IH]; simpl; [done|].
  destruct (p x); simpl; [done|]. intros Hl. by rewrite IH.
Qed.

(** The result of [reassemble_transcription] when a chunk succeeded. *)
Lemma reassemble_some_success chunk_results :
  existsb get_success chunk_results = true ->
  reassemble_transcription chunk_results
  = let successful := List.filter get_success chunk_results in
    let time_offset := fold_left advance_with_segments successful num_zero in
    {| success := Some true;
       text := Some (text_in_list_order chunk_results);
       segments := Some (segments_in_list_order chunk_results);
       total_chunks := Some (length chunk_results);
       successful_chunks := Some (length successful);
       failed_chunks :=
         Some (length (List.filter (fun r => negb (get_success r)) chunk_results));
       language :=
         Some (match successful with
               | first :: _ => get_language first
               | [] => Some "unknown"
               end);
       total_duration :=
         Some (if num_pos time_offset then Some time_offset else None);
       duration := None; file_path := None; chunk_index := None;
       error := None; chunk_errors := None |}.
Proof.
  intros Hex. unfold reassemble_transcription. cbv zeta.
  rewrite existsb_filter_truthy, Hex. simpl negb. cbv iota.
  rewrite merge_chunks_fold. done.
Qed.

(** The result of [reassemble_transcription] when no chunk succeeded. *)
Lemma reassemble_no_success chunk_results :
  existsb get_success chunk_results = false ->
  reassemble_transcription chunk_results
  = {| success := Some false;
       error := Some "All chunks failed to transcribe";
       failed_chunks := Some (length chunk_results);
       chunk_errors := Some (map chunk_error_of chunk_results);
       text := None; language := None; duration := None; segments := None;
       file_path := None; chunk_index := None; total_chunks := None;
       successful_chunks := None; total_duration := None |}.
Proof.
  intros Hex. unfold reassemble_transcription. cbv zeta.
  rewrite existsb_filter_truthy, Hex. simpl negb. cbv iota.
  by rewrite filter_none.
Qed.

Lemma get_success_tagged {S} (r : @PyDict num S) :
  get_success r = success_tagged r.
Proof. unfold get_success, success_tagged. by destruct (success r) as [[]|]. Qed.

Lemma success_tagged_true {S} (r : @PyDict num S) :
  success_tagged r = true <-> success r = Some true.
Proof. unfold success_tagged. destruct (success r) as [[]|]; split; congruence. Qed.

End ReassemblyProperties.




(** The order of the merge is the order of the list: two successes listed
    against their indices are merged as listed. *)
Lemma reassemble_segments_follow_list :
  Transcription.segments (Transcription.reassemble_transcription Examples.swapped)
  = Some [Examples.seg 0 3 "b"; Examples.seg 7 9 "a"]
  /\ Transcription.segments_in_index_order Examples.swapped
     = [Examples.seg 0 2 "a"; Examples.seg 5 8 "b"].
Proof. split; reflexivity. Qed.

(** C4. A result is success-tagged when its ['success'] key holds [True],
    and failure-tagged otherwise.  The result of [reassemble_transcription]
    has [success] true exactly when some input result is success-tagged, and
    [success] false exactly when none is.  The failure count is the number
    of failure-tagged results; when some result is success-tagged the
    success count is the number of success-tagged results and the total is
    the length of the input, also when failures are mixed in; the two
    numbers always add up to the length of the input. *)
Theorem reassemble_success_iff {num : Type} `{PyNumber num}
    (chunk_results : list (@Transcription.PyDict num (@Transcription.Segment num))) :
  let out := Transcription.reassemble_transcription chunk_results in
  let successes := List.filter Transcription.success_tagged chunk_results in
  let failures :=
    List.filter (fun r => negb (Transcription.success_tagged r)) chunk_results in
  (Transcription.success out = Some true
   <-> exists r, In r chunk_results /\ Transcription.success r = Some true)
  /\ (Transcription.success out = Some false
      <-> forall r, In r chunk_results -> Transcription.success r <> Some true)
  /\ Transcription.failed_chunks out = Some (length failures)
  /\ ((exists r, In r chunk_results /\ Transcription.success r = Some true) ->
      Transcription.successful_chunks out = Some (length successes)
      /\ Transcription.total_chunks out = Some (length chunk_results))
  /\ ((forall r, In r chunk_results -> Transcription.success r <> Some true) ->
      Transcription.successful_chunks out = None
      /\ Transcription.total_chunks out = None)
  /\ (length successes + length failures = length chunk_results)%nat.
Proof.
  intros out successes failures. subst out successes failures.
  assert (Hsucc : List.filter Transcription.get_success chunk_results
                  = List.filter Transcription.success_tagged chunk_results).
  { apply filter_ext. intros r. apply get_success_tagged. }
  assert (Hfail : List.filter (fun r => negb (Transcription.get_success r))
                    chunk_results
                  = List.filter (fun r => negb (Transcription.success_tagged r))
                      chunk_results).
  { apply filter_ext. intros r. by rewrite get_success_tagged. }
  pose proof (filter_partition_length Transcription.success_tagged chunk_results)
    as Hpart.
  assert (Hsome : existsb Transcription.get_success chunk_results = true
                  <-> exists r, In r chunk_results
                                /\ Transcription.success r = Some true).
  { rewrite existsb_exists. split; intros (r & Hin & Hr); exists r;
      (split; [done|]); rewrite get_success_tagged in *;
      by apply success_tagged_true. }
  assert (Hnone : existsb Transcription.get_success chunk_results = false
                  <-> forall r, In r chunk_results
                                -> Transcription.success r <> Some true).
  { split.
    - intros Hex r Hin Hr.
      assert (existsb Transcription.get_success chunk_results = true)
        by (apply Hsome; eauto).
      congruence.
    - intros Hall.
      destruct (existsb Transcription.get_success chunk_results) eqn:Hex; [|done].
      destruct (proj1 Hsome eq_refl) as (r & Hin & Hr). by destruct (Hall r Hin). }
  destruct (existsb Transcription.get_success chunk_results) eqn:Hex.
  - rewrite reassemble_some_success by done. cbn.
    rewrite <- Hsucc, <- Hfail in *.
    split; [split; [intros _; by apply Hsome | done]|].
    split; [split; [done | intros Hall; by apply Hnone in Hall]|].
    split; [done|]. split; [done|].
    split; [intros Hall; by apply Hnone in Hall | done].
  - rewrite reassemble_no_success by done. cbn.
    rewrite <- Hsucc, <- Hfail in *.
    rewrite filter_none in Hpart |- * by done.
    split; [split; [done | intros Hr; by apply Hsome in Hr]|].
    split; [split; [intros _; by apply Hnone | done]|].
    split; [done|].
    split; [intros Hr; by apply Hsome in Hr|]. split; [done|]. done.
Qed.

(** Two successes around a failure: the result is a success that counts
    two successful chunks and one failed chunk out of three. *)
Lemma reassemble_success_iff_witness :
  (exists r, In r Examples.middle_failed /\ Transcription.success r = Some true)
  /\ Transcription.success
       (Transcription.reassemble_transcription Examples.middle_failed)
     = Some true
  /\ Transcription.successful_chunks
       (Transcription.reassemble_transcription Examples.middle_failed)
     = Some 2%nat
  /\ Transcription.failed_chunks
       (Transcription.reassemble_transcription Examples.middle_failed)
     = Some 1%nat
  /\ Transcription.total_chunks
       (Transcription.reassemble_transcription Examples.middle_failed)
     = Some 3%nat.
Proof.
  assert (Hsome : exists r, In r Examples.middle_failed
                            /\ Transcription.success r = Some true).
  { eexists. split; [left; reflexivity | reflexivity]. }
  split; [exact Hsome|].
  destruct (reassemble_success_iff Examples.middle_failed)
    as (Hiff & _ & Hfailed & Hcounts & _).
  destruct (Hcounts Hsome) as [Hsucc Htotal].
  split; [by apply Hiff|]. split; [exact Hsucc|]. split; [exact Hfailed|].
  exact Htotal.
Defined.

(** A partial failure is a success with the two counts. *)
Lemma reassemble_partial_failure :
  let out := Transcription.reassemble_transcription Examples.middle_failed in
  Transcription.success out = Some true
  /\ Transcription.successful_chunks out = Some 2%nat
  /\ Transcription.failed_chunks out = Some 1%nat
  /\ Transcription.text out = Some "one three"
  /\ Transcription.segments out
     = Some [Examples.seg 0 10 "one"; Examples.seg 300 310 "three"].
Proof. repeat split; reflexivity. Qed.

(** C5, as the code has it.  When every one of the [N] results is
    failure-tagged, the result has [success] false, no text and no segments
    (nothing is merged), the error message of the total failure, a failure
    count of [N], and [N] chunk errors in the order of the input, each with
    the index and the error message of its chunk. *)
Theorem reassemble_all_failed {num : Type} `{PyNumber num}
    (chunk_results : list (@Transcription.PyDict num (@Transcription.Segment num))) :
  Forall (fun r => Transcription.get_success r = false) chunk_results ->
  let out := Transcription.reassemble_transcription chunk_results in
  Transcription.success out = Some false
  /\ Transcription.text out = None
  /\ Transcription.segments out = None
  /\ Transcription.error out = Some "All chunks failed to transcribe"
  /\ Transcription.failed_chunks out = Some (length chunk_results)
  /\ exists errors,
       Transcription.chunk_errors out = Some errors
       /\ length errors = length chunk_results
       /\ (forall k r, chunk_results !! k = Some r ->
             errors !! k = Some (Transcription.chunk_error_of r))
       /\ (forall k r i msg, chunk_results !! k = Some r ->
             Transcription.chunk_index r = Some i ->
             Transcription.error r = Some msg ->
             errors !! k
             = Some {| Transcription.ce_index := Transcription.IndexInt i;
                       Transcription.ce_error := msg |}).
Proof.
  intros Hall out. subst out.
  assert (Hex : existsb Transcription.get_success chunk_results = false).
  { induction Hall as [|r rs Hr _ IH]; simpl; [done|]. by rewrite Hr, IH. }
  rewrite reassemble_no_success by done. cbn.
  repeat split; try done.
  exists (map Transcription.chunk_error_of chunk_results).
  split; [done|]. split; [by rewrite length_map|]. split.
  - intros k r Hk. by rewrite list_lookup_fmap, Hk.
  - intros k r i msg Hk Hi Hmsg. rewrite list_lookup_fmap, Hk. simpl.
    unfold Transcription.chunk_error_of. by rewrite Hi, Hmsg.
Qed.

Lemma reassemble_all_failed_witness :
  Forall (fun r => Transcription.get_success r = false) Examples.all_failed
  /\ Transcription.chunk_errors (Transcription.reassemble_transcription Examples.all_failed)
     = Some [ {| Transcription.ce_index := Transcription.IndexInt 0;
                 Transcription.ce_error := "Error: timeout" |};
              {| Transcription.ce_index := Transcription.IndexInt 1;
                 Transcription.ce_error := "Error: bad audio" |} ].
Proof.
  assert (Hall : Forall (fun r => Transcription.get_success r = false)
                        Examples.all_failed)
    by (repeat constructor).
  split; [exact Hall|].
  destruct (reassemble_all_failed Examples.all_failed Hall)
    as (_ & _ & _ & _ & _ & errors & Herr & _).
  reflexivity.
Defined.

(** C5, as stated, fails: the result of a total failure has no text at all,
    not an empty text. *)
Lemma reassemble_all_failed_counterexample :
  Forall (fun r => Transcription.get_success r = false) Examples.all_failed
  /\ Transcription.text (Transcription.reassemble_transcription Examples.all_failed)
     = None
  /\ Transcription.text (Transcription.reassemble_transcription Examples.all_failed)
     <> Some "".
Proof.
  split; [repeat constructor|]. split; [reflexivity|]. vm_compute. discriminate.
Qed.

(** C6, as the code has it.  When at least one chunk succeeded, the merged
    text is the texts of the successful chunks that have a non-empty text,
    taken in the order of the input list and joined by a single space. *)
Theorem reassemble_text_list_order {num : Type} `{PyNumber num}
    (chunk_results : list (@Transcription.PyDict num (@Transcription.Segment num))) :
  existsb Transcription.get_success chunk_results = true ->
  Transcription.text (Transcription.reassemble_transcription chunk_results)
  = Some (Py.join " "
            (map Transcription.get_text
               (List.filter Transcription.has_text
                  (List.filter Transcription.get_success chunk_results)))).
Proof.
  intros Hex. by rewrite reassemble_some_success.
Qed.

Lemma reassemble_text_list_order_witness :
  existsb Transcription.get_success Examples.middle_failed = true
  /\ Transcription.text (Transcription.reassemble_transcription Examples.middle_failed)
     = Some "one three".
Proof.
  split; [reflexivity|].
  rewrite (reassemble_text_list_order Examples.middle_failed); reflexivity.
Defined.

(** C6, as stated, fails: two successes listed against their indices are
    joined as listed, not by index. *)
Lemma reassemble_text_counterexample :
  existsb Transcription.get_success Examples.swapped = true
  /\ Transcription.text (Transcription.reassemble_transcription Examples.swapped)
     = Some "b a"
  /\ Transcription.text_in_index_order Examples.swapped = "a b"
  /\ Transcription.text (Transcription.reassemble_transcription Examples.swapped)
     <> Some (Transcription.text_in_index_order Examples.swapped).
Proof.
  split; [reflexivity|]. split; [reflexivity|]. split; [reflexivity|].
  vm_compute. discriminate.
Qed.

(** ** The runner and the facade *)

Section RunnerProperties.

Import Transcription.
Context {num : Type} `{PyNumber num} {World : Type}.
Variable open_rb : string -> World -> Result unit * World.
Variable create : Params -> World -> Result (@Response num) * World.
Implicit Types (st : @State World) (self : Service) (lang : option string).
Implicit Types (progress_callback : option (@Callback World)).

Local Abbreviation transcribe_audio := (transcribe_audio open_rb create).
Local Abbreviation transcribe_audio_try := (transcribe_audio_try open_rb create).
Local Abbreviation transcribe_chunks_loop := (transcribe_chunks_loop open_rb create).
Local Abbreviation transcribe_chunks_sequential :=
  (transcribe_chunks_sequential open_rb create).
Local Abbreviation transcribe_file := (transcribe_file open_rb create).
Local Abbreviation handled := (handled open_rb create).

(** The handler of [transcribe_audio] turns an exception of the body into
    a failure result. *)
Lemma transcribe_audio_raises self path lang prompt st msg st' :
  transcribe_audio_try self path lang prompt st = (Raise msg, st') ->
  transcribe_audio self path lang prompt st = (Ok (failure_result path msg), st').
Proof.
  intros Hbody. unfold Transcription.transcribe_audio, try_except.
  by rewrite Hbody.
Qed.

(** [transcribe_audio] never raises, does not call the callback, and
    returns a success or a failure for the path it was given. *)
Lemma transcribe_audio_total self path lang prompt st :
  exists r st',
    transcribe_audio self path lang prompt st = (Ok r, st')
    /\ observed st' = observed st
    /\ file_path r = Some path
    /\ chunk_index r = None
    /\ (success r = Some true \/ is_failure r)
    /\ total_chunks r = None /\ successful_chunks r = None
    /\ failed_chunks r = None /\ total_duration r = None.
Proof.
  unfold Transcription.transcribe_audio, try_except,
    Transcription.transcribe_audio_try, bind, lift, ret, is_failure.
  destruct (open_rb path (world st)) as [[[]|msg] w]; simpl.
  - match goal with |- context [create ?p w] =>
      destruct (create p w) as [[response|msg] w'] end; simpl.
    + eexists _, _. repeat split; eauto.
    + eexists _, _. repeat split; eauto.
  - eexists _, _. repeat split; eauto.
Qed.

Lemma notify_returns progress_callback fraction message st :
  callback_returns progress_callback ->
  exists st',
    notify progress_callback fraction message st = (Ok tt, st')
    /\ fractions st'
       = fractions st
         ++ match progress_callback with Some _ => [fraction] | None => [] end.
Proof.
  destruct progress_callback as [f|]; simpl; intros Hret.
  - unfold lift. simpl. destruct (Hret fraction message (world st)) as [w' ->].
    eexists. split; [done|]. unfold fractions. simpl. by rewrite map_app.
  - eexists. split; [done|]. unfold fractions. by rewrite app_nil_r.
Qed.

Lemma handled_indices self lang progress_callback total i paths st results st' :
  handled self lang progress_callback total i paths st results st' ->
  map chunk_index results = map Some (seq i (length paths))
  /\ map file_path results = map Some paths
  /\ Forall (fun r => success r = Some true \/ is_failure r) results.
Proof.
  induction 1 as [|i path rest st st1 st2 st3 st' r rs m1 m2 _ Haudio _ _ IH];
    simpl; [done|].
  destruct IH as (IHi & IHp & IHs).
  destruct (transcribe_audio_total self path lang None st1)
    as (r' & st2' & Hrun & _ & Hpath & _ & Htag & _).
  rewrite Haudio in Hrun. injection Hrun as <- <-.
  rewrite IHi, IHp, Hpath. repeat split; try done.
  constructor; [|done]. destruct Htag as [?|[? ?]]; [by left|by right].
Qed.

(** The loop of the runner, from any position: it returns, it extends the
    results by one result per remaining path, and it calls the callback
    twice per chunk. *)
Lemma transcribe_chunks_loop_spec self lang progress_callback total :
  callback_returns progress_callback ->
  forall paths i results st,
  exists new st',
    transcribe_chunks_loop self lang progress_callback total i paths results st
    = (Ok (results ++ new), st')
    /\ handled self lang progress_callback total i paths st new st'
    /\ fractions st'
       = fractions st
         ++ match progress_callback with
            | Some _ => loop_fractions total i (length paths)
            | None => []
            end.
Proof.
  intros Hcb. induction paths as [|path rest IH]; intros i results st.
  - exists [], st. simpl. unfold ret. rewrite !app_nil_r.
    split; [done|]. split; [constructor|].
    destruct progress_callback; simpl; by rewrite app_nil_r.
  - cbn [Transcription.transcribe_chunks_loop]. unfold bind at 1.
    edestruct (notify_returns progress_callback) as (st1 & Hn1 & Hf1); [done|].
    rewrite Hn1. unfold bind at 1.
    destruct (transcribe_audio_total self path lang None st1)
      as (r & st2 & Hrun & Hobs & _).
    rewrite Hrun. cbv zeta. unfold bind at 1.
    edestruct (notify_returns progress_callback) as (st3 & Hn3 & Hf3); [done|].
    rewrite Hn3.
    destruct (IH (S i) (results ++ [set_chunk_index r i]) st3)
      as (new & st' & Hloop & Hhandled & Hf).
    exists (set_chunk_index r i :: new), st'.
    rewrite Hloop, <- app_assoc. split; [done|].
    split; [econstructor; eauto|].
    rewrite Hf, Hf3. unfold fractions at 1. rewrite Hobs.
    fold (fractions st1). rewrite Hf1.
    destruct progress_callback; simpl; rewrite <- ?app_assoc; simpl;
      by rewrite ?app_nil_r.
Qed.

(** [transcribe_audio] reports the outcome of the transcriber: it returns
    in the world the transcriber left, with the callback untouched. *)
Lemma transcribe_audio_reports self path lang st outcome w2 :
  transcriber open_rb create self path lang (world st) = (outcome, w2) ->
  exists r,
    transcribe_audio self path lang None st
    = (Ok r, {| world := w2; observed := observed st |})
    /\ reports path lang outcome r
    /\ chunk_index r = None.
Proof.
  unfold transcriber, Transcription.transcribe_audio, try_except,
    Transcription.transcribe_audio_try, bind, lift, ret, reports.
  destruct (open_rb path (world st)) as [[[]|msg] w]; simpl.
  - intros Hcreate. rewrite Hcreate. simpl.
    destruct outcome as [response|msg]; simpl.
    + eexists. split; [done|]. repeat split. simpl.
      destruct (resp_language response); [done|].
      by destruct lang as [[|c l]|].
    + eexists. split; [done|]. repeat split.
  - intros [= <- <-]. eexists. split; [done|]. repeat split.
Qed.

Lemma reports_set_chunk_index path lang outcome (r : @PyDict num (@Segment num)) i :
  reports path lang outcome r -> reports path lang outcome (set_chunk_index r i).
Proof. unfold reports. by destruct outcome. Qed.

(** The loop of the runner serves every remaining path. *)
Lemma transcribe_chunks_loop_served self lang progress_callback total :
  callback_returns progress_callback ->
  forall paths i results st,
  exists new st',
    transcribe_chunks_loop self lang progress_callback total i paths results st
    = (Ok (results ++ new), st')
    /\ served open_rb create self lang progress_callback total i paths st new st'.
Proof.
  intros Hcb. induction paths as [|path rest IH]; intros i results st.
  - exists [], st. simpl. unfold ret. rewrite !app_nil_r.
    split; [done|constructor].
  - cbn [Transcription.transcribe_chunks_loop]. unfold bind at 1.
    edestruct (notify_returns progress_callback) as (st1 & Hn1 & _); [done|].
    rewrite Hn1. unfold bind at 1.
    destruct (transcriber open_rb create self path lang (world st1))
      as [outcome w2] eqn:Hout.
    destruct (transcribe_audio_reports self path lang st1 outcome w2 Hout)
      as (r & Hrun & Hrep & _).
    rewrite Hrun. cbv zeta. unfold bind at 1.
    edestruct (notify_returns progress_callback) as (st3 & Hn3 & _); [done|].
    rewrite Hn3.
    destruct (IH (S i) (results ++ [set_chunk_index r i]) st3)
      as (new & st' & Hloop & Hserved).
    exists (set_chunk_index r i :: new), st'.
    rewrite Hloop, <- app_assoc. split; [done|].
    econstructor; eauto using reports_set_chunk_index.
Qed.

(** What being served says about the list of results. *)
Lemma served_indices self lang progress_callback total i paths st results st' :
  served open_rb create self lang progress_callback total i paths st results st' ->
  length results = length paths
  /\ map chunk_index results = map Some (seq i (length paths))
  /\ map file_path results = map Some paths
  /\ Forall (fun r => success r = Some true \/ is_failure r) results.
Proof.
  induction 1 as [|i path rest st st1 outcome w2 st3 st' r rs m1 m2
                    _ _ Hrep Hidx _ _ IH]; simpl; [done|].
  destruct IH as (IHl & IHi & IHp & IHs).
  destruct Hrep as (Hpath & _ & _ & _ & _ & _ & Hout).
  rewrite IHl, IHi, IHp, Hpath, Hidx. repeat split; try done.
  constructor; [|done].
  destruct outcome as [response|msg].
  - left. by destruct Hout.
  - right. destruct Hout as (Hs & He & _). split; [done|]. by exists msg.
Qed.

End RunnerProperties.

Section FacadeProperties.

Import Transcription.
Context {num : Type} `{PyNumber num} {World : Type}.
Variable open_rb : string -> World -> Result unit * World.
Variable create : Params -> World -> Result (@Response num) * World.
Implicit Types (st : @State World) (self : Service) (lang : option string).
Implicit Types (progress_callback : option (@Callback World)).

(** When the file opens and the backend answers, [transcribe_audio] returns
    the success dictionary built from the response; the segments are those
    of the response. *)
Lemma transcribe_audio_success self path lang prompt st w response w' :
  open_rb path (world st) = (Ok tt, w) ->
  create (request_params self path lang prompt) w = (Ok response, w') ->
  exists r,
    transcribe_audio open_rb create self path lang prompt st
    = (Ok r, {| world := w'; observed := observed st |})
    /\ success r = Some true
    /\ text r = Some (default (resp_str response) (resp_text response))
    /\ duration r = Some (resp_duration response)
    /\ segments r = Some (default [] (resp_segments response)).
Proof.
  intros Hopen Hcreate.
  unfold transcribe_audio, try_except, transcribe_audio_try, bind, lift, ret.
  rewrite Hopen. simpl. rewrite Hcreate. simpl.
  eexists. repeat split.
Qed.

(** The single-chunk path: the first notification, the transcription of the
    only chunk, the second notification; the result of the transcription is
    returned as it is. *)
Lemma transcribe_file_single self path lang progress_callback st :
  callback_returns progress_callback ->
  exists st1 r st2 st3,
    notify progress_callback (1 # 2) "Transcribing audio..." st = (Ok tt, st1)
    /\ transcribe_audio open_rb create self path lang None st1 = (Ok r, st2)
    /\ notify progress_callback (1 # 1) "Transcription complete!" st2 = (Ok tt, st3)
    /\ transcribe_file open_rb create self [path] lang progress_callback st
       = (Ok r, st3)
    /\ fractions st3
       = fractions st
         ++ match progress_callback with Some _ => [1 # 2; 1 # 1] | None => [] end.
Proof.
  intros Hcb. unfold transcribe_file.
  edestruct (notify_returns progress_callback) as (st1 & Hn1 & Hf1); [done|].
  destruct (transcribe_audio_total open_rb create self path lang None st1)
    as (r & st2 & Hrun & Hobs & _).
  edestruct (notify_returns progress_callback) as (st3 & Hn3 & Hf3); [done|].
  exists st1, r, st2, st3.
  split; [exact Hn1|]. split; [exact Hrun|]. split; [exact Hn3|].
  split.
  - unfold bind at 1. rewrite Hn1. unfold bind at 1. rewrite Hrun.
    unfold bind at 1. by rewrite Hn3.
  - rewrite Hf3. unfold fractions at 1. rewrite Hobs. fold (fractions st1).
    rewrite Hf1. destruct progress_callback; simpl; by rewrite <- ?app_assoc.
Qed.

(** The multi-chunk path: the runner, then the reassembly of its results,
    framed by three notifications. *)
Lemma transcribe_file_multi self p1 p2 rest lang progress_callback st :
  callback_returns progress_callback ->
  let chunk_paths := p1 :: p2 :: rest in
  exists st1 results st2 st',
    notify progress_callback (1 # 10) "Starting transcription..." st = (Ok tt, st1)
    /\ transcribe_chunks_sequential open_rb create self chunk_paths lang
         progress_callback st1 = (Ok results, st2)
    /\ handled open_rb create self lang progress_callback (length chunk_paths)
         0 chunk_paths st1 results st2
    /\ transcribe_file open_rb create self chunk_paths lang progress_callback st
       = (Ok (reassemble_transcription results), st')
    /\ fractions st'
       = fractions st
         ++ match progress_callback with
            | Some _ =>
                [1 # 10]
                  ++ loop_fractions (length chunk_paths) 0 (length chunk_paths)
                  ++ [9 # 10; 1 # 1]
            | None => []
            end.
Proof.
  intros Hcb chunk_paths. unfold transcribe_file. fold chunk_paths.
  edestruct (notify_returns progress_callback) as (st1 & Hn1 & Hf1); [done|].
  destruct (transcribe_chunks_loop_spec open_rb create self lang
              progress_callback (length chunk_paths) Hcb chunk_paths 0%nat [] st1)
    as (results & st2 & Hloop & Hhandled & Hf2).
  edestruct (notify_returns progress_callback (9 # 10)) as (st3 & Hn3 & Hf3);
    [done|].
  edestruct (notify_returns progress_callback (1 # 1)) as (st4 & Hn4 & Hf4);
    [done|].
  exists st1, results, st2, st4.
  split; [exact Hn1|]. split; [exact Hloop|]. split; [exact Hhandled|].
  split.
  - subst chunk_paths. cbv iota beta.
    unfold bind at 1. rewrite Hn1. unfold bind at 1.
    unfold transcribe_chunks_sequential in Hloop |- *. cbv zeta in Hloop |- *.
    rewrite Hloop. simpl app. unfold bind at 1. rewrite Hn3.
    cbv zeta. unfold bind at 1. by rewrite Hn4.
  - rewrite Hf4, Hf3, Hf2, Hf1.
    destruct progress_callback; simpl; rewrite <- ?app_assoc; simpl;
      by rewrite ?app_nil_r.
Qed.

(** The single-chunk path in terms of the transcriber. *)
Lemma transcribe_file_single_reports self path lang progress_callback st :
  callback_returns progress_callback ->
  exists st1 outcome w2 r st3,
    notify progress_callback (1 # 2) "Transcribing audio..." st = (Ok tt, st1)
    /\ transcriber open_rb create self path lang (world st1) = (outcome, w2)
    /\ transcribe_audio open_rb create self path lang None st1
       = (Ok r, {| world := w2; observed := observed st1 |})
    /\ reports path lang outcome r
    /\ chunk_index r = None
    /\ notify progress_callback (1 # 1) "Transcription complete!"
         {| world := w2; observed := observed st1 |} = (Ok tt, st3)
    /\ transcribe_file open_rb create self [path] lang progress_callback st
       = (Ok r, st3).
Proof.
  intros Hcb. unfold transcribe_file.
  edestruct (notify_returns progress_callback) as (st1 & Hn1 & _); [done|].
  destruct (transcriber open_rb create self path lang (world st1))
    as [outcome w2] eqn:Hout.
  destruct (transcribe_audio_reports open_rb create self path lang st1 outcome w2
              Hout) as (r & Hrun & Hrep & Hidx).
  edestruct (notify_returns progress_callback) as (st3 & Hn3 & _); [done|].
  exists st1, outcome, w2, r, st3.
  split; [exact Hn1|]. split; [done|]. split; [exact Hrun|].
  split; [exact Hrep|]. split; [exact Hidx|]. split; [exact Hn3|].
  unfold bind at 1. rewrite Hn1. unfold bind at 1. rewrite Hrun.
  unfold bind at 1. by rewrite Hn3.
Qed.

(** The multi-chunk path in terms of the transcriber. *)
Lemma transcribe_file_multi_served self p1 p2 rest lang progress_callback st :
  callback_returns progress_callback ->
  let chunk_paths := p1 :: p2 :: rest in
  exists st1 results st2 st3 st',
    notify progress_callback (1 # 10) "Starting transcription..." st = (Ok tt, st1)
    /\ transcribe_chunks_sequential open_rb create self chunk_paths lang
         progress_callback st1 = (Ok results, st2)
    /\ served open_rb create self lang progress_callback (length chunk_paths)
         0 chunk_paths st1 results st2
    /\ notify progress_callback (9 # 10) "Reassembling transcription..." st2
       = (Ok tt, st3)
    /\ notify progress_callback (1 # 1) "Transcription complete!" st3
       = (Ok tt, st')
    /\ transcribe_file open_rb create self chunk_paths lang progress_callback st
       = (Ok (reassemble_transcription results), st').
Proof.
  intros Hcb chunk_paths. unfold transcribe_file. fold chunk_paths.
  edestruct (notify_returns progress_callback) as (st1 & Hn1 & _); [done|].
  destruct (transcribe_chunks_loop_served open_rb create self lang
              progress_callback (length chunk_paths) Hcb chunk_paths 0%nat [] st1)
    as (results & st2 & Hloop & Hserved).
  edestruct (notify_returns progress_callback (9 # 10)) as (st3 & Hn3 & _);
    [done|].
  edestruct (notify_returns progress_callback (1 # 1)) as (st4 & Hn4 & _);
    [done|].
  exists st1, results, st2, st3, st4.
  split; [exact Hn1|]. split; [exact Hloop|]. split; [exact Hserved|].
  split; [exact Hn3|]. split; [exact Hn4|].
  subst chunk_paths. cbv iota beta.
  unfold bind at 1. rewrite Hn1. unfold bind at 1.
  unfold transcribe_chunks_sequential in Hloop |- *. cbv zeta in Hloop |- *.
  rewrite Hloop. simpl app. unfold bind at 1. rewrite Hn3.
  cbv zeta. unfold bind at 1. by rewrite Hn4.
Qed.

End FacadeProperties.

(** C3, as the code has it.  Whatever the transcriber does on each chunk
    (opening the file or calling the backend may raise, at any chunk), and
    provided the progress callback, if any, returns normally on every call,
    [transcribe_chunks_sequential] returns normally with exactly one result
    per chunk path.  The result at position [i] carries [chunk_index = i],
    so the indices are exactly [0 .. N-1] in order, and the path of chunk
    [i].  Every chunk is served in turn, whatever the earlier chunks did:
    the transcriber works on chunk [i] in the world the earlier chunks and
    the callback left, and result [i] reports its outcome: a success with
    the text, language, duration and segments of the response when the file
    opened and the backend answered, and a failure with the message
    ["Error: " + str(e)] when opening the file or calling the backend
    raised [e]. *)
Theorem runner_index_integrity {num : Type} `{PyNumber num} {World : Type}
    (open_rb : string -> World -> Transcription.Result unit * World)
    (create : Transcription.Params -> World
              -> Transcription.Result (@Transcription.Response num) * World)
    (self : Transcription.Service) (chunk_paths : list string)
    (lang : option string)
    (progress_callback : option (@Transcription.Callback World))
    (st : @Transcription.State World) :
  Transcription.callback_returns progress_callback ->
  exists results st',
    Transcription.transcribe_chunks_sequential open_rb create self chunk_paths
      lang progress_callback st = (Transcription.Ok results, st')
    /\ length results = length chunk_paths
    /\ map Transcription.chunk_index results
       = map Some (seq 0 (length chunk_paths))
    /\ map Transcription.file_path results = map Some chunk_paths
    /\ Forall (fun r => Transcription.success r = Some true
                        \/ Transcription.is_failure r) results
    /\ Transcription.served open_rb create self lang progress_callback
         (length chunk_paths) 0 chunk_paths st results st'.
Proof.
  intros Hcb.
  destruct (transcribe_chunks_loop_served open_rb create self lang
              progress_callback (length chunk_paths) Hcb chunk_paths 0%nat [] st)
    as (results & st' & Hloop & Hserved).
  destruct (served_indices _ _ _ _ _ _ _ _ _ _ _ Hserved)
    as (Hlen & Hidx & Hpaths & Htags).
  exists results, st'.
  split; [exact Hloop|]. split; [exact Hlen|]. split; [exact Hidx|].
  split; [exact Hpaths|]. split; [exact Htags|]. exact Hserved.
Qed.

Lemma runner_index_integrity_witness :
  Transcription.callback_returns (Some Examples.quiet)
  /\ exists results st',
       Transcription.transcribe_chunks_sequential Examples.open_ok
         Examples.scripted_create Examples.service
         ["a.mp3"; "b.mp3"; "c.mp3"] None (Some Examples.quiet)
         (Examples.start
            [Transcription.Ok (Examples.verbose_response "hi" 3 []);
             Transcription.Raise "boom";
             Transcription.Ok (Examples.verbose_response "bye" 4 [])])
       = (Transcription.Ok results, st')
       /\ map Transcription.chunk_index results = [Some 0; Some 1; Some 2]%nat
       /\ map Transcription.success results = [Some true; Some false; Some true]
       /\ map Transcription.error results = [None; Some "Error: boom"; None]
       /\ map Transcription.text results = [Some "hi"; None; Some "bye"].
Proof.
  assert (Hcb : Transcription.callback_returns (Some Examples.quiet)).
  { intros fraction message w. by exists w. }
  split; [exact Hcb|].
  destruct (runner_index_integrity Examples.open_ok Examples.scripted_create
              Examples.service ["a.mp3"; "b.mp3"; "c.mp3"] None
              (Some Examples.quiet)
              (Examples.start
                 [Transcription.Ok (Examples.verbose_response "hi" 3 []);
                  Transcription.Raise "boom";
                  Transcription.Ok (Examples.verbose_response "bye" 4 [])])
              Hcb)
    as (results & st' & Hrun & _ & Hidx & _ & _ & Hserved).
  exists results, st'. split; [exact Hrun|]. split; [exact Hidx|].
  inversion Hserved as [|? ? ? ? st1 o1 w1 s1 ? r1 rs1 ? ? Hn1 Ht1 Hr1 _ Hm1 Hs1];
    subst.
  injection Hn1 as <-. injection Ht1 as <- <-. injection Hm1 as <-.
  inversion Hs1 as [|? ? ? ? st2 o2 w2 s2 ? r2 rs2 ? ? Hn2 Ht2 Hr2 _ Hm2 Hs2];
    subst.
  injection Hn2 as <-. injection Ht2 as <- <-. injection Hm2 as <-.
  inversion Hs2 as [|? ? ? ? st3 o3 w3 s3 ? r3 rs3 ? ? Hn3 Ht3 Hr3 _ Hm3 Hs3];
    subst.
  injection Hn3 as <-. injection Ht3 as <- <-. injection Hm3 as <-.
  inversion Hs3; subst.
  destruct Hr1 as (_ & _ & _ & _ & _ & _ & Hs1' & Ht1' & _ & _ & _ & He1').
  destruct Hr2 as (_ & _ & _ & _ & _ & _ & Hs2' & He2' & Ht2' & _).
  destruct Hr3 as (_ & _ & _ & _ & _ & _ & Hs3' & Ht3' & _ & _ & _ & He3').
  simpl. rewrite Hs1', Hs2', Hs3', He1', He2', He3', Ht1', Ht2', Ht3'.
  done.
Defined.

(** C3, as stated, fails: the claim lets no exception escape the runner,
    but the runner calls the progress callback outside any [try], so with
    a callback that raises the runner returns no result at all. *)
Lemma runner_callback_counterexample :
  Transcription.transcribe_chunks_sequential Examples.open_ok
    Examples.scripted_create Examples.service ["a.mp3"; "b.mp3"] None
    (Some Examples.raising)
    (Examples.start
       [Transcription.Ok (Examples.verbose_response "hi" 3 []);
        Transcription.Ok (Examples.verbose_response "bye" 4 [])])
  = (Transcription.Raise "observer failed",
     {| Transcription.world :=
          [Transcription.Ok (Examples.verbose_response "hi" 3 []);
           Transcription.Ok (Examples.verbose_response "bye" 4 [])];
        Transcription.observed :=
          [(0 # 2, "Transcribing chunk 1/2...")] |})
  /\ ~ exists results st',
        Transcription.transcribe_chunks_sequential Examples.open_ok
          Examples.scripted_create Examples.service ["a.mp3"; "b.mp3"] None
          (Some Examples.raising)
          (Examples.start
             [Transcription.Ok (Examples.verbose_response "hi" 3 []);
              Transcription.Ok (Examples.verbose_response "bye" 4 [])])
        = (Transcription.Ok results, st').
Proof.
  split; [reflexivity|]. intros (results & st' & Hrun).
  vm_compute in Hrun. discriminate.
Qed.

(** The failure of the second of three chunks does not stop the third. *)
Lemma runner_continues_after_failure :
  match
    fst (Transcription.transcribe_chunks_sequential Examples.open_ok
           Examples.scripted_create Examples.service
           ["a.mp3"; "b.mp3"; "c.mp3"] None None
           (Examples.start
              [Transcription.Ok (Examples.verbose_response "hi" 3 []);
               Transcription.Raise "boom";
               Transcription.Ok (Examples.verbose_response "bye" 4 [])]))
  with
  | Transcription.Ok [r0; r1; r2] =>
      Transcription.success r0 = Some true
      /\ Transcription.success r1 = Some false
      /\ Transcription.error r1 = Some "Error: boom"
      /\ Transcription.success r2 = Some true
      /\ Transcription.text r2 = Some "bye"
  | _ => False
  end.
Proof. vm_compute. repeat split. Qed.

(** The runner does not catch what the progress callback raises. *)
Lemma runner_callback_raise_escapes :
  fst (Transcription.transcribe_chunks_sequential Examples.open_ok
         Examples.scripted_create Examples.service ["a.mp3"; "b.mp3"] None
         (Some Examples.raising)
         (Examples.start
            [Transcription.Ok (Examples.verbose_response "hi" 3 []);
             Transcription.Ok (Examples.verbose_response "bye" 4 [])]))
  = Transcription.Raise "observer failed".
Proof. reflexivity. Qed.

(** C7, as the code has it.  The progress callback, if any, returns.

    For a one-element chunk list [transcribe_file] tells the callback,
    lets the transcriber work on the chunk, tells the callback again and
    returns the result of [transcribe_audio] as it is.  When the file opened
    and the backend answered, the dictionary carries [success] true, the
    text, the language, the duration and the segments of the response, the
    segments as the backend gave them, with no offset applied, and the path
    of the chunk; when opening the file or calling the backend raised, it
    carries [success] false, the error message and the path, and no text,
    language, duration or segments.  Either way it has no [total_chunks],
    [successful_chunks], [failed_chunks] or [total_duration] key, so it
    does not have the keys of the merged shape.

    For two or more chunks [transcribe_file] tells the callback, runs the
    runner from the state reached, which serves every chunk in turn, tells
    the callback twice more and returns the result of
    [reassemble_transcription] on the results of the runner;
    that result has the keys of the merged shape ([success], [text],
    [language], [segments], [total_chunks], [successful_chunks],
    [failed_chunks], [total_duration]) exactly when some chunk succeeded. *)
Theorem transcribe_file_shapes {num : Type} `{PyNumber num} {World : Type}
    (open_rb : string -> World -> Transcription.Result unit * World)
    (create : Transcription.Params -> World
              -> Transcription.Result (@Transcription.Response num) * World)
    (self : Transcription.Service) (lang : option string)
    (progress_callback : option (@Transcription.Callback World))
    (st : @Transcription.State World) :
  Transcription.callback_returns progress_callback ->
  (forall chunk_path,
     exists st1 outcome w2 r st3,
       Transcription.notify progress_callback (1 # 2) "Transcribing audio..." st
       = (Transcription.Ok tt, st1)
       /\ Transcription.transcriber open_rb create self chunk_path lang
            (Transcription.world st1) = (outcome, w2)
       /\ Transcription.transcribe_audio open_rb create self chunk_path lang None st1
          = (Transcription.Ok r,
             {| Transcription.world := w2;
                Transcription.observed := Transcription.observed st1 |})
       /\ Transcription.notify progress_callback (1 # 1) "Transcription complete!"
            {| Transcription.world := w2;
               Transcription.observed := Transcription.observed st1 |}
          = (Transcription.Ok tt, st3)
       /\ Transcription.transcribe_file open_rb create self [chunk_path] lang
            progress_callback st = (Transcription.Ok r, st3)
       /\ Transcription.file_path r = Some chunk_path
       /\ match outcome with
          | Transcription.Ok response =>
              Transcription.success r = Some true
              /\ Transcription.text r
                 = Some (match Transcription.resp_text response with
                         | Some t => t
                         | None => Transcription.resp_str response
                         end)
              /\ Transcription.language r
                 = Some (match Transcription.resp_language response with
                         | Some l => l
                         | None =>
                             match lang with
                             | Some "" | None => Some "unknown"
                             | Some l => Some l
                             end
                         end)
              /\ Transcription.duration r
                 = Some (Transcription.resp_duration response)
              /\ Transcription.segments r
                 = Some (default [] (Transcription.resp_segments response))
              /\ Transcription.error r = None
          | Transcription.Raise msg =>
              Transcription.success r = Some false
              /\ Transcription.error r = Some ("Error: " +:+ msg)
              /\ Transcription.text r = None
              /\ Transcription.language r = None
              /\ Transcription.duration r = None
              /\ Transcription.segments r = None
          end
       /\ Transcription.chunk_index r = None
       /\ Transcription.chunk_errors r = None
       /\ Transcription.total_chunks r = None
       /\ Transcription.successful_chunks r = None
       /\ Transcription.failed_chunks r = None
       /\ Transcription.total_duration r = None
       /\ Transcription.has_transcript_keys r = false)
  /\ (forall p1 p2 rest,
        exists st1 results st2 st3 st',
          Transcription.notify progress_callback (1 # 10)
            "Starting transcription..." st = (Transcription.Ok tt, st1)
          /\ Transcription.transcribe_chunks_sequential open_rb create self
               (p1 :: p2 :: rest) lang progress_callback st1
             = (Transcription.Ok results, st2)
          /\ Transcription.served open_rb create self lang progress_callback
               (length (p1 :: p2 :: rest)) 0 (p1 :: p2 :: rest) st1 results st2
          /\ Transcription.notify progress_callback (9 # 10)
               "Reassembling transcription..." st2 = (Transcription.Ok tt, st3)
          /\ Transcription.notify progress_callback (1 # 1)
               "Transcription complete!" st3 = (Transcription.Ok tt, st')
          /\ Transcription.transcribe_file open_rb create self (p1 :: p2 :: rest)
               lang progress_callback st
             = (Transcription.Ok (Transcription.reassemble_transcription results), st')
          /\ (Transcription.has_transcript_keys
                (Transcription.reassemble_transcription results) = true
              <-> exists r, In r results /\ Transcription.success r = Some true)
          /\ Transcription.has_transcript_keys
               (Transcription.reassemble_transcription results)
             = existsb Transcription.get_success results).
Proof.
  intros Hcb. split.
  - intros chunk_path.
    destruct (transcribe_file_single_reports open_rb create self chunk_path lang
                progress_callback st Hcb)
      as (st1 & outcome & w2 & r & st3 & Hn1 & Hout & Hrun & Hrep & Hidx & Hn3
          & Hfile).
    destruct Hrep as (Hpath & Htot & Hsucc & Hfail & Hdur & Herrs & Hshape).
    exists st1, outcome, w2, r, st3.
    split; [exact Hn1|]. split; [exact Hout|]. split; [exact Hrun|].
    split; [exact Hn3|]. split; [exact Hfile|]. split; [exact Hpath|].
    split.
    { destruct outcome as [response|msg]; [|exact Hshape].
      destruct Hshape as (? & ? & ? & ? & Hsegs & ?).
      repeat split; done. }
    split; [exact Hidx|]. split; [exact Herrs|].
    split; [exact Htot|]. split; [exact Hsucc|]. split; [exact Hfail|].
    split; [exact Hdur|].
    unfold Transcription.has_transcript_keys. rewrite Htot. simpl.
    by rewrite !andb_false_r.
  - intros p1 p2 rest.
    destruct (transcribe_file_multi_served open_rb create self p1 p2 rest lang
                progress_callback st Hcb)
      as (st1 & results & st2 & st3 & st' & Hn1 & Hrun & Hserved & Hn3 & Hn4
          & Hfile).
    exists st1, results, st2, st3, st'.
    split; [exact Hn1|]. split; [exact Hrun|]. split; [exact Hserved|].
    split; [exact Hn3|].
    split; [exact Hn4|]. split; [exact Hfile|].
    assert (Hkeys : Transcription.has_transcript_keys
                      (Transcription.reassemble_transcription results)
                    = existsb Transcription.get_success results).
    { destruct (existsb Transcription.get_success results) eqn:Hex.
      - by rewrite reassemble_some_success.
      - by rewrite reassemble_no_success. }
    split; [|exact Hkeys].
    rewrite Hkeys, existsb_exists.
    split; intros (r & Hin & Hr); exists r; (split; [done|]);
      rewrite get_success_tagged in *; by apply success_tagged_true.
Qed.

Lemma transcribe_file_shapes_witness :
  Transcription.callback_returns (Some Examples.quiet)
  /\ exists r st',
       Transcription.transcribe_file Examples.open_ok Examples.scripted_create
         Examples.service ["a.mp3"] None (Some Examples.quiet)
         (Examples.start
            [Transcription.Ok
               (Examples.verbose_response "hi" 3 [Examples.seg 0 3 "hi"])])
       = (Transcription.Ok r, st')
       /\ Transcription.success r = Some true
       /\ Transcription.text r = Some "hi"
       /\ Transcription.language r = Some (Some "en")
       /\ Transcription.duration r = Some (Some 3)
       /\ Transcription.segments r = Some [Examples.seg 0 3 "hi"]
       /\ Transcription.file_path r = Some "a.mp3"
       /\ Transcription.total_chunks r = None.
Proof.
  assert (Hcb : Transcription.callback_returns (Some Examples.quiet)).
  { intros fraction message w. by exists w. }
  split; [exact Hcb|].
  destruct (transcribe_file_shapes Examples.open_ok Examples.scripted_create
              Examples.service None (Some Examples.quiet)
              (Examples.start
                 [Transcription.Ok
                    (Examples.verbose_response "hi" 3 [Examples.seg 0 3 "hi"])])
              Hcb) as [Hsingle _].
  destruct (Hsingle "a.mp3")
    as (st1 & outcome & w2 & r & st3 & Hn1 & Hout & _ & _ & Hfile & Hpath
        & Hshape & _ & _ & Htot & _).
  exists r, st3. split; [exact Hfile|].
  injection Hn1 as <-. injection Hout as <- <-.
  destruct Hshape as (Hs & Ht & Hl & Hd & Hsegs & _).
  split; [exact Hs|]. split; [exact Ht|]. split; [exact Hl|].
  split; [exact Hd|]. split; [exact Hsegs|]. split; [exact Hpath|]. exact Htot.
Defined.

(** C7, as stated, fails: the result for a single chunk that was transcribed
    does not have the keys of the merged shape. *)
Lemma transcribe_file_single_counterexample :
  exists r st',
    Transcription.transcribe_file Examples.open_ok Examples.scripted_create
      Examples.service ["a.mp3"] None None
      (Examples.start
         [Transcription.Ok
            (Examples.verbose_response "hi" 3 [Examples.seg 0 3 "hi"])])
    = (Transcription.Ok r, st')
    /\ Transcription.success r = Some true
    /\ Transcription.total_chunks r = None
    /\ Transcription.successful_chunks r = None
    /\ Transcription.failed_chunks r = None
    /\ Transcription.total_duration r = None
    /\ Transcription.has_transcript_keys r <> true.
Proof.
  eexists _, _. split; [reflexivity|]. repeat split. vm_compute. discriminate.
Qed.

(** ** Progress fractions *)

Lemma fraction_of_unit (i total_chunks : nat) :
  (i <= total_chunks)%nat -> (0 < total_chunks)%nat ->
  Transcription.in_unit_interval (Transcription.fraction_of i total_chunks).
Proof.
  intros Hi Hpos. unfold Transcription.in_unit_interval, Transcription.fraction_of.
  unfold Qle. simpl.
  assert (Z.pos (Pos.of_nat total_chunks) = Z.of_nat total_chunks) as ->.
  { rewrite <- positive_nat_Z, Nat2Pos.id by lia. done. }
  lia.
Qed.

Lemma fraction_of_le (i j total_chunks : nat) :
  (i <= j)%nat ->
  Qle_bool (Transcription.fraction_of i total_chunks)
           (Transcription.fraction_of j total_chunks) = true.
Proof.
  intros Hij. unfold Qle_bool, Transcription.fraction_of. simpl.
  apply Z.leb_le. apply Z.mul_le_mono_nonneg_r; lia.
Qed.

Lemma loop_fractions_unit (total_chunks : nat) :
  (0 < total_chunks)%nat ->
  forall n i, (i + n <= total_chunks)%nat ->
    Forall Transcription.in_unit_interval
           (Transcription.loop_fractions total_chunks i n).
Proof.
  intros Hpos. induction n as [|n IH]; intros i Hin; simpl.
  - constructor.
  - constructor; [apply fraction_of_unit; lia|].
    constructor; [apply fraction_of_unit; lia|].
    apply IH. lia.
Qed.

Lemma loop_fractions_from (total_chunks n i : nat) :
  Transcription.nondecreasing
    (Transcription.fraction_of i total_chunks
       :: Transcription.loop_fractions total_chunks i n) = true.
Proof.
  revert i. induction n as [|n IH]; intros i; [done|].
  cbn [Transcription.loop_fractions Transcription.nondecreasing].
  rewrite !fraction_of_le by lia. simpl.
  replace (i + 1)%nat with (S i) by lia. apply IH.
Qed.

(** Inside the runner the fractions never decrease. *)
Lemma loop_fractions_nondecreasing (total_chunks n i : nat) :
  Transcription.nondecreasing (Transcription.loop_fractions total_chunks i n) = true.
Proof.
  destruct n as [|n]; [done|].
  cbn [Transcription.loop_fractions Transcription.nondecreasing].
  rewrite fraction_of_le by lia. simpl.
  replace (i + 1)%nat with (S i) by lia. apply loop_fractions_from.
Qed.

(** X10. Every fraction [transcribe_file] passes to a callback that returns lies
    between 0 and 1. *)
Lemma transcribe_file_fractions_unit {num : Type} `{PyNumber num} {World : Type}
    (open_rb : string -> World -> Transcription.Result unit * World)
    (create : Transcription.Params -> World
              -> Transcription.Result (@Transcription.Response num) * World)
    (self : Transcription.Service) (chunk_paths : list string)
    (lang : option string)
    (progress_callback : option (@Transcription.Callback World))
    (st : @Transcription.State World) :
  Transcription.callback_returns progress_callback ->
  exists r st' new,
    Transcription.transcribe_file open_rb create self chunk_paths lang
      progress_callback st = (Transcription.Ok r, st')
    /\ Transcription.fractions st' = Transcription.fractions st ++ new
    /\ Forall Transcription.in_unit_interval new.
Proof.
  intros Hcb. destruct chunk_paths as [|p1 [|p2 rest]].
  - eexists _, st, []. split; [reflexivity|]. rewrite app_nil_r. by split.
  - destruct (transcribe_file_single open_rb create self p1 lang
                progress_callback st Hcb)
      as (st1 & r & st2 & st3 & _ & _ & _ & Hfile & Hfr).
    eexists r, st3, _. split; [exact Hfile|]. split; [exact Hfr|].
    destruct progress_callback; repeat constructor; unfold Qle; simpl; lia.
  - destruct (transcribe_file_multi open_rb create self p1 p2 rest lang
                progress_callback st Hcb)
      as (st1 & results & st2 & st' & _ & _ & _ & Hfile & Hfr).
    eexists _, st', _. split; [exact Hfile|]. split; [exact Hfr|].
    destruct progress_callback; [|constructor].
    apply Forall_app. split; [repeat constructor; unfold Qle; simpl; lia|].
    apply Forall_app. split.
    + apply loop_fractions_unit; simpl; lia.
    + repeat constructor; unfold Qle; simpl; lia.
Qed.

(** With two chunks or more and a callback, the fractions go down twice:
    from 0.1 to 0 when the runner starts, and from 1 to 0.9 when it ends. *)
Lemma transcribe_file_fractions_regress {num : Type} `{PyNumber num} {World : Type}
    (open_rb : string -> World -> Transcription.Result unit * World)
    (create : Transcription.Params -> World
              -> Transcription.Result (@Transcription.Response num) * World)
    (self : Transcription.Service) (p1 p2 : string) (rest : list string)
    (lang : option string) (f : @Transcription.Callback World)
    (st : @Transcription.State World) :
  Transcription.callback_returns (Some f) ->
  exists r st' new,
    Transcription.transcribe_file open_rb create self (p1 :: p2 :: rest) lang
      (Some f) st = (Transcription.Ok r, st')
    /\ Transcription.fractions st' = Transcription.fractions st ++ new
    /\ Transcription.nondecreasing new = false.
Proof.
  intros Hcb.
  destruct (transcribe_file_multi open_rb create self p1 p2 rest lang
              (Some f) st Hcb)
    as (st1 & results & st2 & st' & _ & _ & _ & Hfile & Hfr).
  eexists _, st', _. split; [exact Hfile|]. split; [exact Hfr|]. reflexivity.
Qed.

(** C8 on two chunks.  With a callback that returns, [transcribe_file]
    passes the fractions 0.1, 0, 0.5, 0.5, 1, 0.9, 1 in this order: all of
    them lie in [[0, 1]], and the sequence goes down from 0.1 to 0 and from
    1 to 0.9. *)
Theorem transcribe_file_progress_two_chunks :
  let run :=
    Transcription.transcribe_file Examples.open_ok Examples.scripted_create
      Examples.service ["a.mp3"; "b.mp3"] None (Some Examples.quiet)
      (Examples.start
         [Transcription.Ok (Examples.verbose_response "hi" 3 []);
          Transcription.Ok (Examples.verbose_response "bye" 4 [])]) in
  Transcription.fractions (snd run)
  = [1 # 10; 0 # 2; 1 # 2; 1 # 2; 2 # 2; 9 # 10; 1 # 1]
  /\ Forall Transcription.in_unit_interval (Transcription.fractions (snd run))
  /\ Transcription.nondecreasing (Transcription.fractions (snd run)) = false
  /\ ~ (1 # 10 <= 0 # 2)%Q
  /\ ~ (2 # 2 <= 9 # 10)%Q.
Proof.
  intros run.
  assert (Hfr : Transcription.fractions (snd run)
                = [1 # 10; 0 # 2; 1 # 2; 1 # 2; 2 # 2; 9 # 10; 1 # 1])
    by reflexivity.
  split; [exact Hfr|]. rewrite Hfr.
  split; [repeat constructor; unfold Qle; simpl; lia|].
  split; [reflexivity|].
  split; unfold Qle; simpl; lia.
Qed.

(** ** Reassembly on the store *)

Section StoreProperties.

Import Transcription.
Context {num : Type} `{PyNumber num}.
Implicit Types (h ext : list (@Segment num)) (vals : list (@Segment num)).
Implicit Types (d : @PyDict num nat) (v : @PyDict num (@Segment num)).

Lemma load_segments_cons h l ls s vals :
  h !! l = Some s -> load_segments h ls = Some vals ->
  load_segments h (l :: ls) = Some (s :: vals).
Proof.
  unfold load_segments. intros Hl Hls. apply mapM_Some. constructor; [done|].
  by apply mapM_Some.
Qed.

Lemma load_segments_inv h l ls vals :
  load_segments h (l :: ls) = Some vals ->
  exists s vals', vals = s :: vals' /\ h !! l = Some s
                  /\ load_segments h ls = Some vals'.
Proof.
  unfold load_segments. intros Hload. apply mapM_Some in Hload.
  inversion Hload as [|? s ? vals' Hl Hrest]; subst.
  exists s, vals'. split; [done|]. split; [done|]. by apply mapM_Some.
Qed.

(** Objects appended to the store do not change what is read through the
    addresses that were already allocated. *)
Lemma load_segments_grow h ext ls vals :
  load_segments h ls = Some vals -> load_segments (h ++ ext) ls = Some vals.
Proof.
  unfold load_segments. intros Hload. apply mapM_Some.
  apply mapM_Some in Hload.
  induction Hload as [|l s ls vals Hl _ IH]; constructor; [|done].
  by apply lookup_app_l_Some.
Qed.

Lemma load_dict_grow h ext d v :
  load_dict h d = Some v -> load_dict (h ++ ext) d = Some v.
Proof.
  unfold load_dict. destruct (segments d) as [ls|]; simpl; [|done].
  destruct (load_segments h ls) as [vals|] eqn:Hls; simpl; [|done].
  by rewrite (load_segments_grow h ext ls vals Hls).
Qed.

Lemma load_dicts_grow h ext ds vs :
  load_dicts h ds = Some vs -> load_dicts (h ++ ext) ds = Some vs.
Proof.
  unfold load_dicts. intros Hload. apply mapM_Some. apply mapM_Some in Hload.
  induction Hload as [|d v ds vs Hd _ IH]; constructor; [|done].
  by apply load_dict_grow.
Qed.

(** Reading a dictionary out of the store changes its segments only. *)
Lemma load_dict_fields h d v :
  load_dict h d = Some v ->
  success v = success d /\ text v = text d /\ language v = language d
  /\ duration v = duration d /\ chunk_index v = chunk_index d
  /\ error v = error d
  /\ load_segments h (get_segments d) = Some (get_segments v).
Proof.
  unfold load_dict, get_segments.
  destruct (segments d) as [ls|]; simpl.
  - destruct (load_segments h ls) as [vals|]; simpl; [|done].
    intros [= <-]. by repeat split.
  - intros [= <-]. by repeat split.
Qed.

(** The freshly appended objects are read back through their addresses. *)
Lemma load_segments_fresh h vals :
  load_segments (h ++ vals) (seq (length h) (length vals)) = Some vals.
Proof.
  revert h. induction vals as [|s vals IH]; intros h; [done|].
  cbn [length seq]. apply load_segments_cons.
  - by apply list_lookup_middle.
  - specialize (IH (h ++ [s])). rewrite <- app_assoc in IH. simpl in IH.
    rewrite length_app in IH. simpl in IH.
    by replace (length h + 1)%nat with (S (length h)) in IH by lia.
Qed.

(** One iteration of the segment loop: the copy is a new object at the end
    of the store, and the two updates hit the copy. *)
Lemma adjust_on_store h time_offset segment s :
  h !! segment = Some s ->
  ('(adjusted_segment, h1) ← copy_segment segment h;
   h2 ← iadd_start adjusted_segment time_offset h1;
   h3 ← iadd_end adjusted_segment time_offset h2;
   Some (adjusted_segment, h3))
  = Some (length h, h ++ [shift time_offset s]).
Proof.
  intros Hs. unfold copy_segment, iadd_start, iadd_end, Store.
  rewrite Hs. simpl.
  rewrite list_lookup_middle by done. simpl.
  rewrite insert_app_r_alt by lia. rewrite Nat.sub_diag. simpl.
  rewrite list_lookup_middle by done. simpl.
  rewrite insert_app_r_alt by lia. rewrite Nat.sub_diag. done.
Qed.

Lemma merge_segments_st_spec time_offset segs :
  forall all_segments h vals,
    load_segments h segs = Some vals ->
    merge_segments_st time_offset segs all_segments h
    = Some (all_segments ++ seq (length h) (length segs),
            h ++ map (shift time_offset) vals).
Proof.
  induction segs as [|segment rest IH]; intros all_segments h vals Hload.
  - injection Hload as <-. simpl. by rewrite !app_nil_r.
  - apply load_segments_inv in Hload as (s & vals' & -> & Hs & Hrest).
    pose proof (adjust_on_store h time_offset segment s Hs) as Hstep.
    cbn [merge_segments_st].
    destruct (copy_segment segment h) as [[adjusted h1]|]; simpl in Hstep |- *;
      [|done].
    destruct (iadd_start adjusted time_offset h1) as [h2|]; simpl in Hstep |- *;
      [|done].
    destruct (iadd_end adjusted time_offset h2) as [h3|]; simpl in Hstep |- *;
      [|done].
    injection Hstep as -> ->.
    rewrite (IH _ _ vals') by (by apply load_segments_grow).
    rewrite length_app. simpl. rewrite <- !app_assoc. simpl.
    by replace (length h + 1)%nat with (S (length h)) by lia.
Qed.

Lemma load_dict_get_success h d v :
  load_dict h d = Some v -> get_success d = get_success v.
Proof.
  intros Hv. apply load_dict_fields in Hv as (Hs & _).
  unfold get_success. by rewrite Hs.
Qed.

Lemma load_dict_get_duration h d v :
  load_dict h d = Some v -> get_duration d = get_duration v.
Proof.
  intros Hv. apply load_dict_fields in Hv as (_ & _ & _ & Hd & _).
  unfold get_duration. by rewrite Hd.
Qed.

Lemma load_segments_length h ls vals :
  load_segments h ls = Some vals -> length ls = length vals.
Proof. unfold load_segments. apply length_mapM. Qed.

(** The chunk loop on the store appends the shifted segments to the store,
    in the order in which the value-level loop emits them. *)
Lemma merge_chunks_st_spec h0 chunks vchunks :
  Forall2 (fun d v => load_dict h0 d = Some v) chunks vchunks ->
  forall all_segments time_offset ext,
    let h := h0 ++ ext in
    let emitted := shifted_segments advance_with_segments time_offset vchunks in
    merge_chunks_st chunks all_segments time_offset h
    = Some (all_segments ++ seq (length h) (length emitted),
            fold_left advance_with_segments vchunks time_offset,
            h ++ emitted).
Proof.
  induction 1 as [|d v chunks vchunks Hd _ IH];
    intros all_segments time_offset ext h emitted; subst h emitted.
  - simpl. by rewrite !app_nil_r.
  - cbn [merge_chunks_st shifted_segments fold_left].
    pose proof (load_dict_get_duration _ _ _ Hd) as Hdur.
    apply load_dict_fields in Hd as (_ & _ & _ & _ & _ & _ & Hsegs).
    pose proof (load_segments_length _ _ _ Hsegs) as Hlen.
    destruct (get_segments d) as [|l ls] eqn:Hds;
      destruct (get_segments v) as [|s vs] eqn:Hvs; try discriminate Hlen.
    + assert (advance_with_segments time_offset v = time_offset) as ->
        by (unfold advance_with_segments; by rewrite Hvs).
      simpl. apply IH.
    + assert (advance_with_segments time_offset v = advance_always time_offset v)
        as -> by (unfold advance_with_segments; by rewrite Hvs).
      cbn [Py.truthy_list].
      rewrite (merge_segments_st_spec time_offset (l :: ls) all_segments
                 (h0 ++ ext) (s :: vs))
        by (by apply load_segments_grow).
      cbn [mbind option_bind].
      rewrite Hdur, guarded_add.
      rewrite <- (app_assoc h0 ext). rewrite IH.
      rewrite !length_app, !length_map, <- Hlen, seq_app, !app_assoc.
      by rewrite Nat.add_assoc.
Qed.

Lemma Forall2_filter_agree {A B} (R : A -> B -> Prop)
    (p : A -> bool) (q : B -> bool) (l : list A) (k : list B) :
  (forall x y, R x y -> p x = q y) ->
  Forall2 R l k -> Forall2 R (List.filter p l) (List.filter q k).
Proof.
  intros Hpq. induction 1 as [|x y l k Hxy _ IH]; simpl; [constructor|].
  rewrite (Hpq x y Hxy). destruct (q y); [by constructor | done].
Qed.

Lemma Forall2_map_agree {A B C} (R : A -> B -> Prop)
    (f : A -> C) (g : B -> C) (l : list A) (k : list B) :
  (forall x y, R x y -> f x = g y) -> Forall2 R l k -> map f l = map g k.
Proof.
  intros Hfg. induction 1 as [|x y l k Hxy _ IH]; simpl; [done|].
  by rewrite (Hfg x y Hxy), IH.
Qed.

Lemma store_wf_load h ds :
  store_wf h ds -> exists vs, load_dicts h ds = Some vs.
Proof.
  unfold store_wf, load_dicts. induction 1 as [|d ds Hd _ [vs IH]].
  - by exists [].
  - assert (exists v, load_dict h d = Some v) as [v Hv].
    { unfold load_dict, get_segments in *.
      destruct (segments d) as [ls|]; simpl in *; [|by eexists].
      assert (exists vals, load_segments h ls = Some vals) as [vals ->].
      { induction Hd as [|l ls Hl _ [vals IHls]]; [by exists []|].
        apply lookup_lt_is_Some_2 in Hl as [s Hs].
        exists (s :: vals). by apply load_segments_cons. }
      simpl. by eexists. }
    exists (v :: vs). apply mapM_Some. constructor; [done|]. by apply mapM_Some.
Qed.

(** [reassemble_transcription_st] computes, on the store, what
    [reassemble_transcription] computes on values: it only appends objects
    to the store, and its result read out of the new store is the result of
    the value-level function on the input read out of the old store. *)
Lemma reassemble_st_spec h ds vs :
  load_dicts h ds = Some vs ->
  exists out ext,
    reassemble_transcription_st ds h = Some (out, h ++ ext)
    /\ load_dict (h ++ ext) out = Some (reassemble_transcription vs).
Proof.
  intros Hload. unfold load_dicts in Hload. apply mapM_Some in Hload.
  assert (Hsucc : Forall2 (fun d v => load_dict h d = Some v)
                    (List.filter get_success ds) (List.filter get_success vs)).
  { apply Forall2_filter_agree; [|done]. intros; by eapply load_dict_get_success. }
  assert (Hfail : Forall2 (fun d v => load_dict h d = Some v)
                    (List.filter (fun r => negb (get_success r)) ds)
                    (List.filter (fun r => negb (get_success r)) vs)).
  { apply Forall2_filter_agree; [|done].
    intros x y Hxy. by rewrite (load_dict_get_success _ _ _ Hxy). }
  assert (Hex : existsb get_success ds = existsb get_success vs).
  { rewrite <- !existsb_filter_truthy.
    apply Forall2_length in Hsucc.
    destruct (List.filter get_success ds), (List.filter get_success vs);
      simpl in *; done. }
  unfold reassemble_transcription_st. cbv zeta.
  rewrite existsb_filter_truthy, Hex.
  destruct (existsb get_success vs) eqn:Hvs; simpl negb; cbv iota.
  - pose proof (merge_chunks_st_spec h _ _ Hsucc [] num_zero []) as Hmerge.
    cbv zeta in Hmerge. rewrite app_nil_r in Hmerge. rewrite Hmerge.
    cbn [mbind option_bind].
    eexists _, _. split; [reflexivity|].
    rewrite reassemble_some_success by done.
    unfold load_dict. cbn [segments]. rewrite app_nil_l, load_segments_fresh.
    cbn. unfold text_in_list_order, segments_in_list_order. cbv zeta.
    f_equal. f_equal.
    + f_equal. f_equal.
      apply (Forall2_map_agree (fun d v => load_dict h d = Some v)).
      * intros x y Hxy. apply load_dict_fields in Hxy as (_ & Ht & _).
        unfold get_text. by rewrite Ht.
      * apply Forall2_filter_agree; [|done].
        intros x y Hxy. apply load_dict_fields in Hxy as (_ & Ht & _).
        unfold has_text. by rewrite Ht.
    + f_equal. destruct Hsucc as [|x y ? ? Hxy _]; [done|].
      apply load_dict_fields in Hxy as (_ & _ & Hl & _).
      unfold get_language. by rewrite Hl.
    + f_equal. by apply Forall2_length in Hload.
    + f_equal. by apply Forall2_length in Hsucc.
    + f_equal. by apply Forall2_length in Hfail.
  - exists (mkDict (S := nat) (Some false) None None None None None None
              (Some "All chunks failed to transcribe") None None
              (Some (length (List.filter (fun r => negb (get_success r)) ds)))
              None
              (Some (map chunk_error_of
                       (List.filter (fun r => negb (get_success r)) ds)))), [].
    rewrite app_nil_r. split; [reflexivity|].
    unfold reassemble_transcription. cbv zeta.
    rewrite existsb_filter_truthy, Hvs. simpl negb. cbv iota.
    unfold load_dict. cbn. f_equal. f_equal.
    + f_equal. by apply Forall2_length in Hfail.
    + f_equal. apply (Forall2_map_agree (fun d v => load_dict h d = Some v));
        [|done].
      intros x y Hxy. apply load_dict_fields in Hxy as (_ & _ & _ & _ & Hi & He & _).
      unfold chunk_error_of. by rewrite Hi, He.
Qed.

End StoreProperties.

(** C9. [reassemble_transcription] does not write to its input.  On a store
    in which the segments of the chunk results are allocated, the call
    returns; every object of the store before the call is unchanged after
    it, so the chunk results and their segments read the same before and
    after; the result is the value-level [reassemble_transcription] of the
    input; and a second call on the same chunk results returns a result
    that reads identically and leaves the first result as it was. *)
Theorem reassemble_pure {num : Type} `{PyNumber num}
    (h : @Transcription.Store num)
    (chunk_results : list (@Transcription.PyDict num nat)) :
  Transcription.store_wf h chunk_results ->
  exists inputs out h',
    Transcription.load_dicts h chunk_results = Some inputs
    /\ Transcription.reassemble_transcription_st chunk_results h = Some (out, h')
    /\ Transcription.preserved h h'
    /\ Transcription.load_dicts h' chunk_results = Some inputs
    /\ Transcription.load_dict h' out
       = Some (Transcription.reassemble_transcription inputs)
    /\ exists out2 h'',
         Transcription.reassemble_transcription_st chunk_results h'
         = Some (out2, h'')
         /\ Transcription.preserved h' h''
         /\ Transcription.load_dict h'' out2 = Transcription.load_dict h' out
         /\ Transcription.load_dict h'' out = Transcription.load_dict h' out.
Proof.
  intros Hwf.
  destruct (store_wf_load h chunk_results Hwf) as [inputs Hin].
  destruct (reassemble_st_spec h chunk_results inputs Hin)
    as (out & ext & Hrun & Hout).
  pose proof (load_dicts_grow h ext _ _ Hin) as Hin'.
  destruct (reassemble_st_spec (h ++ ext) chunk_results inputs Hin')
    as (out2 & ext2 & Hrun2 & Hout2).
  exists inputs, out, (h ++ ext).
  split; [exact Hin|]. split; [exact Hrun|].
  split; [intros l s Hl; by apply lookup_app_l_Some|].
  split; [exact Hin'|]. split; [exact Hout|].
  exists out2, ((h ++ ext) ++ ext2).
  split; [exact Hrun2|].
  split; [intros l s Hl; by apply lookup_app_l_Some|].
  split; [by rewrite Hout2, Hout|].
  rewrite Hout. by apply load_dict_grow.
Qed.

Lemma reassemble_pure_witness :
  Transcription.store_wf Examples.two_chunk_store Examples.two_chunk_refs
  /\ exists out h',
       Transcription.reassemble_transcription_st Examples.two_chunk_refs
         Examples.two_chunk_store = Some (out, h')
       /\ Transcription.preserved Examples.two_chunk_store h'.
Proof.
  assert (Hwf : Transcription.store_wf Examples.two_chunk_store
                                        Examples.two_chunk_refs).
  { repeat constructor. }
  split; [exact Hwf|].
  destruct (reassemble_pure Examples.two_chunk_store Examples.two_chunk_refs Hwf)
    as (inputs & out & h' & _ & Hrun & Hkeep & _).
  exists out, h'. split; [exact Hrun | exact Hkeep].
Defined.

(** The same call, evaluated: the three input segments keep their
    timestamps and three shifted copies are appended. *)
Lemma reassemble_store_example :
  Transcription.reassemble_transcription_st Examples.two_chunk_refs
    Examples.two_chunk_store
  = Some
      ({| Transcription.success := Some true;
          Transcription.text := Some "a b c";
          Transcription.language := Some (Some "en");
          Transcription.duration := None;
          Transcription.segments := Some [3; 4; 5]%nat;
          Transcription.file_path := None;
          Transcription.chunk_index := None;
          Transcription.error := None;
          Transcription.total_chunks := Some 2%nat;
          Transcription.successful_chunks := Some 2%nat;
          Transcription.failed_chunks := Some 0%nat;
          Transcription.total_duration := Some (Some 15);
          Transcription.chunk_errors := None |},
       [ Examples.seg 0 4 "a"; Examples.seg 4 9 "b"; Examples.seg 0 3 "c";
         Examples.seg 0 4 "a"; Examples.seg 4 9 "b"; Examples.seg 10 13 "c" ]).
Proof. reflexivity. Qed.

(** ** Input in index order *)

Section IndexOrder.

Import Transcription.
Context {num : Type} `{PyNumber num}.
Implicit Types (rs : list (@PyDict num (@Segment num))).

Lemma sort_ascending rs : ascending_index rs = true -> sort_by_index rs = rs.
Proof.
  induction rs as [|r rs IH]; [done|].
  cbn [ascending_index sort_by_index]. intros [Hhead Htail]%andb_true_iff.
  rewrite IH by done. destruct rs as [|r' rs']; [done|].
  simpl in Hhead |- *. apply andb_true_iff in Hhead as [-> _]. done.
Qed.

Lemma filter_all {A} (p : A -> bool) (l : list A) :
  forallb p l = true -> List.filter p l = l.
Proof.
  induction l as [|x l IH]; simpl; [done|].
  intros [-> Hl]%andb_true_iff. by rewrite IH.
Qed.

(** When the successes are listed in index order, as the runner lists them,
    and none has an empty text, the merged text is the text in index
    order. *)
Lemma reassemble_text_index_order rs :
  existsb get_success rs = true ->
  ascending_index (List.filter get_success rs) = true ->
  forallb has_text (List.filter get_success rs) = true ->
  text (reassemble_transcription rs) = Some (text_in_index_order rs).
Proof.
  intros Hex Hasc Htext. rewrite reassemble_some_success by done. cbn.
  unfold text_in_list_order, text_in_index_order.
  by rewrite sort_ascending, filter_all.
Qed.

End IndexOrder.

(** * Further properties *)

(** ** Partitioning: boundaries and bounds *)

Section PartitionBoundaries.

Import Audio.
Context {Frame : Type}.
Implicit Types (audio : @AudioSegment Frame) (B D : Z).

Lemma range_up_seq B D fuel : 0 < B ->
  forall cur, cur <= D -> D - cur <= Z.of_nat fuel ->
    Py.range_up fuel cur D B
    = map (fun i => cur + Z.of_nat i * B)
          (seq 0 (Z.to_nat (ceil_div (D - cur) B))).
Proof.
  intros HB. induction fuel as [|fuel IH]; intros cur Hcur Hfuel.
  - assert (cur = D) as -> by lia.
    rewrite Z.sub_diag, ceil_div_zero by done. done.
  - simpl. destruct (Z.ltb_spec cur D) as [Hlt|Hge].
    + destruct (Z_lt_le_dec (cur + B) D) as [Hin|Hout].
      * rewrite IH by lia.
        replace (D - cur) with ((D - (cur + B)) + B) by lia.
        rewrite ceil_div_step by lia.
        pose proof (ceil_div_ceiling (D - (cur + B)) B HB) as Hceil.
        rewrite Z2Nat.inj_add by nia. simpl Z.to_nat.
        rewrite Nat.add_1_r. cbn [seq map]. f_equal; [lia|].
        rewrite <- seq_shift, map_map. apply map_ext. intros i. lia.
      * rewrite range_up_done by lia.
        rewrite ceil_div_small by lia. simpl. f_equal. lia.
    + assert (cur = D) as -> by lia.
      rewrite Z.sub_diag, ceil_div_zero by done. done.
Qed.

(** With a positive bound, a successful partition puts the chunks end to
    end into the audio. *)
Lemma chunk_audio_concat audio B chunks :
  0 < B -> chunk_audio audio B = Some chunks -> concat chunks = audio.
Proof.
  intros HB Hchunks.
  assert (HD : 0 <= len audio) by (unfold len; lia).
  assert (Hspans : chunk_spans (len audio) B
                   = Some (map (span_at B (len audio))
                             (Py.range_up (Z.to_nat (len audio - 0)) 0
                                (len audio) B))).
  { unfold chunk_spans, Py.range.
    destruct (Z.eqb_spec B 0); [lia|].
    destruct (Z.ltb_spec 0 B); [|lia]. done. }
  rewrite (chunk_audio_spans audio B _ Hspans) in Hchunks.
  injection Hchunks as <-.
  rewrite (chain_concat audio 0 _ (len audio)) by (try apply range_up_chain; lia).
  simpl. rewrite drop_0. apply take_ge. unfold len. lia.
Qed.

End PartitionBoundaries.

(** X1. Chunk number [i] of [chunk_audio] covers the milliseconds from [i * B]
    to [min ((i + 1) * B) D]: every chunk but the last is exactly [B] long. *)
Theorem chunk_audio_boundaries {Frame : Type}
    (audio : @Audio.AudioSegment Frame) (B : Z) :
  0 < B ->
  let D := Audio.len audio in
  let bounds :=
    map (fun i => (Z.of_nat i * B, Z.min ((Z.of_nat i + 1) * B) D))
        (seq 0 (Z.to_nat (Audio.ceil_div D B))) in
  Audio.chunk_spans D B = Some bounds
  /\ Audio.chunk_audio audio B
     = Some (map (fun '(s, e) => Audio.slice audio s e) bounds)
  /\ (forall i s e, bounds !! i = Some (s, e) ->
        (S i < length bounds)%nat -> e - s = B).
Proof.
  intros HB D bounds.
  assert (HD : 0 <= D) by (unfold D, Audio.len; lia).
  assert (Hspans : Audio.chunk_spans D B = Some bounds).
  { unfold Audio.chunk_spans, Py.range.
    destruct (Z.eqb_spec B 0); [lia|].
    destruct (Z.ltb_spec 0 B); [|lia]. simpl.
    rewrite (range_up_seq B D) by lia. rewrite map_map, Z.sub_0_r.
    f_equal. apply map_ext. intros i. unfold Audio.span_at. f_equal; lia. }
  split; [exact Hspans|]. split; [by apply chunk_audio_spans|].
  intros i s e Hi Hlast. subst bounds.
  rewrite length_map, length_seq in Hlast.
  rewrite list_lookup_fmap in Hi.
  destruct (seq 0 (Z.to_nat (Audio.ceil_div D B)) !! i) as [j|] eqn:Hj;
    [|done].
  apply lookup_seq in Hj as [-> _]. simpl in Hi. injection Hi as <- <-.
  pose proof (Audio_ceil := ceil_div_ceiling D B HB).
  rewrite Z.min_l; [lia|]. nia.
Qed.

Lemma chunk_audio_boundaries_witness :
  Audio.chunk_spans 5 2 = Some [(0, 2); (2, 4); (4, 5)]
  /\ Audio.chunk_audio [10; 11; 12; 13; 14]%nat 2
     = Some [[10; 11]; [12; 13]; [14]]%nat.
Proof.
  destruct (chunk_audio_boundaries [10; 11; 12; 13; 14]%nat 2 ltac:(lia))
    as (Hs & Hc & _).
  split; [exact Hs | exact Hc].
Defined.

(** X2. An audio that is not empty and not longer than the bound gives
    exactly one chunk: the loop runs once, over the span from 0 to the full
    length, and the chunk is the slice [audio[0:len(audio)]]. *)
Theorem chunk_audio_short {Frame : Type}
    (audio : @Audio.AudioSegment Frame) (B : Z) :
  0 < Audio.len audio <= B ->
  Audio.chunk_spans (Audio.len audio) B = Some [(0, Audio.len audio)]
  /\ Audio.chunk_audio audio B
     = Some [Audio.slice audio 0 (Audio.len audio)].
Proof.
  intros [Hpos Hle]. unfold Audio.chunk_spans, Audio.chunk_audio, Py.range.
  cbv zeta.
  destruct (Z.eqb_spec B 0); [lia|].
  destruct (Z.ltb_spec 0 B); [|lia]. simpl.
  destruct (Z.to_nat (Audio.len audio - 0)) as [|fuel] eqn:Hfuel; [lia|].
  simpl. destruct (Z.ltb_spec 0 (Audio.len audio)); [|lia].
  rewrite range_up_done by lia. simpl.
  by rewrite Z.min_r by lia.
Qed.

Lemma chunk_audio_short_witness :
  0 < Audio.len [1; 2; 3]%nat <= 600000
  /\ Audio.chunk_spans 3 600000 = Some [(0, 3)]
  /\ Audio.chunk_audio [1; 2; 3]%nat 600000
     = Some [Audio.slice [1; 2; 3]%nat 0 3].
Proof.
  assert (Hlen : 0 < Audio.len [1; 2; 3]%nat <= 600000) by (vm_compute; split; congruence).
  split; [exact Hlen|]. exact (chunk_audio_short [1; 2; 3]%nat 600000 Hlen).
Defined.

(** X3. A bound that is not positive gives no partition: a zero bound raises
    (the step of [range] is zero) and a negative bound returns no chunk at
    all, whatever the audio. *)
Theorem chunk_audio_nonpositive_bound {Frame : Type}
    (audio : @Audio.AudioSegment Frame) (B : Z) :
  B <= 0 ->
  Audio.chunk_audio audio B = (if B =? 0 then None else Some []).
Proof.
  intros HB. unfold Audio.chunk_audio, Py.range. cbv zeta.
  destruct (Z.eqb_spec B 0); [done|].
  destruct (Z.ltb_spec 0 B); [lia|]. simpl.
  replace (Z.to_nat (0 - Audio.len audio)) with 0%nat
    by (unfold Audio.len; lia).
  done.
Qed.

Lemma chunk_audio_nonpositive_bound_witness :
  Audio.chunk_audio [1; 2; 3]%nat 0 = None
  /\ Audio.chunk_audio [1; 2; 3]%nat (-5) = Some [].
Proof.
  split.
  - exact (chunk_audio_nonpositive_bound [1; 2; 3]%nat 0 ltac:(lia)).
  - exact (chunk_audio_nonpositive_bound [1; 2; 3]%nat (-5) ltac:(lia)).
Defined.

(** ** Reassembly: what the merge keeps *)

Section MergeProperties.

Import Transcription.
Context {num : Type} `{PyNumber num}.
Implicit Types (chunks rs : list (@PyDict num (@Segment num))).

Lemma filter_filter_same {A} (p : A -> bool) (l : list A) :
  List.filter p (List.filter p l) = List.filter p l.
Proof.
  induction l as [|x l IH]; simpl; [done|].
  destruct (p x) eqn:Hx; simpl; [|done]. by rewrite Hx, IH.
Qed.

Lemma filter_filter_none {A} (p : A -> bool) (l : list A) :
  List.filter (fun x => negb (p x)) (List.filter p l) = [].
Proof.
  induction l as [|x l IH]; simpl; [done|].
  destruct (p x) eqn:Hx; simpl; [|done]. by rewrite Hx.
Qed.

Lemma existsb_filter_same {A} (p : A -> bool) (l : list A) :
  existsb p (List.filter p l) = existsb p l.
Proof. by rewrite <- !existsb_filter_truthy, filter_filter_same. Qed.

Lemma shifted_segments_texts advance time_offset chunks :
  map seg_text (shifted_segments advance time_offset chunks)
  = concat (map (fun chunk => map seg_text (get_segments chunk)) chunks).
Proof.
  revert time_offset. induction chunks as [|chunk chunks IH]; intros time_offset;
    simpl; [done|].
  by rewrite map_app, map_map, IH.
Qed.

End MergeProperties.

(** X4. Failed chunks contribute nothing to a merged transcript but their
    number: text, segments, language and total duration are those of the
    successful chunks alone. *)
Theorem reassemble_ignores_failures {num : Type} `{PyNumber num}
    (chunk_results : list (@Transcription.PyDict num (@Transcription.Segment num))) :
  existsb Transcription.get_success chunk_results = true ->
  let out := Transcription.reassemble_transcription chunk_results in
  let alone :=
    Transcription.reassemble_transcription
      (List.filter Transcription.get_success chunk_results) in
  Transcription.text out = Transcription.text alone
  /\ Transcription.segments out = Transcription.segments alone
  /\ Transcription.language out = Transcription.language alone
  /\ Transcription.total_duration out = Transcription.total_duration alone
  /\ Transcription.successful_chunks out = Transcription.successful_chunks alone
  /\ Transcription.failed_chunks alone = Some 0%nat.
Proof.
  intros Hex out alone. subst out alone.
  rewrite !reassemble_some_success by (by rewrite ?existsb_filter_same).
  cbn. unfold Transcription.text_in_list_order,
    Transcription.segments_in_list_order.
  by rewrite !filter_filter_same, filter_filter_none.
Qed.

Lemma reassemble_ignores_failures_witness :
  existsb Transcription.get_success Examples.middle_failed = true
  /\ Transcription.text (Transcription.reassemble_transcription Examples.middle_failed)
     = Transcription.text
         (Transcription.reassemble_transcription
            (List.filter Transcription.get_success Examples.middle_failed)).
Proof.
  split; [reflexivity|].
  exact (proj1 (reassemble_ignores_failures Examples.middle_failed eq_refl)).
Defined.

(** X5. The merge neither loses nor duplicates nor rewrites a segment: the texts
    of the merged segments are the texts of the segments of the successful
    chunks, chunk after chunk in list order. *)
Theorem reassemble_keeps_segment_texts {num : Type} `{PyNumber num}
    (chunk_results : list (@Transcription.PyDict num (@Transcription.Segment num))) :
  existsb Transcription.get_success chunk_results = true ->
  exists merged,
    Transcription.segments (Transcription.reassemble_transcription chunk_results)
    = Some merged
    /\ map Transcription.seg_text merged
       = concat
           (map (fun chunk =>
                   map Transcription.seg_text (Transcription.get_segments chunk))
                (List.filter Transcription.get_success chunk_results))
    /\ length merged
       = length
           (concat
              (map Transcription.get_segments
                 (List.filter Transcription.get_success chunk_results))).
Proof.
  intros Hex. rewrite reassemble_some_success by done. cbn.
  eexists. split; [reflexivity|].
  unfold Transcription.segments_in_list_order.
  pose proof (shifted_segments_texts Transcription.advance_with_segments
                num_zero (List.filter Transcription.get_success chunk_results))
    as Htexts.
  split; [exact Htexts|].
  rewrite <- (length_map Transcription.seg_text), Htexts.
  generalize (List.filter Transcription.get_success chunk_results).
  intros l. induction l as [|c l IH]; simpl; [done|].
  by rewrite !length_app, length_map, IH.
Qed.

Lemma reassemble_keeps_segment_texts_witness :
  existsb Transcription.get_success Examples.middle_failed = true
  /\ exists merged,
       Transcription.segments
         (Transcription.reassemble_transcription Examples.middle_failed)
       = Some merged
       /\ map Transcription.seg_text merged = ["one"; "three"].
Proof.
  split; [reflexivity|].
  destruct (reassemble_keeps_segment_texts Examples.middle_failed eq_refl)
    as (merged & Hm & Htexts & _).
  exists merged. split; [exact Hm | exact Htexts].
Defined.

(** ** Reassembly: timestamps in order *)

Section TimingProperties.

Import Transcription Timing.
Context {num : Type} `{PyOrdered num}.
Implicit Types (chunks : list (@PyDict num (@Segment num))) (time_offset : num).

Lemma num_zero_add x : num_add num_zero x = x.
Proof. by rewrite num_add_comm, num_add_zero. Qed.

Lemma starts_sorted_app (l1 l2 : list (@Segment num)) :
  starts_sorted l1 -> starts_sorted l2 ->
  (forall a b, In a l1 -> In b l2 -> num_le (seg_start a) (seg_start b)) ->
  starts_sorted (l1 ++ l2).
Proof.
  unfold starts_sorted. intros Hl1 Hl2 Hcross.
  induction Hl1 as [|a l1 Hl1 IH Ha]; simpl; [done|].
  constructor.
  - apply IH. intros; apply Hcross; simpl; auto.
  - apply Forall_app. split; [done|].
    apply Forall_forall. intros b Hb. apply Hcross; simpl; auto.
    by apply list_elem_of_In.
Qed.

Lemma starts_sorted_shift time_offset (segs : list (@Segment num)) :
  starts_sorted segs -> starts_sorted (map (shift time_offset) segs).
Proof.
  unfold starts_sorted. induction 1 as [|a l Hl IH Ha]; simpl; constructor;
    [done|].
  apply Forall_forall. intros b [s [-> Hs]]%list_elem_of_fmap. simpl.
  apply num_add_le. rewrite Forall_forall in Ha. by apply Ha.
Qed.

(** From a running offset on, the merged segments start in order and none
    starts before the offset. *)
Lemma shifted_segments_sorted chunks :
  Forall well_timed chunks ->
  forall time_offset,
    starts_sorted (shifted_segments advance_with_segments time_offset chunks)
    /\ Forall (fun s => num_le time_offset (seg_start s))
              (shifted_segments advance_with_segments time_offset chunks).
Proof.
  induction 1 as [|chunk chunks Hchunk _ IH]; intros time_offset;
    cbn [shifted_segments].
  - split; constructor.
  - destruct (get_segments chunk) as [|s0 segs] eqn:Hsegs.
    + assert (advance_with_segments time_offset chunk = time_offset) as ->
        by (unfold advance_with_segments; by rewrite Hsegs).
      simpl. apply IH.
    + destruct Hchunk as [Hnil | (d & Hd & Hsorted & Hbounds)];
        [congruence|].
      rewrite Hsegs in Hsorted, Hbounds.
      assert (advance_with_segments time_offset chunk = num_add time_offset d)
        as -> by (unfold advance_with_segments, advance_always;
                  by rewrite Hsegs, Hd).
      destruct (IH (num_add time_offset d)) as [IHsorted IHlower].
      assert (Hlow : forall s, In s (s0 :: segs) ->
                num_le time_offset (seg_start (shift time_offset s))).
      { intros s Hs. rewrite Forall_forall in Hbounds.
        destruct (Hbounds s) as [Hzero _]; [by apply list_elem_of_In|].
        simpl. rewrite <- (num_zero_add time_offset) at 1.
        by apply num_add_le. }
      assert (Hup : forall s, In s (s0 :: segs) ->
                num_le (seg_start (shift time_offset s)) (num_add time_offset d)).
      { intros s Hs. rewrite Forall_forall in Hbounds.
        destruct (Hbounds s) as [_ Hd']; [by apply list_elem_of_In|].
        simpl. rewrite (num_add_comm time_offset d). by apply num_add_le. }
      assert (Hstep : num_le time_offset (num_add time_offset d)).
      { eapply num_le_trans; [apply (Hlow s0) | apply (Hup s0)]; by left. }
      split.
      * apply starts_sorted_app; [by apply starts_sorted_shift | done |].
        intros a b [s [<- Hs]]%in_map_iff Hb.
        eapply num_le_trans; [by apply Hup|].
        rewrite Forall_forall in IHlower. apply IHlower.
        by apply list_elem_of_In.
      * apply Forall_app. split.
        -- apply Forall_forall. intros a [s [-> Hs]]%list_elem_of_fmap.
           apply Hlow. by apply list_elem_of_In.
        -- eapply Forall_impl; [exact IHlower|].
           intros a Ha. simpl in Ha. by eapply num_le_trans.
Qed.

End TimingProperties.

(** X6. When every successful chunk that has segments reports a duration, and
    its segments start in order between 0 and that duration, the merged
    segments start in nondecreasing order. *)
Theorem reassemble_starts_sorted {num : Type} `{PyOrdered num}
    (chunk_results : list (@Transcription.PyDict num (@Transcription.Segment num))) :
  existsb Transcription.get_success chunk_results = true ->
  Forall Timing.well_timed
         (List.filter Transcription.get_success chunk_results) ->
  exists merged,
    Transcription.segments (Transcription.reassemble_transcription chunk_results)
    = Some merged
    /\ Timing.starts_sorted merged.
Proof.
  intros Hex Htimed. rewrite reassemble_some_success by done. cbn.
  eexists. split; [reflexivity|].
  by apply shifted_segments_sorted.
Qed.

Lemma reassemble_starts_sorted_witness :
  existsb Transcription.get_success Examples.middle_failed = true
  /\ Forall Timing.well_timed
            (List.filter Transcription.get_success Examples.middle_failed)
  /\ exists merged,
       Transcription.segments
         (Transcription.reassemble_transcription Examples.middle_failed)
       = Some merged
       /\ Timing.starts_sorted merged.
Proof.
  assert (Htimed : Forall Timing.well_timed
                     (List.filter Transcription.get_success
                        Examples.middle_failed)).
  { assert (Hone : forall i txt d,
              0 <= 10 <= d ->
              Timing.well_timed
                (Examples.chunk_success i txt (Some d) [Examples.seg 0 10 txt])).
    { intros i txt d Hd. right. exists d. split; [reflexivity|]. split.
      - repeat constructor.
      - constructor; [|constructor]. simpl. lia. }
    constructor; [apply Hone; lia|]. constructor; [apply Hone; lia|].
    constructor. }
  split; [reflexivity|]. split; [exact Htimed|].
  exact (reassemble_starts_sorted Examples.middle_failed eq_refl Htimed).
Defined.

(** Without a duration the order is lost: two chunks with a segment each
    and no duration are merged with the later segment first in time. *)
Lemma reassemble_starts_unsorted_without_duration :
  Transcription.segments
    (Transcription.reassemble_transcription
       [Examples.chunk_success 0 "a" None [Examples.seg 5 9 "a"];
        Examples.chunk_success 1 "b" None [Examples.seg 0 3 "b"]])
  = Some [Examples.seg 5 9 "a"; Examples.seg 0 3 "b"].
Proof. reflexivity. Qed.

(** ** The runner and the facade: results and progress *)

Section ResultShape.

Import Transcription.
Context {num : Type} `{PyNumber num} {World : Type}.
Variable open_rb : string -> World -> Result unit * World.
Variable create : Params -> World -> Result (@Response num) * World.
Implicit Types (st : @State World) (self : Service) (lang : option string).
Implicit Types (progress_callback : option (@Callback World)).
Implicit Types (r : @PyDict num (@Segment num)).

(** A dictionary with the keys its reader needs: ['success'], and with it
    ['text'] and ['segments'] when it holds [True], ['error'] and no ['text']
    when it holds [False]. *)
Local Abbreviation keyed r :=
  ((success r = Some true /\ is_Some (text r) /\ is_Some (segments r))
   \/ (success r = Some false /\ is_Some (error r) /\ text r = None)).

Lemma transcribe_audio_keyed self path lang prompt st r st' :
  transcribe_audio open_rb create self path lang prompt st = (Ok r, st') ->
  keyed r.
Proof.
  unfold transcribe_audio, try_except, transcribe_audio_try, bind, lift, ret.
  destruct (open_rb path (world st)) as [[[]|msg] w]; simpl.
  - destruct (create (request_params self path lang prompt) w)
      as [[response|msg] w']; simpl; intros [= <- <-]; simpl.
    + left. repeat split; by eexists.
    + right. repeat split; by eexists.
  - intros [= <- <-]. right. repeat split; by eexists.
Qed.

(** Whatever the callback does: when the loop of the runner returns, it has
    extended the results by one keyed result per remaining path, indexed
    from [i] on. *)
Lemma transcribe_chunks_loop_returned self lang progress_callback total :
  forall paths i results st out st',
    transcribe_chunks_loop open_rb create self lang progress_callback total
      i paths results st = (Ok out, st') ->
    exists new,
      out = results ++ new
      /\ map chunk_index new = map Some (seq i (length paths))
      /\ Forall (fun r => keyed r) new.
Proof.
  induction paths as [|path rest IH]; intros i results st out st'.
  - simpl. unfold ret. intros [= <- <-]. exists []. by rewrite app_nil_r.
  - cbn [transcribe_chunks_loop]. unfold bind at 1.
    destruct (notify progress_callback _ _ st) as [[[]|msg1] st1]; [|done].
    unfold bind at 1.
    destruct (transcribe_audio open_rb create self path lang None st1)
      as [[r|msg2] st2] eqn:Hrun; [|done].
    cbv zeta. unfold bind at 1.
    destruct (notify progress_callback _ _ st2) as [[[]|msg3] st3]; [|done].
    intros Hloop. apply IH in Hloop as (new & -> & Hidx & Hkeyed).
    exists (set_chunk_index r i :: new). rewrite <- app_assoc.
    split; [done|]. split; [simpl; by rewrite Hidx|].
    constructor; [|done]. apply transcribe_audio_keyed in Hrun. exact Hrun.
Qed.

Lemma reassemble_keyed (results : list (@PyDict num (@Segment num))) :
  keyed (reassemble_transcription results).
Proof.
  destruct (existsb get_success results) eqn:Hex.
  - rewrite reassemble_some_success by done. cbn. left.
    repeat split; by eexists.
  - rewrite reassemble_no_success by done. cbn. right.
    repeat split; by eexists.
Qed.

(** Whatever the callback does: when [transcribe_file] returns, the
    dictionary is keyed. *)
Lemma transcribe_file_returned self chunk_paths lang progress_callback st r st' :
  transcribe_file open_rb create self chunk_paths lang progress_callback st
  = (Ok r, st') ->
  keyed r.
Proof.
  destruct chunk_paths as [|p1 [|p2 rest]]; cbn [transcribe_file].
  - unfold ret. intros [= <- <-]. right. repeat split; by eexists.
  - unfold bind at 1.
    destruct (notify progress_callback _ _ st) as [[[]|msg1] st1]; [|done].
    unfold bind at 1.
    destruct (transcribe_audio open_rb create self p1 lang None st1)
      as [[r1|msg2] st2] eqn:Hrun; [|done].
    unfold bind at 1.
    destruct (notify progress_callback _ _ st2) as [[[]|msg3] st3]; [|done].
    unfold ret. intros [= <- <-]. by eapply transcribe_audio_keyed.
  - unfold bind at 1.
    destruct (notify progress_callback _ _ st) as [[[]|msg1] st1]; [|done].
    unfold bind at 1.
    destruct (transcribe_chunks_sequential open_rb create self (p1 :: p2 :: rest)
                lang progress_callback st1) as [[results|msg2] st2]; [|done].
    unfold bind at 1.
    destruct (notify progress_callback _ _ st2) as [[[]|msg3] st3]; [|done].
    cbv zeta. unfold bind at 1.
    destruct (notify progress_callback _ _ st3) as [[[]|msg4] st4]; [|done].
    unfold ret. intros [= <- <-]. apply reassemble_keyed.
Qed.

Lemma filter_everything {A} (l : list A) : List.filter (fun _ => true) l = l.
Proof. induction l as [|x l IH]; simpl; [done|]. by rewrite IH. Qed.

Lemma ascending_from (l : list (@PyDict num (@Segment num))) (p : _ -> bool) :
  forall i, map chunk_index l = map Some (seq i (length l)) ->
    ascending_index (List.filter p l) = true
    /\ Forall (fun r => (i <= index_key r)%nat) (List.filter p l).
Proof.
  induction l as [|r l IH]; intros i Hidx; simpl; [by split|].
  simpl in Hidx. injection Hidx as Hr Hrest.
  destruct (IH (S i) Hrest) as [IHasc IHlow].
  assert (Hlow : Forall (fun r' => (i <= index_key r')%nat) (List.filter p l)).
  { eapply Forall_impl; [exact IHlow|]. simpl. lia. }
  destruct (p r); [|by split].
  split.
  - simpl. rewrite IHasc, andb_true_r. apply forallb_forall.
    intros r' Hr'. rewrite Forall_forall in Hlow.
    unfold index_key at 1. rewrite Hr. simpl. apply Nat.leb_le.
    apply Hlow. by apply list_elem_of_In.
  - constructor; [|done]. unfold index_key. rewrite Hr. simpl. lia.
Qed.

End ResultShape.

(** X7. Whatever the chunk list is (empty, one chunk or several), and
    whatever the transcriber and the callback do: when [transcribe_file]
    returns a dictionary, the dictionary has the key ['success']; when that
    holds [True] it also has the keys ['text'] and ['segments'], and when it
    holds [False] it has the key ['error'] and no key ['text'].  These are
    the keys the calling page reads without a default. *)
Theorem transcribe_file_keys {num : Type} `{PyNumber num} {World : Type}
    (open_rb : string -> World -> Transcription.Result unit * World)
    (create : Transcription.Params -> World
              -> Transcription.Result (@Transcription.Response num) * World)
    (self : Transcription.Service) (chunk_paths : list string)
    (lang : option string)
    (progress_callback : option (@Transcription.Callback World))
    (st st' : @Transcription.State World)
    (r : @Transcription.PyDict num (@Transcription.Segment num)) :
  Transcription.transcribe_file open_rb create self chunk_paths lang
    progress_callback st = (Transcription.Ok r, st') ->
  (Transcription.success r = Some true
   /\ is_Some (Transcription.text r)
   /\ is_Some (Transcription.segments r))
  \/ (Transcription.success r = Some false
      /\ is_Some (Transcription.error r)
      /\ Transcription.text r = None).
Proof. apply transcribe_file_returned. Qed.

Lemma transcribe_file_keys_witness :
  exists r st',
    Transcription.transcribe_file Examples.open_ok Examples.scripted_create
      Examples.service ["a.mp3"; "b.mp3"] None (Some Examples.quiet)
      (Examples.start
         [Transcription.Raise "boom";
          Transcription.Ok (Examples.verbose_response "bye" 4 [])])
    = (Transcription.Ok r, st')
    /\ ((Transcription.success r = Some true
         /\ is_Some (Transcription.text r)
         /\ is_Some (Transcription.segments r))
        \/ (Transcription.success r = Some false
            /\ is_Some (Transcription.error r)
            /\ Transcription.text r = None)).
Proof.
  pose (run :=
          Transcription.transcribe_file Examples.open_ok Examples.scripted_create
            Examples.service ["a.mp3"; "b.mp3"] None (Some Examples.quiet)
            (Examples.start
               [Transcription.Raise "boom";
                Transcription.Ok (Examples.verbose_response "bye" 4 [])])).
  assert (Hrun : run
                 = (Transcription.Ok
                      (match fst run with
                       | Transcription.Ok r => r
                       | Transcription.Raise _ =>
                           Transcription.failure_result "" ""
                       end), snd run))
    by (vm_compute; reflexivity).
  eexists _, _. split; [exact Hrun|].
  exact (transcribe_file_keys Examples.open_ok Examples.scripted_create
           Examples.service ["a.mp3"; "b.mp3"] None (Some Examples.quiet)
           _ _ _ Hrun).
Defined.

(** X8. Whatever the callback does: when the runner returns, its results are
    listed in index order.  The indices are [0 .. N-1] in list order, so
    sorting the results, or the successful results, by index changes
    nothing; and when no successful text is empty, the text joined in list
    order is the text joined in index order, which is then the text that
    [reassemble_transcription] gives when some chunk succeeded. *)
Theorem runner_output_in_index_order {num : Type} `{PyNumber num} {World : Type}
    (open_rb : string -> World -> Transcription.Result unit * World)
    (create : Transcription.Params -> World
              -> Transcription.Result (@Transcription.Response num) * World)
    (self : Transcription.Service) (chunk_paths : list string)
    (lang : option string)
    (progress_callback : option (@Transcription.Callback World))
    (st st' : @Transcription.State World)
    (results : list (@Transcription.PyDict num (@Transcription.Segment num))) :
  Transcription.transcribe_chunks_sequential open_rb create self chunk_paths
    lang progress_callback st = (Transcription.Ok results, st') ->
  map Transcription.chunk_index results = map Some (seq 0 (length chunk_paths))
  /\ Transcription.sort_by_index results = results
  /\ Transcription.sort_by_index (List.filter Transcription.get_success results)
     = List.filter Transcription.get_success results
  /\ (forallb Transcription.has_text
              (List.filter Transcription.get_success results) = true ->
      Transcription.text_in_list_order results
      = Transcription.text_in_index_order results
      /\ (existsb Transcription.get_success results = true ->
          Transcription.text (Transcription.reassemble_transcription results)
          = Some (Transcription.text_in_index_order results))).
Proof.
  intros Hrun.
  unfold Transcription.transcribe_chunks_sequential in Hrun. cbv zeta in Hrun.
  apply transcribe_chunks_loop_returned in Hrun as (new & -> & Hidx & _).
  simpl app.
  assert (Hlen : length new = length chunk_paths).
  { rewrite <- (length_map Transcription.chunk_index), Hidx, length_map.
    apply length_seq. }
  split; [exact Hidx|].
  rewrite <- Hlen in Hidx.
  destruct (ascending_from new Transcription.get_success 0%nat Hidx)
    as [Hasc _].
  destruct (ascending_from new (fun _ => true) 0%nat Hidx) as [Hall _].
  rewrite filter_everything in Hall.
  split; [by apply sort_ascending|].
  split; [by apply sort_ascending|].
  intros Htext. split.
  - unfold Transcription.text_in_list_order, Transcription.text_in_index_order.
    by rewrite sort_ascending, filter_all.
  - intros Hex. by apply reassemble_text_index_order.
Qed.

Lemma runner_output_in_index_order_witness :
  exists results st',
    Transcription.transcribe_chunks_sequential Examples.open_ok
      Examples.scripted_create Examples.service ["a.mp3"; "b.mp3"; "c.mp3"]
      None None
      (Examples.start
         [Transcription.Ok (Examples.verbose_response "hi" 3 []);
          Transcription.Raise "boom";
          Transcription.Ok (Examples.verbose_response "" 4 [])])
    = (Transcription.Ok results, st')
    /\ map Transcription.chunk_index results = [Some 0; Some 1; Some 2]%nat
    /\ Transcription.sort_by_index results = results
    /\ Transcription.sort_by_index
         (List.filter Transcription.get_success results)
       = List.filter Transcription.get_success results.
Proof.
  pose (run :=
          Transcription.transcribe_chunks_sequential Examples.open_ok
            Examples.scripted_create Examples.service
            ["a.mp3"; "b.mp3"; "c.mp3"] None None
            (Examples.start
               [Transcription.Ok (Examples.verbose_response "hi" 3 []);
                Transcription.Raise "boom";
                Transcription.Ok (Examples.verbose_response "" 4 [])])).
  assert (Hrun : run
                 = (Transcription.Ok
                      (match fst run with
                       | Transcription.Ok l => l
                       | Transcription.Raise _ => []
                       end), snd run))
    by (vm_compute; reflexivity).
  eexists _, _. split; [exact Hrun|].
  destruct (runner_output_in_index_order Examples.open_ok
              Examples.scripted_create Examples.service
              ["a.mp3"; "b.mp3"; "c.mp3"] None None _ _ _ Hrun)
    as (Hidx & Hsort & Hsorts & _).
  split; [exact Hidx|]. split; [exact Hsort | exact Hsorts].
Defined.

Lemma loop_fractions_length (total_chunks n i : nat) :
  length (Transcription.loop_fractions total_chunks i n) = (2 * n)%nat.
Proof.
  revert i. induction n as [|n IH]; intros i; simpl; [done|].
  rewrite IH. lia.
Qed.

(** X9. The runner alone reports progress in order: with a callback that
    returns it makes two calls per chunk, every fraction lies between 0 and
    1, and the fractions never decrease. *)
Theorem runner_progress_monotone {num : Type} `{PyNumber num} {World : Type}
    (open_rb : string -> World -> Transcription.Result unit * World)
    (create : Transcription.Params -> World
              -> Transcription.Result (@Transcription.Response num) * World)
    (self : Transcription.Service) (chunk_paths : list string)
    (lang : option string) (f : @Transcription.Callback World)
    (st : @Transcription.State World) :
  Transcription.callback_returns (Some f) ->
  exists results st' new,
    Transcription.transcribe_chunks_sequential open_rb create self chunk_paths
      lang (Some f) st = (Transcription.Ok results, st')
    /\ Transcription.fractions st' = Transcription.fractions st ++ new
    /\ length new = (2 * length chunk_paths)%nat
    /\ Forall Transcription.in_unit_interval new
    /\ Transcription.nondecreasing new = true.
Proof.
  intros Hcb.
  destruct (transcribe_chunks_loop_spec open_rb create self lang
              (Some f) (length chunk_paths) Hcb chunk_paths 0%nat [] st)
    as (results & st' & Hloop & _ & Hfr).
  eexists results, st', _. split; [exact Hloop|]. split; [exact Hfr|].
  split; [apply loop_fractions_length|].
  split.
  - destruct chunk_paths as [|p rest]; [constructor|].
    apply loop_fractions_unit; simpl; lia.
  - apply loop_fractions_nondecreasing.
Qed.

Lemma runner_progress_monotone_witness :
  Transcription.callback_returns (Some Examples.quiet)
  /\ exists results st',
       Transcription.transcribe_chunks_sequential Examples.open_ok
         Examples.scripted_create Examples.service ["a.mp3"; "b.mp3"] None
         (Some Examples.quiet)
         (Examples.start
            [Transcription.Ok (Examples.verbose_response "hi" 3 []);
             Transcription.Ok (Examples.verbose_response "bye" 4 [])])
       = (Transcription.Ok results, st')
       /\ Transcription.nondecreasing (Transcription.fractions st') = true.
Proof.
  assert (Hcb : Transcription.callback_returns (Some Examples.quiet)).
  { intros fraction message w. by exists w. }
  split; [exact Hcb|].
  destruct (runner_progress_monotone Examples.open_ok Examples.scripted_create
              Examples.service ["a.mp3"; "b.mp3"] None Examples.quiet
              (Examples.start
                 [Transcription.Ok (Examples.verbose_response "hi" 3 []);
                  Transcription.Ok (Examples.verbose_response "bye" 4 [])])
              Hcb) as (results & st' & new & Hrun & Hfr & _ & _ & Hmono).
  exists results, st'. split; [exact Hrun|].
  rewrite Hfr. exact Hmono.
Defined.

(** ** The calls of the backend *)

Section CallLogProperties.

Import Transcription CallLog.
Context {num : Type} `{PyNumber num} {World : Type}.
Variable open_rb : string -> World -> Result unit * World.
Variable create : Params -> World -> Result (@Response num) * World.
Implicit Types (st : @State (World * list Params)) (self : Service).
Implicit Types (lang : option string) (cb : option (@Callback World)).

Local Abbreviation lopen := (logged_open open_rb).
Local Abbreviation lcreate := (logged_create create).
Local Abbreviation lifted cb := (logged_callback <$> cb).
Local Abbreviation opens_ok :=
  (forall path w, exists w', open_rb path w = (Ok tt, w')).

Lemma notify_calls cb fraction message st :
  calls (snd (notify (lifted cb) fraction message st)) = calls st.
Proof.
  destruct cb as [f|]; simpl; [|done].
  unfold lift, logged_callback, calls. simpl.
  by destruct (f fraction message (fst (world st))) as [r w'].
Qed.

Lemma notify_lifted_returns cb fraction message st :
  callback_returns cb ->
  exists st', notify (lifted cb) fraction message st = (Ok tt, st').
Proof.
  destruct cb as [f|]; simpl; intros Hcb; [|by eexists].
  unfold lift, logged_callback. simpl.
  destruct (Hcb fraction message (fst (world st))) as [w' ->]. by eexists.
Qed.

(** [transcribe_audio] calls the backend once when the file opens, and not
    at all when it does not. *)
Lemma transcribe_audio_calls self path lang prompt st :
  exists r st' (opened : bool),
    transcribe_audio lopen lcreate self path lang prompt st = (Ok r, st')
    /\ calls st'
       = calls st
         ++ (if opened then [request_params self path lang prompt] else [])
    /\ (opens_ok -> opened = true).
Proof.
  unfold transcribe_audio, try_except, transcribe_audio_try, bind, lift, ret,
    logged_open, logged_create, calls.
  destruct (open_rb path (fst (world st))) as [[[]|msg] w] eqn:Hopen; simpl.
  - destruct (create (request_params self path lang prompt) w)
      as [[response|msg] w']; simpl;
      (do 2 eexists); exists true; (split; [reflexivity|]); by split.
  - do 2 eexists. exists false. split; [reflexivity|]. simpl.
    rewrite app_nil_r. split; [done|].
    intros Hok. destruct (Hok path (fst (world st))) as [w' Hw'].
    congruence.
Qed.

Lemma transcribe_chunks_loop_calls self lang cb total paths :
  forall i results st,
  exists opened,
    sublist opened paths
    /\ calls (snd (transcribe_chunks_loop lopen lcreate self lang (lifted cb)
                     total i paths results st))
       = calls st ++ map (fun p => request_params self p lang None) opened
    /\ (opens_ok -> callback_returns cb ->
        opened = paths
        /\ exists rs,
             fst (transcribe_chunks_loop lopen lcreate self lang (lifted cb)
                    total i paths results st) = Ok rs).
Proof.
  induction paths as [|path rest IH]; intros i results st.
  - exists []. simpl. rewrite app_nil_r.
    split; [constructor|]. split; [done|]. intros _ _. split; [done|].
    by eexists.
  - pose proof (notify_calls cb (fraction_of i total)
                  ("Transcribing chunk " +:+ Py.str_of_nat (i + 1) +:+ "/"
                     +:+ Py.str_of_nat total +:+ "...") st) as Hc1.
    destruct (notify (lifted cb) (fraction_of i total)
                ("Transcribing chunk " +:+ Py.str_of_nat (i + 1) +:+ "/"
                   +:+ Py.str_of_nat total +:+ "...") st)
      as [[[]|msg] st1] eqn:Hn1; simpl in Hc1.
    2:{ assert (Heq : transcribe_chunks_loop lopen lcreate self lang (lifted cb)
                        total i (path :: rest) results st = (Raise msg, st1)).
        { cbn [transcribe_chunks_loop]. unfold bind at 1. by rewrite Hn1. }
        rewrite Heq. exists []. simpl. rewrite Hc1, app_nil_r.
        split; [apply sublist_nil_l|]. split; [done|].
        intros _ Hcb.
        destruct (notify_lifted_returns cb (fraction_of i total)
                    ("Transcribing chunk " +:+ Py.str_of_nat (i + 1) +:+ "/"
                       +:+ Py.str_of_nat total +:+ "...") st Hcb) as [st1' Hn].
        congruence. }
    destruct (transcribe_audio_calls self path lang None st1)
      as (r & st2 & opened1 & Hrun & Hc2 & Hok2).
    pose proof (notify_calls cb (fraction_of (i + 1) total)
                  ("Transcribed chunk " +:+ Py.str_of_nat (i + 1) +:+ "/"
                     +:+ Py.str_of_nat total) st2) as Hc3.
    destruct (notify (lifted cb) (fraction_of (i + 1) total)
                ("Transcribed chunk " +:+ Py.str_of_nat (i + 1) +:+ "/"
                   +:+ Py.str_of_nat total) st2)
      as [[[]|msg] st3] eqn:Hn3; simpl in Hc3.
    2:{ assert (Heq : transcribe_chunks_loop lopen lcreate self lang (lifted cb)
                        total i (path :: rest) results st = (Raise msg, st3)).
        { cbn [transcribe_chunks_loop]. unfold bind at 1. rewrite Hn1.
          unfold bind at 1. rewrite Hrun. cbv zeta. unfold bind at 1.
          by rewrite Hn3. }
        rewrite Heq. exists (if opened1 then [path] else []). simpl.
        rewrite Hc3, Hc2, Hc1.
        split; [destruct opened1;
                [apply sublist_skip, sublist_nil_l | apply sublist_nil_l]|].
        split; [by destruct opened1|].
        intros _ Hcb.
        destruct (notify_lifted_returns cb (fraction_of (i + 1) total)
                    ("Transcribed chunk " +:+ Py.str_of_nat (i + 1) +:+ "/"
                       +:+ Py.str_of_nat total) st2 Hcb) as [st3' Hn].
        congruence. }
    assert (Heq : transcribe_chunks_loop lopen lcreate self lang (lifted cb)
                    total i (path :: rest) results st
                  = transcribe_chunks_loop lopen lcreate self lang (lifted cb)
                      total (S i) rest (results ++ [set_chunk_index r i]) st3).
    { cbn [transcribe_chunks_loop]. unfold bind at 1. rewrite Hn1.
      unfold bind at 1. rewrite Hrun. cbv zeta. unfold bind at 1.
      by rewrite Hn3. }
    rewrite Heq.
    destruct (IH (S i) (results ++ [set_chunk_index r i]) st3)
      as (opened & Hsub & Hcalls & Hall).
    exists ((if opened1 then [path] else []) ++ opened).
    split.
    { destruct opened1; simpl; [by apply sublist_skip | by apply sublist_cons]. }
    split.
    { rewrite Hcalls, Hc3, Hc2, Hc1, map_app, <- app_assoc.
      by destruct opened1. }
    intros Hok Hcb. destruct (Hall Hok Hcb) as [-> Hrs].
    rewrite (Hok2 Hok). by split.
Qed.

End CallLogProperties.


(** X12. When every chunk file opens and the callback returns, the runner calls
    the backend exactly once per chunk, in chunk order, whether the calls
    succeed or raise. *)
Theorem runner_calls_once_per_chunk {num : Type} `{PyNumber num} {World : Type}
    (open_rb : string -> World -> Transcription.Result unit * World)
    (create : Transcription.Params -> World
              -> Transcription.Result (@Transcription.Response num) * World)
    (self : Transcription.Service) (chunk_paths : list string)
    (lang : option string) (cb : option (@Transcription.Callback World))
    (st : @Transcription.State (World * list Transcription.Params)) :
  (forall path w, exists w', open_rb path w = (Transcription.Ok tt, w')) ->
  Transcription.callback_returns cb ->
  CallLog.calls
    (snd (Transcription.transcribe_chunks_sequential
            (CallLog.logged_open open_rb) (CallLog.logged_create create) self
            chunk_paths lang (CallLog.logged_callback <$> cb) st))
  = CallLog.calls st
    ++ map (fun p => Transcription.request_params self p lang None) chunk_paths.
Proof.
  intros Hok Hcb. unfold Transcription.transcribe_chunks_sequential. cbv zeta.
  destruct (transcribe_chunks_loop_calls open_rb create self lang cb
              (length chunk_paths) chunk_paths 0%nat [] st)
    as (opened & _ & Hcalls & Hall).
  destruct (Hall Hok Hcb) as [-> _]. exact Hcalls.
Qed.

Lemma runner_calls_once_per_chunk_witness :
  (forall path w, exists w', Examples.open_ok path w = (Transcription.Ok tt, w'))
  /\ Transcription.callback_returns (Some Examples.quiet)
  /\ map Transcription.p_file
       (CallLog.calls
          (snd (Transcription.transcribe_chunks_sequential
                  (CallLog.logged_open Examples.open_ok)
                  (CallLog.logged_create Examples.scripted_create)
                  Examples.service ["a.mp3"; "b.mp3"] None
                  (CallLog.logged_callback <$> Some Examples.quiet)
                  {| Transcription.world := ([Transcription.Raise "boom"], []);
                     Transcription.observed := [] |})))
     = ["a.mp3"; "b.mp3"].
Proof.
  assert (Hok : forall path w,
             exists w', Examples.open_ok path w = (Transcription.Ok tt, w'))
    by (intros path w; by exists w).
  assert (Hcb : Transcription.callback_returns (Some Examples.quiet))
    by (intros fraction message w; by exists w).
  split; [exact Hok|]. split; [exact Hcb|].
  rewrite (runner_calls_once_per_chunk Examples.open_ok Examples.scripted_create
             Examples.service ["a.mp3"; "b.mp3"] None (Some Examples.quiet)
             _ Hok Hcb).
  reflexivity.
Defined.

(** ** Strings and paths *)

Section StringFacts.

Import Stdlib.Strings.Ascii.

Lemma append_length (s t : string) :
  String.length (s +:+ t) = (String.length s + String.length t)%nat.
Proof. induction s as [|c s IH]; simpl; [done|]. by rewrite IH. Qed.

Lemma append_inj_l (s x y : string) : s +:+ x = s +:+ y -> x = y.
Proof. induction s as [|c s IH]; simpl; [done|]. intros [= Heq]. by apply IH. Qed.

Lemma append_inj_r (t : string) :
  forall x y : string, x +:+ t = y +:+ t -> x = y.
Proof.
  assert (Hlen : forall x y : string, x +:+ t = y +:+ t ->
                   String.length x = String.length y).
  { intros x y Heq. apply (f_equal String.length) in Heq.
    rewrite !append_length in Heq. lia. }
  induction x as [|c x IH]; intros [|d y] Heq; try done.
  - apply Hlen in Heq. done.
  - apply Hlen in Heq. done.
  - simpl in Heq. injection Heq as -> Heq. f_equal. by apply IH.
Qed.

Lemma substring_all (s : string) : String.substring 0 (String.length s) s = s.
Proof. induction s as [|c s IH]; simpl; [done|]. by rewrite IH. Qed.

Lemma substring_split (s : string) :
  forall n, (n <= String.length s)%nat ->
    String.substring 0 n s +:+ String.substring n (String.length s - n) s = s.
Proof.
  induction s as [|c s IH]; intros [|n] Hn; simpl in *; try lia; try done.
  - by rewrite substring_all.
  - change (String c (String.substring 0 n s
                        +:+ String.substring n (String.length s - n) s)
            = String c s).
    f_equal. apply IH. lia.
Qed.

(** [s.endswith(suffix)] holds only when [s] ends with [suffix]. *)
Lemma endswith_suffix (s suffix : string) :
  PyStr.endswith s suffix = true -> exists stem, s = stem +:+ suffix.
Proof.
  unfold PyStr.endswith. cbv zeta.
  intros [Hle Heq]%andb_true_iff. apply Nat.leb_le in Hle.
  apply String.eqb_eq in Heq.
  exists (String.substring 0 (String.length s - String.length suffix) s).
  pose proof (substring_split s (String.length s - String.length suffix)
                ltac:(lia)) as Hsplit.
  replace (String.length s - (String.length s - String.length suffix))%nat
    with (String.length suffix) in Hsplit by lia.
  rewrite Heq in Hsplit. by symmetry.
Qed.

Lemma lower_upper_ascii (c : ascii) :
  PyStr.lower_ascii (PyStr.upper_ascii c) = PyStr.lower_ascii c.
Proof. destruct c as [[] [] [] [] [] [] [] []]; reflexivity. Qed.

Lemma lower_upper (s : string) : PyStr.lower (PyStr.upper s) = PyStr.lower s.
Proof.
  induction s as [|c s IH]; simpl; [done|]. by rewrite lower_upper_ascii, IH.
Qed.

Lemma lower_lower_ascii (c : ascii) :
  PyStr.lower_ascii (PyStr.lower_ascii c) = PyStr.lower_ascii c.
Proof. destruct c as [[] [] [] [] [] [] [] []]; reflexivity. Qed.

Lemma lower_lower (s : string) : PyStr.lower (PyStr.lower s) = PyStr.lower s.
Proof.
  induction s as [|c s IH]; simpl; [done|]. by rewrite lower_lower_ascii, IH.
Qed.

(** [str(n)] determines [n]. *)
Lemma str_of_nat_inj (n m : nat) : Py.str_of_nat n = Py.str_of_nat m -> n = m.
Proof.
  unfold Py.str_of_nat. intros Heq.
  assert (Hnonnil : forall k, Nat.to_uint k <> Decimal.Nil).
  { intros k. rewrite <- (DecimalNat.Unsigned.of_to k) at 1.
    rewrite DecimalNat.Unsigned.to_of. apply DecimalFacts.unorm_nonnil. }
  apply (f_equal NilZero.uint_of_string) in Heq.
  rewrite !NilZero.usu in Heq by apply Hnonnil.
  injection Heq as Heq. by apply DecimalNat.Unsigned.to_uint_inj.
Qed.

Lemma path_join_inj (a b1 b2 : string) :
  PyStr.startswith_sep b1 = PyStr.startswith_sep b2 ->
  PyStr.path_join a b1 = PyStr.path_join a b2 -> b1 = b2.
Proof.
  unfold PyStr.path_join. intros ->.
  destruct (PyStr.startswith_sep b2); [done|].
  destruct (negb (Py.truthy_str a) || PyStr.endswith_sep a).
  - apply append_inj_l.
  - intros Heq. apply append_inj_l in Heq. by apply append_inj_l in Heq.
Qed.

End StringFacts.

(** ** Validation of uploads *)

(** X13. A file that [validate_audio_file] accepts is present and not empty, its
    name ends with [.mp3] once lowered, the message is the one of a valid
    file, and the file object is left with its cursor at the start and its
    name and content unchanged. *)
Theorem validate_audio_file_accepts
    (file file' : option Upload.UploadedFile) (message : string) :
  Upload.validate_audio_file file = ((true, message), file') ->
  exists f stem,
    file = Some f
    /\ PyStr.lower (Upload.name f) = stem +:+ ".mp3"
    /\ Upload.getvalue f <> []
    /\ message = "File is valid"
    /\ file' = Some {| Upload.name := Upload.name f;
                       Upload.getvalue := Upload.getvalue f;
                       Upload.position := 0 |}.
Proof.
  unfold Upload.validate_audio_file. destruct file as [f|]; [|done].
  destruct (PyStr.endswith (PyStr.lower (Upload.name f)) ".mp3") eqn:Hext;
    simpl; [|done].
  destruct (Z.eqb_spec (Z.of_nat (length (Upload.getvalue f))) 0) as [|Hsize];
    [done|].
  intros [= <- <-].
  destruct (endswith_suffix _ _ Hext) as [stem Hstem].
  exists f, stem. repeat split; try done.
  intros Hempty. rewrite Hempty in Hsize. done.
Qed.

Lemma validate_audio_file_accepts_witness :
  Upload.validate_audio_file (Some UploadExamples.song)
  = ((true, "File is valid"),
     Some {| Upload.name := "Song.MP3";
             Upload.getvalue := [Byte.x01; Byte.x02; Byte.x03];
             Upload.position := 0 |})
  /\ exists stem, PyStr.lower "Song.MP3" = stem +:+ ".mp3".
Proof.
  split; [reflexivity|].
  destruct (validate_audio_file_accepts (Some UploadExamples.song) _ _ eq_refl)
    as (f & stem & [= <-] & Hstem & _).
  by exists stem.
Defined.

(** X14. The verdict and the message of [validate_audio_file] do not depend on
    the case of the letters of the file name. *)
Theorem validate_audio_file_ignores_case (f : Upload.UploadedFile) :
  fst (Upload.validate_audio_file
         (Some {| Upload.name := PyStr.upper (Upload.name f);
                  Upload.getvalue := Upload.getvalue f;
                  Upload.position := Upload.position f |}))
  = fst (Upload.validate_audio_file (Some f))
  /\ fst (Upload.validate_audio_file
            (Some {| Upload.name := PyStr.lower (Upload.name f);
                     Upload.getvalue := Upload.getvalue f;
                     Upload.position := Upload.position f |}))
     = fst (Upload.validate_audio_file (Some f)).
Proof.
  unfold Upload.validate_audio_file. simpl.
  rewrite lower_upper, lower_lower.
  destruct (PyStr.endswith (PyStr.lower (Upload.name f)) ".mp3"); simpl;
    [|done].
  by destruct (Z.of_nat (length (Upload.getvalue f)) =? 0).
Qed.

(** ** Saving chunks and processing a file *)

Section UploadProperties.

Import Transcription Upload.
Context {Frame : Type} {World : Type}.
Variable channels sample_width frame_rate raw_size : list Frame -> Z.
Variable mkdtemp : World -> Result string * World.
Variable write_bytes : string -> list Byte.byte -> World -> Result unit * World.
Variable from_mp3 : string -> World -> Result (list Frame) * World.
Variable export :
  list Frame -> string -> string -> string -> World -> Result unit * World.
Implicit Types (st : @State World) (self : Processor).
Implicit Types (cb : option (@Callback World)).

Local Abbreviation save_chunks_loop := (save_chunks_loop export).
Local Abbreviation save_chunks := (save_chunks export).
Local Abbreviation load_audio := (load_audio write_bytes from_mp3).
Local Abbreviation process_file :=
  (process_file channels sample_width frame_rate raw_size write_bytes from_mp3
     export).
Local Abbreviation get_audio_info :=
  (get_audio_info channels sample_width frame_rate raw_size).
Local Abbreviation process_batch_loop :=
  (process_batch_loop channels sample_width frame_rate raw_size write_bytes
     from_mp3 export).
Local Abbreviation process_batch_files :=
  (process_batch_files channels sample_width frame_rate raw_size mkdtemp
     write_bytes from_mp3 export).

(** The path of chunk number [i]. *)
Local Abbreviation chunk_path self base_name :=
  (fun i => PyStr.path_join (temp_dir self) (chunk_filename base_name i)).

Lemma chunk_filename_head base_name i j :
  PyStr.startswith_sep (chunk_filename base_name i)
  = PyStr.startswith_sep (chunk_filename base_name j).
Proof. unfold chunk_filename. by destruct base_name. Qed.

(** Two chunks of one file never share a path. *)
Lemma chunk_path_inj self base_name i j :
  chunk_path self base_name i = chunk_path self base_name j -> i = j.
Proof.
  intros Heq. apply path_join_inj in Heq; [|apply chunk_filename_head].
  unfold chunk_filename in Heq.
  do 2 apply append_inj_l in Heq. apply append_inj_r in Heq.
  apply str_of_nat_inj in Heq. lia.
Qed.

Lemma chunk_paths_NoDup self base_name i n :
  NoDup (map (chunk_path self base_name) (seq i n)).
Proof.
  apply NoDup_fmap_2_strong; [|apply NoDup_seq].
  intros a b _ _. apply chunk_path_inj.
Qed.

Lemma lift_observed {A} (f : World -> Result A * World) st :
  observed (snd (lift f st)) = observed st.
Proof. unfold lift. by destruct (f (world st)). Qed.

Lemma save_chunks_loop_paths self base_name chunks :
  forall i chunk_paths st paths st',
    save_chunks_loop self base_name i chunks chunk_paths st = (Ok paths, st') ->
    paths = chunk_paths ++ map (chunk_path self base_name) (seq i (length chunks)).
Proof.
  induction chunks as [|chunk rest IH]; intros i chunk_paths st paths st'.
  - simpl. unfold ret. intros [= <- <-]. by rewrite app_nil_r.
  - cbn [Upload.save_chunks_loop]. unfold bind at 1.
    destruct (lift _ st) as [[[]|msg] st1]; [|done].
    intros Hrest. apply IH in Hrest. rewrite Hrest, <- app_assoc. done.
Qed.

Lemma save_chunks_loop_observed self base_name chunks :
  forall i chunk_paths st,
    observed (snd (save_chunks_loop self base_name i chunks chunk_paths st))
    = observed st.
Proof.
  induction chunks as [|chunk rest IH]; intros i chunk_paths st; [done|].
  cbn [Upload.save_chunks_loop]. unfold bind at 1.
  pose proof (lift_observed
                (export chunk (chunk_path self base_name i) "mp3" "128k") st)
    as Hobs.
  destruct (lift _ st) as [[[]|msg] st1]; simpl in Hobs; [|done].
  by rewrite IH.
Qed.

End UploadProperties.

(** X15. When [save_chunks] returns, it returns one path per chunk, in chunk
    order: the path of chunk [i] is the temporary directory joined with
    [<base>_chunk_<i+1>.mp3], where [<base>] is the file name without its
    extension; no two chunks share a path. *)
Theorem save_chunks_paths {Frame World : Type}
    (export : list Frame -> string -> string -> string -> World
              -> Transcription.Result unit * World)
    (self : Upload.Processor) (chunks : list (list Frame))
    (base_filename : string) (st st' : @Transcription.State World)
    (paths : list string) :
  Upload.save_chunks export self chunks base_filename st
  = (Transcription.Ok paths, st') ->
  paths
  = map (fun i =>
           PyStr.path_join (Upload.temp_dir self)
             (fst (PyStr.splitext base_filename) +:+ "_chunk_"
                +:+ Py.str_of_nat (i + 1) +:+ ".mp3"))
        (seq 0 (length chunks))
  /\ length paths = length chunks
  /\ NoDup paths.
Proof.
  unfold Upload.save_chunks. cbv zeta. intros Hrun.
  apply save_chunks_loop_paths in Hrun. simpl in Hrun.
  split; [exact Hrun|].
  split; [by rewrite Hrun, length_map, length_seq|].
  rewrite Hrun. apply chunk_paths_NoDup.
Qed.

(** ** Saving chunks in the in-memory file system *)

Section MemFSProperties.

Import Transcription Upload MemFS.
Context {Frame : Type}.
Variable channels sample_width frame_rate raw_size : list Frame -> Z.
Variable decode : list Byte.byte -> Result (list Frame).
Implicit Types (st : @State (gmap string (@Stored Frame))) (self : Processor).

Local Abbreviation chunk_path self base_name :=
  (fun i => PyStr.path_join (temp_dir self) (chunk_filename base_name i)).

Lemma mem_save_chunks_loop self base_name chunks :
  forall i chunk_paths st,
  exists st',
    save_chunks_loop mem_export self base_name i chunks chunk_paths st
    = (Ok (chunk_paths
             ++ map (chunk_path self base_name) (seq i (length chunks))), st')
    /\ observed st' = observed st
    /\ (forall (k : nat) chunk, chunks !! k = Some chunk ->
          world st' !! chunk_path self base_name (i + k)%nat
          = Some (Encoded chunk "mp3" "128k"))
    /\ (forall p, (forall k : nat, (k < length chunks)%nat ->
                     p <> chunk_path self base_name (i + k)%nat) ->
          world st' !! p = world st !! p).
Proof.
  induction chunks as [|chunk rest IH]; intros i chunk_paths st.
  - exists st. simpl. unfold ret. rewrite app_nil_r. by repeat split.
  - cbn [save_chunks_loop]. unfold bind at 1, lift at 1, mem_export at 1.
    set (st1 := {| world := <[chunk_path self base_name i
                              := Encoded chunk "mp3" "128k"]> (world st);
                   observed := observed st |}).
    destruct (IH (S i) (chunk_paths ++ [chunk_path self base_name i]) st1)
      as (st' & Hrun & Hobs & Hstored & Hother).
    exists st'. rewrite Hrun, <- app_assoc. split; [done|]. split; [done|].
    split.
    + intros [|k] c Hk; simpl in Hk.
      * injection Hk as <-. rewrite Nat.add_0_r, Hother.
        -- subst st1. simpl. apply lookup_insert_eq.
        -- intros k _ Heq. apply chunk_path_inj in Heq. lia.
      * replace (i + S k)%nat with (S i + k)%nat by lia. by apply Hstored.
    + intros p Hp. rewrite Hother.
      * subst st1. simpl. apply lookup_insert_ne.
        intros Heq. apply (Hp 0%nat); [simpl; lia|].
        by rewrite Nat.add_0_r.
      * intros k Hk. replace (S i + k)%nat with (i + S k)%nat by lia.
        apply Hp. simpl. lia.
Qed.

End MemFSProperties.

(** X16. In the in-memory file system, [save_chunks] stores every chunk under
    its own path: after the call the path returned for chunk [i] holds
    chunk [i], exported as mp3 at 128k, and every other path holds what it
    held before. *)
Theorem save_chunks_round_trip {Frame : Type}
    (self : Upload.Processor) (chunks : list (list Frame))
    (base_filename : string)
    (st : @Transcription.State (gmap string (@MemFS.Stored Frame))) :
  exists paths st',
    Upload.save_chunks MemFS.mem_export self chunks base_filename st
    = (Transcription.Ok paths, st')
    /\ length paths = length chunks
    /\ (forall i chunk, chunks !! i = Some chunk ->
          exists path,
            paths !! i = Some path
            /\ Transcription.world st' !! path
               = Some (MemFS.Encoded chunk "mp3" "128k"))
    /\ (forall p, p ∉ paths ->
          Transcription.world st' !! p = Transcription.world st !! p).
Proof.
  unfold Upload.save_chunks. cbv zeta.
  destruct (mem_save_chunks_loop self (fst (PyStr.splitext base_filename))
              chunks 0%nat [] st) as (st' & Hrun & _ & Hstored & Hother).
  eexists _, st'. split; [exact Hrun|]. simpl.
  split; [by rewrite length_map, length_seq|].
  split.
  - intros i chunk Hi. eexists. split; [|by apply (Hstored i)].
    rewrite list_lookup_fmap, lookup_seq_lt; [done|].
    by apply lookup_lt_Some in Hi.
  - intros p Hp. apply Hother. intros k Hk ->. apply Hp.
    apply list_elem_of_fmap. exists k. split; [done|].
    apply elem_of_seq. lia.
Qed.

Lemma save_chunks_paths_witness :
  exists st',
    Upload.save_chunks MemFS.mem_export UploadExamples.processor
      [[1; 2]; [3]]%nat "Song.MP3" UploadExamples.no_files
    = (Transcription.Ok ["/tmp/tmpab12/Song_chunk_1.mp3";
                         "/tmp/tmpab12/Song_chunk_2.mp3"], st')
    /\ NoDup ["/tmp/tmpab12/Song_chunk_1.mp3"; "/tmp/tmpab12/Song_chunk_2.mp3"].
Proof.
  destruct (Upload.save_chunks MemFS.mem_export UploadExamples.processor
              [[1; 2]; [3]]%nat "Song.MP3" UploadExamples.no_files)
    as [r st'] eqn:Hrun.
  assert (Hr : r = Transcription.Ok ["/tmp/tmpab12/Song_chunk_1.mp3";
                                     "/tmp/tmpab12/Song_chunk_2.mp3"]).
  { apply (f_equal fst) in Hrun. vm_compute in Hrun. by symmetry. }
  subst r. exists st'. split; [reflexivity|].
  exact (proj2 (proj2 (save_chunks_paths MemFS.mem_export
                         UploadExamples.processor [[1; 2]; [3]]%nat "Song.MP3"
                         UploadExamples.no_files st' _ Hrun))).
Defined.

(** ** Processing a file in the in-memory file system *)

Section ProcessFileMem.

Import Transcription Upload MemFS.
Context {Frame : Type}.
Variable channels sample_width frame_rate raw_size : list Frame -> Z.
Variable decode : list Byte.byte -> Result (list Frame).
Implicit Types (st : @State (gmap string (@Stored Frame))) (self : Processor).

Local Abbreviation mem_process_file :=
  (process_file channels sample_width frame_rate raw_size mem_write
     (mem_from_mp3 decode) mem_export).

(** The fixed partition never fails: its chunks are the slices of the audio
    along the ten-minute spans, which are contiguous and cover the audio
    from 0 to its full length. *)
Lemma chunk_audio_by_size_spans (audio : list Frame) (max_size_bytes : Z) :
  exists spans,
    Audio.chunk_spans (Audio.len audio) 600000 = Some spans
    /\ Audio.span_chain 0 spans (Audio.len audio)
    /\ Z.of_nat (length spans) = Audio.ceil_div (Audio.len audio) 600000
    /\ Audio.chunk_audio_by_size audio max_size_bytes
       = Some (map (fun '(s, e) => Audio.slice audio s e) spans).
Proof.
  assert (HD : 0 <= Audio.len audio) by (unfold Audio.len; lia).
  assert (Hspans : Audio.chunk_spans (Audio.len audio) 600000
                   = Some (map (Audio.span_at 600000 (Audio.len audio))
                             (Py.range_up (Z.to_nat (Audio.len audio - 0)) 0
                                (Audio.len audio) 600000)))
    by reflexivity.
  pose proof (chunk_audio_spans audio 600000 _ Hspans) as Hchunks.
  eexists. split; [exact Hspans|].
  split; [apply range_up_chain; lia|].
  split; [|exact Hchunks].
  rewrite length_map, range_up_length by lia. f_equal. lia.
Qed.

(** A callback that leaves the world alone: the notification returns in the
    same world. *)
Lemma notify_inert (cb : option (@Callback (gmap string (@Stored Frame))))
    fraction message st :
  callback_inert cb ->
  exists st1,
    notify cb fraction message st = (Ok tt, st1) /\ world st1 = world st.
Proof.
  destruct cb as [c|]; simpl; intros Hcb.
  - unfold lift. simpl. rewrite Hcb. by eexists.
  - by exists st.
Qed.

Lemma mem_load_audio self f audio st :
  decode (getvalue f) = Ok audio ->
  load_audio mem_write (mem_from_mp3 decode) self f st
  = (Ok audio,
     {| world := <[PyStr.path_join (temp_dir self) (name f)
                   := Uploaded (getvalue f)]> (world st);
        observed := observed st |}).
Proof.
  intros Hdecode. unfold load_audio, bind, lift, mem_write, mem_from_mp3, ret.
  simpl. rewrite lookup_insert_eq, Hdecode. done.
Qed.

Lemma mem_save_chunks_stored self chunks base_filename st :
  exists paths st',
    save_chunks mem_export self chunks base_filename st = (Ok paths, st')
    /\ length paths = length chunks
    /\ mapM (stored_audio (world st')) paths = Some chunks.
Proof.
  unfold save_chunks. cbv zeta.
  destruct (mem_save_chunks_loop self (fst (PyStr.splitext base_filename))
              chunks 0%nat [] st) as (st' & Hrun & _ & Hstored & _).
  eexists _, st'. split; [exact Hrun|]. simpl.
  split; [by rewrite length_map, length_seq|].
  apply mapM_Some_2. apply Forall2_same_length_lookup_2.
  { by rewrite length_map, length_seq. }
  intros i p chunk Hp Hchunk.
  rewrite list_lookup_fmap in Hp.
  destruct (seq 0 (length chunks) !! i) as [j|] eqn:Hj; [|done].
  apply lookup_seq in Hj as [-> _]. simpl in Hp. injection Hp as <-.
  specialize (Hstored i chunk Hchunk). simpl in Hstored.
  unfold stored_audio. by rewrite Hstored.
Qed.

End ProcessFileMem.

(** X17. In the in-memory file system, with no callback or with a callback
    that returns and leaves the files alone, [process_file] on a file that
    is accepted and decodes returns the decoded audio and its information,
    and the chunk files it reports hold, in order, the chunks that were cut,
    one file per chunk.  When the raw size is at most 25 MB there is one
    chunk, the audio as it was decoded.  Otherwise the chunks are those of
    [chunk_audio_by_size]: the slices of the audio along the ten-minute
    spans, which are contiguous and cover the audio from 0 to its full
    length, one for each span. *)
Theorem process_file_saves_chunks {Frame : Type}
    (channels sample_width frame_rate raw_size : list Frame -> Z)
    (decode : list Byte.byte -> Transcription.Result (list Frame))
    (self : Upload.Processor) (f : Upload.UploadedFile) (audio : list Frame)
    (cb : option (@Transcription.Callback (gmap string (@MemFS.Stored Frame))))
    (st : @Transcription.State (gmap string (@MemFS.Stored Frame))) :
  fst (fst (Upload.validate_audio_file (Some f))) = true ->
  decode (Upload.getvalue f) = Transcription.Ok audio ->
  Transcription.callback_inert cb ->
  exists paths st' chunks,
    Upload.process_file channels sample_width frame_rate raw_size
      MemFS.mem_write (MemFS.mem_from_mp3 decode) MemFS.mem_export
      self (Some f) cb st
    = (Transcription.Ok
         (audio, paths,
          Upload.get_audio_info channels sample_width frame_rate raw_size audio),
       st')
    /\ length paths = length chunks
    /\ mapM (MemFS.stored_audio (Transcription.world st')) paths = Some chunks
    /\ (if Audio.MAX_CHUNK_SIZE <? raw_size audio
        then exists spans,
               Audio.chunk_spans (Audio.len audio) 600000 = Some spans
               /\ Audio.span_chain 0 spans (Audio.len audio)
               /\ Z.of_nat (length spans)
                  = Audio.ceil_div (Audio.len audio) 600000
               /\ Audio.chunk_audio_by_size audio Audio.MAX_CHUNK_SIZE
                  = Some chunks
               /\ chunks = map (fun '(s, e) => Audio.slice audio s e) spans
        else chunks = [audio]).
Proof.
  intros Hvalid Hdecode Hcb. unfold Upload.process_file.
  destruct (Upload.validate_audio_file (Some f)) as [[is_valid message] file']
    eqn:Hval.
  simpl in Hvalid. subst is_valid.
  assert (Hfile : exists f', file' = Some f' /\ Upload.name f' = Upload.name f
                             /\ Upload.getvalue f' = Upload.getvalue f).
  { unfold Upload.validate_audio_file in Hval.
    destruct (PyStr.endswith _ _); simpl in Hval; [|done].
    destruct (_ =? 0); [done|]. injection Hval as _ <-. by eexists. }
  destruct Hfile as (f' & -> & Hname & Hvalue).
  change (negb true) with false. cbv beta iota.
  destruct (notify_inert cb (1 # 10) "Validating file..." st Hcb)
    as (st1 & Hn1 & Hw1).
  unfold Transcription.bind at 1. rewrite Hn1.
  destruct (notify_inert cb (3 # 10) "Loading audio file..." st1 Hcb)
    as (st2 & Hn2 & Hw2).
  unfold Transcription.bind at 1. rewrite Hn2.
  unfold Transcription.bind at 1.
  rewrite (mem_load_audio decode self f' audio) by (by rewrite Hvalue).
  set (st3 := {| Transcription.world := _; Transcription.observed := _ |}).
  cbv zeta.
  destruct (notify_inert cb (5 # 10) "Analyzing audio..." st3 Hcb)
    as (st4 & Hn4 & Hw4).
  unfold Transcription.bind at 1. rewrite Hn4.
  change (Upload.size_bytes
            (Upload.get_audio_info channels sample_width frame_rate raw_size
               audio)) with (raw_size audio).
  unfold Transcription.bind at 1.
  destruct (Audio.MAX_CHUNK_SIZE <? raw_size audio).
  - destruct (notify_inert cb (6 # 10) "Chunking large file..." st4 Hcb)
      as (st5 & Hn5 & Hw5).
    unfold Transcription.bind at 1. rewrite Hn5.
    destruct (chunk_audio_by_size_spans audio Audio.MAX_CHUNK_SIZE)
      as (spans & Hspans & Hchain & Hcount & Hchunks).
    rewrite Hchunks.
    destruct (mem_save_chunks_stored self
                (map (fun '(s, e) => Audio.slice audio s e) spans)
                (Upload.name f') st5)
      as (paths & st6 & -> & Hpaths & Hstored).
    destruct (notify_inert cb (1 # 1) "Processing complete!" st6 Hcb)
      as (st7 & Hn7 & Hw7).
    unfold Transcription.bind at 1. rewrite Hn7. unfold Transcription.ret.
    eexists paths, st7, _. split; [reflexivity|].
    split; [exact Hpaths|]. split; [by rewrite Hw7|].
    exists spans. by repeat split.
  - destruct (notify_inert cb (6 # 10) "Saving audio..." st4 Hcb)
      as (st5 & Hn5 & Hw5).
    unfold Transcription.bind at 1. rewrite Hn5.
    destruct (mem_save_chunks_stored self [audio] (Upload.name f') st5)
      as (paths & st6 & -> & Hpaths & Hstored).
    destruct (notify_inert cb (1 # 1) "Processing complete!" st6 Hcb)
      as (st7 & Hn7 & Hw7).
    unfold Transcription.bind at 1. rewrite Hn7. unfold Transcription.ret.
    exists paths, st7, [audio]. split; [reflexivity|].
    split; [exact Hpaths|]. split; [by rewrite Hw7|]. done.
Qed.

Lemma process_file_saves_chunks_witness :
  fst (fst (Upload.validate_audio_file (Some UploadExamples.song))) = true
  /\ UploadExamples.decode_bytes (Upload.getvalue UploadExamples.song)
     = Transcription.Ok [1; 2; 3]%nat
  /\ Transcription.callback_inert
       (Some (fun (_ : Q) (_ : string)
                  (w : gmap string (@MemFS.Stored nat)) =>
                (Transcription.Ok tt, w)))
  /\ exists paths st',
       Upload.process_file UploadExamples.two UploadExamples.two
         UploadExamples.rate UploadExamples.four_bytes_per_frame
         MemFS.mem_write (MemFS.mem_from_mp3 UploadExamples.decode_bytes)
         MemFS.mem_export UploadExamples.processor (Some UploadExamples.song)
         (Some (fun _ _ w => (Transcription.Ok tt, w))) UploadExamples.no_files
       = (Transcription.Ok
            ([1; 2; 3]%nat, paths,
             Upload.get_audio_info UploadExamples.two UploadExamples.two
               UploadExamples.rate UploadExamples.four_bytes_per_frame
               [1; 2; 3]%nat), st')
       /\ length paths = 1%nat
       /\ mapM (MemFS.stored_audio (Transcription.world st')) paths
          = Some [[1; 2; 3]%nat].
Proof.
  split; [reflexivity|]. split; [reflexivity|].
  assert (Hcb : Transcription.callback_inert
                  (Some (fun (_ : Q) (_ : string)
                             (w : gmap string (@MemFS.Stored nat)) =>
                           (Transcription.Ok tt, w))))
    by (intros fraction message w; reflexivity).
  split; [exact Hcb|].
  destruct (process_file_saves_chunks UploadExamples.two UploadExamples.two
              UploadExamples.rate UploadExamples.four_bytes_per_frame
              UploadExamples.decode_bytes UploadExamples.processor
              UploadExamples.song [1; 2; 3]%nat _ UploadExamples.no_files
              eq_refl eq_refl Hcb)
    as (paths & st' & chunks & Hrun & Hlen & Hstored & Hchunks).
  vm_compute in Hchunks. subst chunks. by exists paths, st'.
Defined.

(** ** Processing files: rejection, progress and batches *)

Section ProcessProperties.

Import Transcription Upload.
Context {Frame : Type} {World : Type}.
Variable channels sample_width frame_rate raw_size : list Frame -> Z.
Variable mkdtemp : World -> Result string * World.
Variable write_bytes : string -> list Byte.byte -> World -> Result unit * World.
Variable from_mp3 : string -> World -> Result (list Frame) * World.
Variable export :
  list Frame -> string -> string -> string -> World -> Result unit * World.
Implicit Types (st : @State World) (self : Processor).
Implicit Types (cb : option (@Callback World)).

Local Abbreviation process_file :=
  (process_file channels sample_width frame_rate raw_size write_bytes from_mp3
     export).
Local Abbreviation process_batch_loop :=
  (process_batch_loop channels sample_width frame_rate raw_size write_bytes
     from_mp3 export).
Local Abbreviation process_batch_try :=
  (process_batch_try channels sample_width frame_rate raw_size write_bytes
     from_mp3 export).

(** A notification is recorded whether the callback returns or raises. *)
Lemma notify_fractions cb fraction message st :
  fractions (snd (notify cb fraction message st))
  = fractions st ++ match cb with Some _ => [fraction] | None => [] end.
Proof.
  destruct cb as [f|]; simpl.
  - unfold lift, fractions. simpl.
    destruct (f fraction message (world st)). simpl. by rewrite map_app.
  - by rewrite app_nil_r.
Qed.

Lemma load_audio_observed self f st :
  observed (snd (load_audio write_bytes from_mp3 self f st)) = observed st.
Proof.
  unfold load_audio, bind.
  pose proof (lift_observed
                (write_bytes (PyStr.path_join (temp_dir self) (name f))
                   (getvalue f)) st) as Hw.
  destruct (lift _ st) as [[[]|msg] st1]; simpl in Hw; [|done].
  pose proof (lift_observed
                (from_mp3 (PyStr.path_join (temp_dir self) (name f))) st1)
    as Hr.
  destruct (lift _ st1) as [[audio|msg] st2]; simpl in Hr |- *; congruence.
Qed.

Lemma save_chunks_observed self chunks base_filename st :
  observed (snd (save_chunks export self chunks base_filename st))
  = observed st.
Proof. unfold save_chunks. apply save_chunks_loop_observed. Qed.





End ProcessProperties.

(** X18. A file that [validate_audio_file] rejects stops [process_file] at once:
    after the first notification it raises with the message of the
    validation, and nothing is written, decoded or exported. *)
Theorem process_file_rejects_invalid {Frame World : Type}
    (channels sample_width frame_rate raw_size : list Frame -> Z)
    (write_bytes : string -> list Byte.byte -> World
                   -> Transcription.Result unit * World)
    (from_mp3 : string -> World -> Transcription.Result (list Frame) * World)
    (export : list Frame -> string -> string -> string -> World
              -> Transcription.Result unit * World)
    (self : Upload.Processor) (file : option Upload.UploadedFile)
    (cb : option (@Transcription.Callback World))
    (st : @Transcription.State World) :
  fst (fst (Upload.validate_audio_file file)) = false ->
  Transcription.callback_returns cb ->
  exists st1,
    Transcription.notify cb (1 # 10) "Validating file..." st
    = (Transcription.Ok tt, st1)
    /\ Upload.process_file channels sample_width frame_rate raw_size
         write_bytes from_mp3 export self file cb st
       = (Transcription.Raise (snd (fst (Upload.validate_audio_file file))), st1)
    /\ (cb = None -> st1 = st).
Proof.
  intros Hinvalid Hcb.
  destruct (notify_returns cb (1 # 10) "Validating file..." st Hcb)
    as (st1 & Hn & _).
  exists st1. split; [exact Hn|]. split.
  - unfold Upload.process_file, Transcription.bind at 1. rewrite Hn.
    destruct (Upload.validate_audio_file file) as [[is_valid message] file'].
    simpl in Hinvalid. subst is_valid. done.
  - intros ->. simpl in Hn. by injection Hn as <-.
Qed.

Lemma process_file_rejects_invalid_witness :
  fst (fst (Upload.validate_audio_file (Some UploadExamples.notes))) = false
  /\ Upload.process_file UploadExamples.two UploadExamples.two
       UploadExamples.rate UploadExamples.four_bytes_per_frame
       MemFS.mem_write (MemFS.mem_from_mp3 UploadExamples.decode_bytes)
       MemFS.mem_export UploadExamples.processor (Some UploadExamples.notes)
       None UploadExamples.no_files
     = (Transcription.Raise "Only MP3 files are accepted",
        UploadExamples.no_files).
Proof.
  split; [reflexivity|].
  destruct (process_file_rejects_invalid UploadExamples.two UploadExamples.two
              UploadExamples.rate UploadExamples.four_bytes_per_frame
              MemFS.mem_write (MemFS.mem_from_mp3 UploadExamples.decode_bytes)
              MemFS.mem_export UploadExamples.processor
              (Some UploadExamples.notes) None UploadExamples.no_files
              eq_refl I) as (st1 & _ & Hrun & Hsame).
  rewrite Hrun, (Hsame eq_refl). reflexivity.
Defined.



(** A batch of an accepted file, a file with the wrong extension and an
    empty file. *)
Lemma process_batch_files_example :
  let run :=
    Upload.process_batch_files UploadExamples.two UploadExamples.two
      UploadExamples.rate UploadExamples.four_bytes_per_frame
      (MemFS.mem_mkdtemp "/tmp/tmpab12") MemFS.mem_write
      (MemFS.mem_from_mp3 UploadExamples.decode_bytes) MemFS.mem_export
      [Some UploadExamples.song; Some UploadExamples.notes;
       Some UploadExamples.blank]
      None UploadExamples.no_files in
  match fst run with
  | Transcription.Ok results =>
      map (fun p => (Upload.entry_filename p, Upload.entry_chunk_paths p))
          (Upload.processed results)
      = [("Song.MP3", ["/tmp/tmpab12/Song_chunk_1.mp3"])]
      /\ map (fun f => (Upload.failed_filename f, Upload.failed_error f))
             (Upload.failed results)
         = [("notes.txt", "Only MP3 files are accepted");
            ("blank.mp3", "File is empty")]
  | Transcription.Raise _ => False
  end.
Proof. vm_compute. split; reflexivity. Qed.

(** A batch with an entry that is [None] after an accepted file: the
    accepted file is processed, then the call raises. *)
Lemma process_batch_files_none_entry :
  fst (Upload.process_batch_files UploadExamples.two UploadExamples.two
         UploadExamples.rate UploadExamples.four_bytes_per_frame
         (MemFS.mem_mkdtemp "/tmp/tmpab12") MemFS.mem_write
         (MemFS.mem_from_mp3 UploadExamples.decode_bytes) MemFS.mem_export
         [Some UploadExamples.song; None; Some UploadExamples.blank]
         None UploadExamples.no_files)
  = Transcription.Raise "'NoneType' object has no attribute 'name'".
Proof. vm_compute. reflexivity. Qed.

Section ProgressOfProcessFile.

Import Transcription Upload.
Context {Frame : Type} {World : Type}.
Variable channels sample_width frame_rate raw_size : list Frame -> Z.
Variable write_bytes : string -> list Byte.byte -> World -> Result unit * World.
Variable from_mp3 : string -> World -> Result (list Frame) * World.
Variable export :
  list Frame -> string -> string -> string -> World -> Result unit * World.
Implicit Types (st : @State World) (self : Processor).

Local Abbreviation process_file :=
  (process_file channels sample_width frame_rate raw_size write_bytes from_mp3
     export).

(** One notification of a run with a callback: the state after it, and the
    fraction it adds to the record. *)
Local Ltac notified f q m st st1 Hf :=
  pose proof (notify_fractions (Some f) q m st) as Hf;
  destruct (notify (Some f) q m st) as [[[]|?msg] st1];
  simpl snd in Hf.

Local Ltac conclude Hrun :=
  unfold ret, raise in Hrun; cbv beta iota in Hrun;
  injection Hrun as <- <-; eexists; split;
  [ repeat match goal with
           | Hf : fractions _ = _ |- _ => rewrite Hf; clear Hf
           | Ho : observed _ = _ |- _ =>
               unfold fractions at 1; rewrite Ho; clear Ho;
               match goal with |- context [map fst (observed ?s)] =>
                 fold (fractions s) end
           end;
    rewrite <- ?app_assoc; reflexivity
  | split; [by eexists | split; [reflexivity | try done]] ].

(** X20. [process_file] reports progress in order.  In every run with a
    callback, whether it returns or raises, the fractions passed to the
    callback are an initial part of 0.1, 0.3, 0.5, 0.6, 1 and never
    decrease; a run that returns has passed all five. *)
Theorem process_file_progress_in_order self file f st out st' :
  process_file self file (Some f) st = (out, st') ->
  exists new,
    fractions st' = fractions st ++ new
    /\ new `prefix_of` [1 # 10; 3 # 10; 5 # 10; 6 # 10; 1 # 1]
    /\ nondecreasing new = true
    /\ (forall r, out = Ok r -> new = [1 # 10; 3 # 10; 5 # 10; 6 # 10; 1 # 1]).
Proof.
  intros Hrun. unfold Upload.process_file in Hrun. unfold bind at 1 in Hrun.
  notified f (1 # 10) "Validating file..." st st1 Hf1; [|conclude Hrun].
  destruct (validate_audio_file file) as [[[] message] file'];
    [change (negb true) with false in Hrun
    | change (negb false) with true in Hrun];
    cbv iota in Hrun; [|conclude Hrun].
  unfold bind at 1 in Hrun.
  notified f (3 # 10) "Loading audio file..." st1 st2 Hf2; [|conclude Hrun].
  destruct file' as [file'|]; [|conclude Hrun].
  unfold bind at 1 in Hrun.
  pose proof (load_audio_observed write_bytes from_mp3 self file' st2) as Ho3.
  destruct (load_audio write_bytes from_mp3 self file' st2)
    as [[audio|msg] st3]; simpl snd in Ho3; [|conclude Hrun].
  cbv zeta in Hrun. unfold bind at 1 in Hrun.
  notified f (5 # 10) "Analyzing audio..." st3 st4 Hf4; [|conclude Hrun].
  unfold bind at 1 in Hrun.
  destruct (Audio.MAX_CHUNK_SIZE <? _).
  - unfold bind at 1 in Hrun.
    notified f (6 # 10) "Chunking large file..." st4 st5 Hf5; [|conclude Hrun].
    destruct (Audio.chunk_audio_by_size audio Audio.MAX_CHUNK_SIZE)
      as [chunks|]; [|conclude Hrun].
    pose proof (save_chunks_observed export self chunks (name file') st5)
      as Ho6.
    destruct (save_chunks export self chunks (name file') st5)
      as [[paths|msg] st6]; simpl snd in Ho6; [|conclude Hrun].
    unfold bind at 1 in Hrun.
    notified f (1 # 1) "Processing complete!" st6 st7 Hf7; conclude Hrun.
  - unfold bind at 1 in Hrun.
    notified f (6 # 10) "Saving audio..." st4 st5 Hf5; [|conclude Hrun].
    pose proof (save_chunks_observed export self [audio] (name file') st5)
      as Ho6.
    destruct (save_chunks export self [audio] (name file') st5)
      as [[paths|msg] st6]; simpl snd in Ho6; [|conclude Hrun].
    unfold bind at 1 in Hrun.
    notified f (1 # 1) "Processing complete!" st6 st7 Hf7; conclude Hrun.
Qed.

End ProgressOfProcessFile.

Lemma process_file_progress_in_order_witness :
  exists out st',
    Upload.process_file UploadExamples.two UploadExamples.two
      UploadExamples.rate UploadExamples.four_bytes_per_frame
      MemFS.mem_write (MemFS.mem_from_mp3 UploadExamples.decode_bytes)
      MemFS.mem_export UploadExamples.processor (Some UploadExamples.song)
      (Some UploadExamples.silent) UploadExamples.no_files = (out, st')
    /\ Transcription.fractions st' = [1 # 10; 3 # 10; 5 # 10; 6 # 10; 1 # 1].
Proof.
  destruct (Upload.process_file UploadExamples.two UploadExamples.two
              UploadExamples.rate UploadExamples.four_bytes_per_frame
              MemFS.mem_write (MemFS.mem_from_mp3 UploadExamples.decode_bytes)
              MemFS.mem_export UploadExamples.processor
              (Some UploadExamples.song) (Some UploadExamples.silent)
              UploadExamples.no_files) as [out st'] eqn:Hrun.
  exists out, st'. split; [reflexivity|].
  destruct (process_file_progress_in_order _ _ _ _ _ _ _ _ _ _ _ _ _ Hrun)
    as (new & Hfr & _ & _ & Hall).
  assert (Hout : exists r, out = Transcription.Ok r).
  { apply (f_equal fst) in Hrun. vm_compute in Hrun. subst out. by eexists. }
  destruct Hout as [r Hr]. rewrite Hfr, (Hall r Hr). reflexivity.
Defined.

Lemma transcribe_file_fractions_unit_witness :
  Transcription.callback_returns (Some Examples.quiet)
  /\ exists r st' new,
       Transcription.transcribe_file Examples.open_ok Examples.scripted_create
         Examples.service ["a.mp3"; "b.mp3"] None (Some Examples.quiet)
         (Examples.start
            [Transcription.Ok (Examples.verbose_response "hi" 3 []);
             Transcription.Ok (Examples.verbose_response "bye" 4 [])])
       = (Transcription.Ok r, st')
       /\ Transcription.fractions st' = [] ++ new
       /\ Forall Transcription.in_unit_interval new.
Proof.
  assert (Hcb : Transcription.callback_returns (Some Examples.quiet)).
  { intros fraction message w. by exists w. }
  split; [exact Hcb|].
  exact (transcribe_file_fractions_unit Examples.open_ok
           Examples.scripted_create Examples.service ["a.mp3"; "b.mp3"] None
           (Some Examples.quiet)
           (Examples.start
              [Transcription.Ok (Examples.verbose_response "hi" 3 []);
               Transcription.Ok (Examples.verbose_response "bye" 4 [])])
           Hcb).
Defined.
